(** * Organisation metadata generation: a model of
      [opensustaintech/metadata_generation/generate_organisation_metadata.py]

    The script enriches the rows of a spreadsheet with metadata asked from a
    language model, memoised in a disk cache, and writes a JSON file and a
    CSV report.  This development embeds the script function by function:

    - Python [str] values are lists of Unicode code points;
    - JSON documents ([json.loads], [json.dump]) are a datatype [json], with
      Python's insertion-ordered [dict] as an association list;
    - the disk cache is a finite map from URL to stored value;
    - the language model, the prompt template and the texts of library
      error messages are parameters of the model;
    - the effects of the script (cache writes, model calls, warnings, file
      writes) are threaded through an explicit [world]. *)

From Stdlib Require Import String Ascii ZArith NArith List Bool Lia.
From Stdlib Require Import DecimalN DecimalZ DecimalFacts QArith.
From stdpp Require Import base option list gmap sorting.

Local Open Scope N_scope.

(** ** Text *)

(** A Python [str] is a sequence of code points. *)
Definition str : Type := list N.

(** [lit "abc"] is the [str] of an ASCII literal of the source. *)
Definition lit (s : string) : str := map N_of_ascii (list_ascii_of_string s).

Definition ch (a : ascii) : N := N_of_ascii a.

(** [quoted "{'a': 1}"] is the text [{"a": 1}]: an ASCII literal in which
    the apostrophe stands for the double quote. *)
Definition quoted (s : string) : str :=
  map (fun c => if c =? 39 then 34 else c) (lit s).
Arguments lit : simpl never.
Arguments quoted : simpl never.
Arguments ch : simpl never.

Definition str_eqb (a b : str) : bool := bool_decide (a = b).

(** [s.startswith(p)], returning what follows the prefix. *)
Fixpoint strip_prefix (p s : str) : option str :=
  match p, s with
  | [], _ => Some s
  | _ :: _, [] => None
  | a :: p', b :: s' => if a =? b then strip_prefix p' s' else None
  end.

Definition startswith (s p : str) : bool :=
  match strip_prefix p s with Some _ => true | None => false end.

(** [s.replace(old, new)] for a non-empty [old]: occurrences are replaced
    from left to right and do not overlap.  [skip] counts the characters of
    an occurrence that are still to be dropped. *)
Fixpoint replace_from (old new : str) (skip : nat) (s : str) : str :=
  match s with
  | [] => []
  | c :: s' =>
      match skip with
      | S k => replace_from old new k s'
      | O =>
          if startswith s old
          then new ++ replace_from old new (length old - 1) s'
          else c :: replace_from old new 0 s'
      end
  end.

Definition replace (s old new : str) : str := replace_from old new 0 s.

(** ** JSON values *)

(** A Python [float] is kept as the decimal number [m * 10^e] whose digits
    [float.__repr__] writes (the shortest that read back as the same
    binary64), or as one of the three constants that [json] reads and
    writes.  A literal of more than fifteen significant digits, or beyond
    the normal range of binary64, which CPython may round to other digits,
    is kept as written. *)
Inductive pyfloat : Type :=
| Fnan
| Finf (neg : bool)
| Fdec (neg : bool) (m : N) (e : Z).

#[local] Unset Elimination Schemes.
Inductive json : Type :=
| JNull
| JBool (b : bool)
| JInt (z : Z)
| JFloat (f : pyfloat)
| JStr (s : str)
| JArr (l : list json)
| JObj (d : list (str * json)).
#[local] Set Elimination Schemes.

(** A [dict] with [str] keys, in insertion order. *)
Definition dict : Type := list (str * json).

Section JsonInduction.
  Variable P : json -> Prop.
  Hypothesis Hnull : P JNull.
  Hypothesis Hbool : forall b, P (JBool b).
  Hypothesis Hint : forall z, P (JInt z).
  Hypothesis Hfloat : forall f, P (JFloat f).
  Hypothesis Hstr : forall s, P (JStr s).
  Hypothesis Harr : forall l, Forall P l -> P (JArr l).
  Hypothesis Hobj : forall d, Forall (fun kv => P (snd kv)) d -> P (JObj d).

Fixpoint json_nested_ind (v : json) : P v :=
    match v with
    | JNull => Hnull
    | JBool b => Hbool b
    | JInt z => Hint z
    | JFloat f => Hfloat f
    | JStr s => Hstr s
    | JArr l =>
        Harr l ((fix go (l : list json) : Forall P l :=
                   match l with
                   | [] => @List.Forall_nil _ P
                   | x :: l' => @List.Forall_cons _ P x l' (json_nested_ind x) (go l')
                   end) l)
    | JObj d =>
        Hobj d ((fix go (d : dict) : Forall (fun kv => P (snd kv)) d :=
                   match d with
                   | [] => @List.Forall_nil _ _
                   | kv :: d' =>
                       @List.Forall_cons _ (fun kv => P (snd kv)) kv d'
                         (json_nested_ind (snd kv)) (go d')
                   end) d)
    end.
End JsonInduction.

(** [d.get(k)]: [None] when the key is absent. *)
Fixpoint dict_get (k : str) (d : dict) : option json :=
  match d with
  | [] => None
  | (k', v) :: d' => if str_eqb k k' then Some v else dict_get k d'
  end.

(** [d[k] = v]: an existing key keeps its place, a new key goes last. *)
Fixpoint dict_set (k : str) (v : json) (d : dict) : dict :=
  match d with
  | [] => [(k, v)]
  | (k', v') :: d' =>
      if str_eqb k k' then (k, v) :: d' else (k', v') :: dict_set k v d'
  end.

(** [dict(pairs)]: a repeated key keeps its first place and its last value. *)
Definition dict_of_pairs (l : list (str * json)) : dict :=
  fold_left (fun d kv => dict_set (fst kv) (snd kv) d) l [].

Definition float_truthy (f : pyfloat) : bool :=
  match f with
  | Fdec _ m _ => negb (m =? 0)
  | _ => true
  end.

(** Python's truth value of a JSON value: [None], [False], zero and the empty
    string, list and dict are false. *)
Definition truthy (v : json) : bool :=
  match v with
  | JNull => false
  | JBool b => b
  | JInt z => negb (z =? 0)%Z
  | JFloat f => float_truthy f
  | JStr s => negb (bool_decide (s = []))
  | JArr l => negb (bool_decide (length l = 0%nat))
  | JObj d => negb (bool_decide (length d = 0%nat))
  end.

(** ** [json.loads] *)

(** The decoder is modelled on texts of any length and nesting: the limits
    of the interpreter (the depth of recursion, the longest integer literal
    that [int] converts) are left out. *)

Definition QUOTE : N := 34.
Definition BACKSLASH : N := ch "\".

(** The whitespace of [json.decoder]: space, tab, line feed, carriage return. *)
Definition is_ws (c : N) : bool :=
  (c =? 32) || (c =? 9) || (c =? 10) || (c =? 13).

Definition is_digit (c : N) : bool := (48 <=? c) && (c <=? 57).

Fixpoint skip_ws (s : str) : str :=
  match s with
  | c :: s' => if is_ws c then skip_ws s' else s
  | [] => []
  end.

(** The value of a hexadecimal digit, as [int(_, 16)] reads it. *)
Definition hex_val (c : N) : option N :=
  if is_digit c then Some (c - 48)
  else if (97 <=? c) && (c <=? 102) then Some (c - 87)
  else if (65 <=? c) && (c <=? 70) then Some (c - 55)
  else None.

(** [_decode_uXXXX]: four hexadecimal digits. *)
Definition hex4 (a b c d : N) : option N :=
  match hex_val a, hex_val b, hex_val c, hex_val d with
  | Some x, Some y, Some z, Some t => Some (((x * 16 + y) * 16 + z) * 16 + t)
  | _, _, _, _ => None
  end.

Definition is_high_surrogate (u : N) : bool := (55296 <=? u) && (u <=? 56319).
Definition is_low_surrogate (u : N) : bool := (56320 <=? u) && (u <=? 57343).

(** [0x10000 + (((uni - 0xd800) << 10) | (uni2 - 0xdc00))] *)
Definition join_surrogates (hi lo : N) : N :=
  65536 + N.lor (N.shiftl (hi - 55296) 10) (lo - 56320).

(** The table [BACKSLASH] of [json.decoder]. *)
Definition short_escape (e : N) : option N :=
  if e =? QUOTE then Some QUOTE
  else if e =? BACKSLASH then Some BACKSLASH
  else if e =? ch "/" then Some (ch "/")
  else if e =? ch "b" then Some 8
  else if e =? ch "f" then Some 12
  else if e =? ch "n" then Some 10
  else if e =? ch "r" then Some 13
  else if e =? ch "t" then Some 9
  else None.

(** The low half of a surrogate pair written as a second [\uXXXX] escape
    at the head of [s], with what follows it. *)
Definition low_escape (s : str) : option (N * str) :=
  match s with
  | b :: u :: k1 :: k2 :: k3 :: k4 :: s' =>
      if (b =? BACKSLASH) && (u =? ch "u") then
        match hex4 k1 k2 k3 k4 with
        | Some lo => if is_low_surrogate lo then Some (lo, s') else None
        | None => None
        end
      else None
  | _ => None
  end.

(** One more decoded character in front of the rest of a scanned string. *)
Definition push (c : N) (x : option (str * str)) : option (str * str) :=
  match x with
  | Some (t, rest) => Some (c :: t, rest)
  | None => None
  end.

(** [scanstring] in strict mode, started after the opening quote: the
    decoded string and the text after the closing quote; [None] where the
    decoder raises [JSONDecodeError]. *)
Fixpoint scanstring (s : str) : option (str * str) :=
  match s with
  | [] => None
  | c :: r =>
      if c =? QUOTE then Some ([], r)
      else if c =? BACKSLASH then
        match r with
        | [] => None
        | e :: r1 =>
            if e =? ch "u" then
              match r1 with
              | h1 :: h2 :: h3 :: h4 :: r2 =>
                  match hex4 h1 h2 h3 h4 with
                  | None => None
                  | Some uni =>
                      if is_high_surrogate uni then
                        match r2 with
                        | b :: u :: k1 :: k2 :: k3 :: k4 :: r3 =>
                            match low_escape r2 with
                            | Some (lo, _) =>
                                push (join_surrogates uni lo) (scanstring r3)
                            | None => push uni (scanstring r2)
                            end
                        | _ => push uni (scanstring r2)
                        end
                      else push uni (scanstring r2)
                  end
              | _ => None
              end
            else
              match short_escape e with
              | None => None
              | Some c' => push c' (scanstring r1)
              end
        end
      else if c <? 32 then None
      else push c (scanstring r)
  end.

(** *** Numbers *)

Definition uint_digit (c : N) (u : Decimal.uint) : Decimal.uint :=
  match c - 48 with
  | 0 => Decimal.D0 u
  | 1 => Decimal.D1 u
  | 2 => Decimal.D2 u
  | 3 => Decimal.D3 u
  | 4 => Decimal.D4 u
  | 5 => Decimal.D5 u
  | 6 => Decimal.D6 u
  | 7 => Decimal.D7 u
  | 8 => Decimal.D8 u
  | _ => Decimal.D9 u
  end.

Fixpoint uint_of_digits (s : str) : Decimal.uint :=
  match s with
  | [] => Decimal.Nil
  | c :: s' => uint_digit c (uint_of_digits s')
  end.

Fixpoint digits_of_uint (u : Decimal.uint) : str :=
  match u with
  | Decimal.Nil => []
  | Decimal.D0 u' => 48 :: digits_of_uint u'
  | Decimal.D1 u' => 49 :: digits_of_uint u'
  | Decimal.D2 u' => 50 :: digits_of_uint u'
  | Decimal.D3 u' => 51 :: digits_of_uint u'
  | Decimal.D4 u' => 52 :: digits_of_uint u'
  | Decimal.D5 u' => 53 :: digits_of_uint u'
  | Decimal.D6 u' => 54 :: digits_of_uint u'
  | Decimal.D7 u' => 55 :: digits_of_uint u'
  | Decimal.D8 u' => 56 :: digits_of_uint u'
  | Decimal.D9 u' => 57 :: digits_of_uint u'
  end.

(** [int(ds)] for a run of decimal digits, and the digits of [repr(n)]. *)
Definition N_of_digits (ds : str) : N := N.of_uint (uint_of_digits ds).
Definition digits_of_N (n : N) : str := digits_of_uint (N.to_uint n).

(** The longest run of digits at the head of [s], and the rest. *)
Fixpoint span_digits (s : str) : str * str :=
  match s with
  | c :: s' =>
      if is_digit c
      then let '(ds, r) := span_digits s' in (c :: ds, r)
      else ([], s)
  | [] => ([], [])
  end.

(** The integer part of [NUMBER_RE]: an optional minus sign, then a single
    zero or a non-zero digit followed by digits. *)
Definition strip_sign (s : str) : bool * str :=
  match s with
  | c :: r => if c =? ch "-" then (true, r) else (false, s)
  | [] => (false, s)
  end.

Definition integer_digits (s : str) : option (str * str) :=
  match s with
  | c :: r1 =>
      if c =? 48 then Some ([c], r1)
      else if is_digit c
      then let '(ds, r2) := span_digits r1 in Some (c :: ds, r2)
      else None
  | [] => None
  end.

Definition match_integer (s : str) : option (bool * str * str) :=
  let '(neg, r0) := strip_sign s in
  match integer_digits r0 with
  | Some (ds, r) => Some (neg, ds, r)
  | None => None
  end.

(** The optional fraction: a dot and at least one digit. *)
Definition match_frac (s : str) : option str * str :=
  match s with
  | dot :: c :: r =>
      if (dot =? ch ".") && is_digit c
      then let '(ds, r') := span_digits r in (Some (c :: ds), r')
      else (None, s)
  | _ => (None, s)
  end.

(** The optional exponent: [e] or [E], an optional sign, at least one
    digit; returned as its value. *)
Definition match_exp (s : str) : option Z * str :=
  match s with
  | e :: r =>
      if (e =? ch "e") || (e =? ch "E") then
        match r with
        | c :: r1 =>
            if is_digit c then
              let '(ds, r') := span_digits r1 in
              (Some (Z.of_N (N_of_digits (c :: ds))), r')
            else if (c =? ch "+") || (c =? ch "-") then
              match r1 with
              | c1 :: r2 =>
                  if is_digit c1 then
                    let '(ds, r') := span_digits r2 in
                    let v := Z.of_N (N_of_digits (c1 :: ds)) in
                    (Some (if c =? ch "-" then (- v)%Z else v), r')
                  else (None, s)
              | [] => (None, s)
              end
            else (None, s)
        | [] => (None, s)
        end
      else (None, s)
  | [] => (None, s)
  end.

(** A finite float is kept in one form: the mantissa of a number other
    than zero does not end in the digit 0, and zero has the exponent 0. *)
Definition float_ok (f : pyfloat) : bool :=
  match f with
  | Fdec _ m e => if m =? 0 then (e =? 0)%Z else negb (m mod 10 =? 0)
  | _ => true
  end.

Fixpoint strip_zeros (fuel : nat) (m : N) (e : Z) : N * Z :=
  match fuel with
  | O => (m, e)
  | S k => if m mod 10 =? 0 then strip_zeros k (m / 10) (e + 1) else (m, e)
  end.

(** The form in which the number [m * 10^e] is kept. *)
Definition canonical (m : N) (e : Z) : N * Z :=
  if m =? 0 then (0, 0%Z) else strip_zeros (N.to_nat (N.size m)) m e.

(** [float(literal)] for the literal of [m * 10^e]. *)
Definition make_float (neg : bool) (m : N) (e : Z) : pyfloat :=
  let '(m', e') := canonical m e in Fdec neg m' e'.

(** [NUMBER_RE.match] and the conversion of [py_make_scanner]: [int] when
    the literal has neither fraction nor exponent, [float] otherwise. *)
Definition match_number (s : str) : option (json * str) :=
  match match_integer s with
  | None => None
  | Some (neg, ids, r) =>
      let '(frac, r1) := match_frac r in
      let '(exp, r2) := match_exp r1 in
      match frac, exp with
      | None, None =>
          let n := Z.of_N (N_of_digits ids) in
          Some (JInt (if neg then (- n)%Z else n), r2)
      | _, _ =>
          let fds := default [] frac in
          Some (JFloat (make_float neg (N_of_digits (ids ++ fds))
                          (default 0%Z exp - Z.of_nat (length fds))), r2)
      end
  end.

(** *** The scanner *)

(** A scan yields a value and the unread text, or fails as the decoder
    raises, or stops for want of fuel (which [json_loads] never lets
    happen, see [json_loads_fuel]). *)
Inductive scan (A : Type) : Type :=
| Scanned (a : A) (rest : str)
| Rejected
| Exhausted.
Arguments Scanned {A} a rest.
Arguments Rejected {A}.
Arguments Exhausted {A}.

Definition scan_of_option {A} (o : option (A * str)) : scan A :=
  match o with
  | Some (a, r) => Scanned a r
  | None => Rejected
  end.

Definition scan_bind {A B} (x : scan A) (k : A -> str -> scan B) : scan B :=
  match x with
  | Scanned a r => k a r
  | Rejected => Rejected
  | Exhausted => Exhausted
  end.

(** A literal name of the scanner ([null], [true], ...), tried at [s]. *)
Definition keyword (w : string) (v : json) (s : str) : option (json * str) :=
  match strip_prefix (lit w) s with
  | Some r => Some (v, r)
  | None => None
  end.

Definition scan_atom (s : str) : scan json :=
  match keyword "null" JNull s with
  | Some x => scan_of_option (Some x)
  | None =>
  match keyword "true" (JBool true) s with
  | Some x => scan_of_option (Some x)
  | None =>
  match keyword "false" (JBool false) s with
  | Some x => scan_of_option (Some x)
  | None =>
  match match_number s with
  | Some x => scan_of_option (Some x)
  | None =>
  match keyword "NaN" (JFloat Fnan) s with
  | Some x => scan_of_option (Some x)
  | None =>
  match keyword "Infinity" (JFloat (Finf false)) s with
  | Some x => scan_of_option (Some x)
  | None => scan_of_option (keyword "-Infinity" (JFloat (Finf true)) s)
  end end end end end end.

(** [scan_once], with [JSONObject] and [JSONArray] unfolded into it:
    [scan_members] is the loop over the [key: value] pairs of an object,
    entered after the opening quote of a key, and [scan_items] the loop
    over the items of an array. *)
Fixpoint scan_once (fuel : nat) (s : str) {struct fuel} : scan json :=
  match fuel with
  | O => Exhausted
  | S n =>
      match s with
      | [] => Rejected
      | c :: r =>
          if c =? QUOTE then
            scan_of_option
              (match scanstring r with
               | Some (t, r') => Some (JStr t, r')
               | None => None
               end)
          else if c =? ch "{" then
            match skip_ws r with
            | c1 :: r1 =>
                if c1 =? ch "}" then Scanned (JObj []) r1
                else if c1 =? QUOTE then
                  scan_bind (scan_members n r1)
                    (fun ps r2 => Scanned (JObj (dict_of_pairs ps)) r2)
                else Rejected
            | [] => Rejected
            end
          else if c =? ch "[" then
            match skip_ws r with
            | c1 :: r1 =>
                if c1 =? ch "]" then Scanned (JArr []) r1
                else scan_bind (scan_items n (c1 :: r1))
                       (fun vs r2 => Scanned (JArr vs) r2)
            | [] => Rejected
            end
          else scan_atom s
      end
  end
with scan_members (fuel : nat) (s : str) {struct fuel}
  : scan (list (str * json)) :=
  match fuel with
  | O => Exhausted
  | S n =>
      match scanstring s with
      | None => Rejected
      | Some (key, r) =>
          match skip_ws r with
          | colon :: r1 =>
              if colon =? ch ":" then
                scan_bind (scan_once n (skip_ws r1)) (fun v r2 =>
                  match skip_ws r2 with
                  | c :: r3 =>
                      if c =? ch "}" then Scanned [(key, v)] r3
                      else if c =? ch "," then
                        match skip_ws r3 with
                        | q :: r4 =>
                            if q =? QUOTE then
                              scan_bind (scan_members n r4)
                                (fun ps r5 => Scanned ((key, v) :: ps) r5)
                            else Rejected
                        | [] => Rejected
                        end
                      else Rejected
                  | [] => Rejected
                  end)
              else Rejected
          | [] => Rejected
          end
      end
  end
with scan_items (fuel : nat) (s : str) {struct fuel} : scan (list json) :=
  match fuel with
  | O => Exhausted
  | S n =>
      scan_bind (scan_once n s) (fun v r =>
        match skip_ws r with
        | c :: r1 =>
            if c =? ch "]" then Scanned [v] r1
            else if c =? ch "," then
              scan_bind (scan_items n (skip_ws r1))
                (fun vs r2 => Scanned (v :: vs) r2)
            else Rejected
        | [] => Rejected
        end)
  end.

(** [json.loads(s)] for a [str]: [None] where it raises [JSONDecodeError]
    (a byte order mark, no value, or text after the value). *)
Definition json_loads (s : str) : option json :=
  match s with
  | 65279 :: _ => None
  | _ =>
      match scan_once (S (2 * length s)) (skip_ws s) with
      | Scanned v r => match skip_ws r with [] => Some v | _ :: _ => None end
      | _ => None
      end
  end.

(** ** [json.dump] *)

Definition hex_digit (n : N) : N := if n <? 10 then 48 + n else 87 + n.

(** ['{0:04x}'.format(n)] for [n < 0x10000]. *)
Definition hex4_of (n : N) : str :=
  [hex_digit (N.shiftr n 12 mod 16); hex_digit (N.shiftr n 8 mod 16);
   hex_digit (N.shiftr n 4 mod 16); hex_digit (n mod 16)].

Definition u_escape (n : N) : str := BACKSLASH :: ch "u" :: hex4_of n.

(** The replacement of one character by [py_encode_basestring_ascii]:
    the printable ASCII characters other than the quote and the backslash
    stand for themselves, every other character is escaped, above the
    basic plane as a surrogate pair. *)
Definition escape_char (c : N) : str :=
  if c =? QUOTE then [BACKSLASH; QUOTE]
  else if c =? BACKSLASH then [BACKSLASH; BACKSLASH]
  else if c =? 8 then [BACKSLASH; ch "b"]
  else if c =? 12 then [BACKSLASH; ch "f"]
  else if c =? 10 then [BACKSLASH; ch "n"]
  else if c =? 13 then [BACKSLASH; ch "r"]
  else if c =? 9 then [BACKSLASH; ch "t"]
  else if (32 <=? c) && (c <=? 126) then [c]
  else if c <? 65536 then u_escape c
  else
    let n := c - 65536 in
    u_escape (N.lor 55296 (N.land (N.shiftr n 10) 1023))
    ++ u_escape (N.lor 56320 (N.land n 1023)).

Fixpoint escape (s : str) : str :=
  match s with
  | [] => []
  | c :: s' => escape_char c ++ escape s'
  end.

Definition encode_string (s : str) : str := QUOTE :: escape s ++ [QUOTE].

(** [int.__repr__] *)
Definition repr_int (z : Z) : str :=
  match z with
  | Z0 => digits_of_N 0
  | Zpos p => digits_of_N (Npos p)
  | Zneg p => ch "-" :: digits_of_N (Npos p)
  end.

Definition zeros (k : nat) : str := repeat 48 k.

(** An exponent is written with two digits at least. *)
Definition pad2 (ds : str) : str :=
  match ds with
  | [d] => [48; d]
  | _ => ds
  end.

(** [float.__repr__] of the finite float [m * 10^e] in its kept form.  With
    [ds] the digits of [m] and [decpt] the place of the point (the number is
    [0.ds * 10^decpt]), the digits are written with a point among them when
    [-4 < decpt <= 16], and as [d.ddde+XX] otherwise. *)
Definition float_repr (neg : bool) (m : N) (e : Z) : str :=
  let ds := digits_of_N m in
  let n := Z.of_nat (length ds) in
  let decpt := (n + e)%Z in
  (if neg then [ch "-"] else [])
  ++ (if m =? 0 then lit "0.0"
      else if (-4 <? decpt)%Z && (decpt <=? 16)%Z then
        if (decpt <=? 0)%Z then
          lit "0." ++ zeros (Z.to_nat (- decpt)) ++ ds
        else if (decpt <? n)%Z then
          take (Z.to_nat decpt) ds ++ ch "." :: drop (Z.to_nat decpt) ds
        else ds ++ zeros (Z.to_nat (decpt - n)) ++ lit ".0"
      else
        match ds with
        | d :: t =>
            d :: match t with [] => [] | _ :: _ => ch "." :: t end
            ++ ch "e"
            :: (if (0 <=? decpt - 1)%Z then ch "+" else ch "-")
            :: pad2 (digits_of_N (Z.abs_N (decpt - 1)))
        | [] => []
        end).

(** [floatstr]: the three constants by name, a finite float by its
    [repr]. *)
Definition floatstr (f : pyfloat) : str :=
  match f with
  | Fnan => lit "NaN"
  | Finf false => lit "Infinity"
  | Finf true => lit "-Infinity"
  | Fdec neg m e => let '(m', e') := canonical m e in float_repr neg m' e'
  end.

(** The text that may follow a number without being taken for more of its
    digits. *)
Definition no_digit_ahead (rest : str) : Prop :=
  match rest with [] => True | c :: _ => is_digit c = false end.

(** The integer part of a literal: a single 0, or digits that begin with
    another digit. *)
Definition integer_part (ids : str) : Prop :=
  exists c t, ids = c :: t /\ is_digit c = true
              /\ Forall (fun c => is_digit c = true) t
              /\ (c <> 48 \/ t = []).

(** [', '.join(xs)] *)
Fixpoint join_comma (xs : list str) : str :=
  match xs with
  | [] => []
  | [x] => x
  | x :: xs' => x ++ lit ", " ++ join_comma xs'
  end.

(** [json.dumps(v)] with the default separators and [ensure_ascii]. *)
Fixpoint json_dumps (v : json) : str :=
  match v with
  | JNull => lit "null"
  | JBool true => lit "true"
  | JBool false => lit "false"
  | JInt z => repr_int z
  | JFloat f => floatstr f
  | JStr s => encode_string s
  | JArr l => ch "[" :: join_comma (List.map json_dumps l) ++ [ch "]"]
  | JObj d =>
      ch "{"
      :: join_comma
           (List.map
              (fun kv => encode_string (fst kv) ++ lit ": " ++ json_dumps (snd kv))
              d)
      ++ [ch "}"]
  end.

(** ** The world of the script *)

(** What [llm_agent.run_sync(prompt)] does: it returns a run whose [output]
    is a text, or raises [ModelHTTPError] (with its [status_code] and the
    text [str(e)]), or raises any other exception (with [str(e)]). *)
Inductive response : Type :=
| Output (text : str)
| HTTPError (status_code : Z) (msg : str)
| OtherError (msg : str).

(** The parts of the run that the source does not determine:
    - [render_from_template template website], the prompt rendered from a
      template of the [prompts] folder with [{"WEBSITE": website}] (the
      template is taken to be there and to render);
    - [run_sync n prompt], the answer of the model to its [n]-th call (a
      model need not answer twice alike);
    - [decode_error s], the text [str(e)] of the error that [json.loads]
      raises on [s];
    - [argsort cells], the order in which the sort of [numpy] leaves the
      cells of a column (those that are not missing), as the positions to
      take them from in decreasing order.  The source leaves the order of
      equal cells open (it asks for no stable sort), and lists are ordered
      as Python compares their items, which may raise; [None] stands for
      no answer. *)
Record oracle : Type := {
  render_from_template : str -> str -> str;
  run_sync : nat -> str -> response;
  decode_error : str -> str;
  argsort : list json -> option (list nat)
}.

(** What the script does to the world around it, and, as [Enrich], each
    entry into [_f]. *)
Inductive event : Type :=
| Enrich (url : str)
| Render (template website : str)
| ModelCall (prompt : str)
| Warn (msg : str)
| Makedirs (path : str)
| Download (url target : str)
| ReadExcel (path : str)
| WriteText (path text : str)
| WriteCsv (path : str).

(** The disk cache (a [diskcache.Cache], keyed by URL) and the effects so
    far, oldest first. *)
Record world : Type := {
  cache : gmap str json;
  trace : list event
}.

Definition emit (e : event) (w : world) : world :=
  {| cache := cache w; trace := trace w ++ [e] |}.

Definition is_model_call (e : event) : bool :=
  match e with ModelCall _ => true | _ => false end.

Definition model_calls (tr : list event) : nat :=
  length (List.filter is_model_call tr).
Arguments model_calls : simpl never.

(** [cache.get(url)]: [None] for a key that is not stored. *)
Definition cache_get (url : str) (w : world) : json :=
  default JNull (cache w !! url).

(** [cache.add(url, v)] stores only under a key that is not stored yet. *)
Definition cache_add (url : str) (v : json) (w : world) : world :=
  match cache w !! url with
  | Some _ => w
  | None => {| cache := <[url := v]> (cache w); trace := trace w |}
  end.

(** The exceptions that leave [_f] or end the script.  [Unsupported]
    stands for the one use of [pandas] that this model does not cover: a
    [DataFrame] made of other things than a list of dicts. *)
Inductive exn : Type :=
| AttributeError
| TypeError
| KeyError (key : str)
| ValidationError
| JSONDecodeError
| FileNotFoundError
| UserError
| Unsupported.

Inductive outcome (A : Type) : Type :=
| Ok (a : A)
| Raise (e : exn).
Arguments Ok {A} a.
Arguments Raise {A} e.

(** ** The enrichment function [_f] *)

Definition TEMPLATE : str := lit "organisation_metadata_generation_simple.md".

(** [dict(exception=msg)] *)
Definition exception_dict (msg : str) : json :=
  JObj [(lit "exception", JStr msg)].

(** [x.output.replace("\n", "").replace("```", "").replace("json{", "{")] *)
Definition clean (text : str) : str :=
  replace (replace (replace text [10] []) (lit "```") []) (lit "json{") (lit "{").

(** The [try] statement of [_f]: the value bound to [out]. *)
Definition ask_model (o : oracle) (url : str) (w : world) : json * world :=
  let prompt := render_from_template o TEMPLATE url in
  let n := model_calls (trace w) in
  let w1 := emit (ModelCall prompt) (emit (Render TEMPLATE url) w) in
  match run_sync o n prompt with
  | Output text =>
      match json_loads (clean text) with
      | Some v => (v, w1)
      | None => (exception_dict (decode_error o (clean text)), w1)
      end
  | HTTPError status_code msg =>
      let w2 :=
        if bool_decide (status_code = 401%Z \/ status_code = 403%Z)
        then emit (Warn (lit "LLM model error (due to user permissions "
                           ++ msg ++ lit ")")) w1
        else w1 in
      (exception_dict msg, w2)
  | OtherError msg => (exception_dict msg, w1)
  end.

(** The end of [_f]: [out["url"] = url; cache.add(url, out); return out].
    Item assignment with a [str] key raises [TypeError] on every JSON value
    but a [dict]. *)
Definition store (url : str) (out : json) (w : world) : outcome json * world :=
  match out with
  | JObj d =>
      let out' := JObj (dict_set (lit "url") (JStr url) d) in
      (Ok out', cache_add url out' w)
  | _ => (Raise TypeError, w)
  end.

Definition recompute (o : oracle) (url : str) (w : world)
  : outcome json * world :=
  let '(out, w') := ask_model o url w in store url out w'.

(** The test [c and (c.get("exception") is None)]; only a [dict] has a
    method [get]. *)
Definition cache_hit (c : json) : outcome bool :=
  if truthy c then
    match c with
    | JObj d =>
        match dict_get (lit "exception") d with
        | None | Some JNull => Ok true
        | Some _ => Ok false
        end
    | _ => Raise AttributeError
    end
  else Ok false.

Definition _f (o : oracle) (url : str) (w : world) : outcome json * world :=
  let w0 := emit (Enrich url) w in
  let c := cache_get url w0 in
  match cache_hit c with
  | Ok true => (Ok c, w0)
  | Ok false => recompute o url w0
  | Raise e => (Raise e, w0)
  end.

(** ** The loop over the rows of the spreadsheet *)

(** A [DataFrame]: the names of its columns and its rows, each with its
    index label.  A missing cell holds the float [nan]. *)
Record frame : Type := {
  columns : list str;
  rows : list (Z * list json)
}.

Definition nan : json := JFloat Fnan.

Fixpoint index_of (name : str) (cols : list str) : option nat :=
  match cols with
  | [] => None
  | c :: cols' =>
      if str_eqb name c then Some O
      else match index_of name cols' with
           | Some i => Some (S i)
           | None => None
           end
  end.

(** [r[name]] for a row [r] of a frame with columns [cols]. *)
Definition getitem (cols : list str) (r : list json) (name : str)
  : outcome json :=
  match index_of name cols with
  | Some i => Ok (nth i r nan)
  | None => Raise (KeyError name)
  end.

(** [isinstance(x, str) and x.startswith("https://")] *)
Definition is_https (x : json) : bool :=
  match x with
  | JStr s => startswith s (lit "https://")
  | _ => false
  end.

(** The [for] loop over [df_orgs.iterrows()], building [x_out]. *)
Fixpoint iterate (o : oracle) (cols : list str) (rs : list (Z * list json))
    (w : world) : outcome (list json) * world :=
  match rs with
  | [] => (Ok [], w)
  | (_, r) :: rs' =>
      match getitem cols r (lit "organization_website") with
      | Raise e => (Raise e, w)
      | Ok x =>
          match x with
          | JStr url =>
              if startswith url (lit "https://") then
                match _f o url w with
                | (Ok out, w1) =>
                    match iterate o cols rs' w1 with
                    | (Ok x_out, w2) => (Ok (out :: x_out), w2)
                    | (Raise e, w2) => (Raise e, w2)
                    end
                | (Raise e, w1) => (Raise e, w1)
                end
              else iterate o cols rs' w
          | _ => iterate o cols rs' w
          end
      end
  end.

(** ** The report *)

Fixpoint number_rows_from (i : Z) (l : list (list json)) : list (Z * list json) :=
  match l with
  | [] => []
  | r :: l' => (i, r) :: number_rows_from (i + 1) l'
  end.

(** A fresh [RangeIndex]. *)
Definition number_rows (l : list (list json)) : list (Z * list json) :=
  number_rows_from 0 l.

Definition add_key (ks : list str) (k : str) : list str :=
  if bool_decide (k ∈ ks) then ks else ks ++ [k].

(** The columns of [pd.DataFrame(records)]: the keys of the records, in the
    order in which they first occur. *)
Definition record_columns (ds : list dict) : list str :=
  fold_left (fun ks d => fold_left add_key (List.map fst d) ks) ds [].

Fixpoint as_records (l : list json) : option (list dict) :=
  match l with
  | [] => Some []
  | JObj d :: l' =>
      match as_records l' with
      | Some ds => Some (d :: ds)
      | None => None
      end
  | _ :: _ => None
  end.

(** [pd.DataFrame(x)] for a list of dicts, the only use the script makes of
    it; other arguments are outside this model. *)
Definition DataFrame (x : json) : outcome frame :=
  match x with
  | JArr l =>
      match as_records l with
      | Some ds =>
          let cols := record_columns ds in
          Ok {| columns := cols;
                rows := number_rows
                          (List.map (fun d =>
                             List.map (fun c => default nan (dict_get c d)) cols)
                             ds) |}
      | None => Raise Unsupported
      end
  | _ => Raise Unsupported
  end.

Fixpoint select_indices (cols : list str) (names : list str)
  : outcome (list nat) :=
  match names with
  | [] => Ok []
  | n :: names' =>
      match index_of n cols with
      | None => Raise (KeyError n)
      | Some i =>
          match select_indices cols names' with
          | Ok js => Ok (i :: js)
          | Raise e => Raise e
          end
      end
  end.

(** [df[names]] *)
Definition select (names : list str) (df : frame) : outcome frame :=
  match select_indices (columns df) names with
  | Ok js =>
      Ok {| columns := names;
            rows := List.map (fun ir =>
                      (fst ir, List.map (fun i => nth i (snd ir) nan) js))
                      (rows df) |}
  | Raise e => Raise e
  end.

(** [df.rename(columns=mapping)] *)
Definition rename (mapping : list (str * str)) (df : frame) : frame :=
  {| columns :=
       List.map (fun c =>
         match List.find (fun kv => str_eqb c (fst kv)) mapping with
         | Some kv => snd kv
         | None => c
         end) (columns df);
     rows := rows df |}.

Fixpoint remove_nth {A} (i : nat) (l : list A) : list A :=
  match l, i with
  | [], _ => []
  | _ :: l', O => l'
  | x :: l', S j => x :: remove_nth j l'
  end.

(** Equality of two join keys, of which the left one is a string. *)
Definition key_eqb (a b : json) : bool :=
  match a, b with
  | JStr x, JStr y => str_eqb x y
  | _, _ => false
  end.

Definition suffixed (others : list str) (key sfx c : str) : str :=
  if bool_decide (c ∈ others) && negb (str_eqb c key) then c ++ sfx else c.

(** [left.merge(right, how="left", on=key)]: every row of [left], in order,
    once with each row of [right] that has its key, or once with [nan] in
    the columns of [right] when there is none.  A column other than the key
    that both frames have is renamed with [_x] on the left and [_y] on the
    right. *)
Definition merge_left (key : str) (left right : frame) : outcome frame :=
  match index_of key (columns left), index_of key (columns right) with
  | Some li, Some ri =>
      let rcols := remove_nth ri (columns right) in
      Ok {| columns :=
              List.map (suffixed (columns right) key (lit "_x")) (columns left)
              ++ List.map (suffixed (columns left) key (lit "_y")) rcols;
            rows :=
              number_rows
                (flat_map (fun l =>
                   let k := nth li (snd l) nan in
                   match List.filter (fun r => key_eqb k (nth ri (snd r) nan))
                           (rows right) with
                   | [] => [snd l ++ List.map (fun _ => nan) rcols]
                   | ms => List.map (fun r => snd l ++ remove_nth ri (snd r)) ms
                   end) (rows left)) |}
  | _, _ => Raise (KeyError key)
  end.

(** The number by which a cell is sorted.  Numbers are compared as the
    values that they denote. *)
Inductive sort_key : Type :=
| KNegInf
| KNum (q : Q)
| KPosInf.

Definition float_key (f : pyfloat) : option sort_key :=
  match f with
  | Fnan => None
  | Finf true => Some KNegInf
  | Finf false => Some KPosInf
  | Fdec neg m e =>
      let z := Z.of_N m in
      Some (KNum (inject_Z (if neg then - z else z) * Qpower (10 # 1) e))
  end.

(** What [sort_values] finds in a cell: nothing ([None] and [nan], the
    cells that [isna] masks), a number ([bool] is one), a string, a list or
    a dict. *)
Inductive cell_kind : Type :=
| Missing
| Number (k : sort_key)
| Text (s : str)
| Listed
| Mapped.

Definition kind_of (v : json) : cell_kind :=
  match v with
  | JNull => Missing
  | JBool b => Number (KNum (inject_Z (if b then 1 else 0)))
  | JInt z => Number (KNum (inject_Z z))
  | JFloat f =>
      match float_key f with
      | Some k => Number k
      | None => Missing
      end
  | JStr s => Text s
  | JArr _ => Listed
  | JObj _ => Mapped
  end.

Definition is_missing (v : json) : bool :=
  match kind_of v with Missing => true | _ => false end.

Definition is_list (v : json) : bool :=
  match kind_of v with Listed => true | _ => false end.

Definition number_of (v : json) : option sort_key :=
  match kind_of v with Number k => Some k | _ => None end.

Definition text_of (v : json) : option str :=
  match kind_of v with Text s => Some s | _ => None end.

(** [a <= b] on numbers *)
Definition key_leb (a b : sort_key) : bool :=
  match a, b with
  | KNegInf, _ => true
  | _, KPosInf => true
  | KNum x, KNum y => Qle_bool x y
  | _, _ => false
  end.

(** [a <= b] on [str]: by code points, a prefix first. *)
Fixpoint str_leb (a b : str) : bool :=
  match a, b with
  | [], _ => true
  | _ :: _, [] => false
  | x :: a', y :: b' =>
      if x <? y then true else if y <? x then false else str_leb a' b'
  end.

(** [p] holds each of the positions [0], ..., [n - 1] once. *)
Definition is_arrangement (p : list nat) (n : nat) : bool :=
  (length p =? n)%nat && forallb (fun i => (i <? n)%nat) p
  && bool_decide (NoDup p).

(** [[l[i] for i in p]] *)
Definition take_rows {A : Type} (p : list nat) (l : list A) : list A :=
  omap (fun i => l !! i) p.

Section Sorting.
  Context {K A : Type} (leb : K -> K -> bool) (key : A -> K).

Fixpoint insert_desc (x : A) (l : list A) : list A :=
    match l with
    | [] => [x]
    | y :: l' =>
        if leb (key y) (key x) then x :: l else y :: insert_desc x l'
    end.

(** The stable sort in decreasing order of keys. *)
Definition sort_desc (l : list A) : list A := foldr insert_desc [] l.

(** No element is followed by a greater one. *)
Fixpoint descending (l : list A) : bool :=
    match l with
    | [] => true
    | x :: l' =>
        match l' with
        | [] => true
        | y :: _ => leb (key y) (key x)
        end && descending l'
    end.

(** The elements of [l] in decreasing order of keys: in the order [p],
    when that is such an order of all of [l], and in the stable order
    otherwise. *)
Definition arrange (p : option (list nat)) (l : list A) : list A :=
    match p with
    | Some p =>
        if is_arrangement p (length l) && descending (take_rows p l)
        then take_rows p l
        else sort_desc l
    | None => sort_desc l
    end.
End Sorting.

(** The rows with the key of their cell, when every cell has one. *)
Fixpoint keyed {K : Type} (key_of : json -> option K)
    (cell : Z * list json -> json) (rs : list (Z * list json))
  : option (list (K * (Z * list json))) :=
  match rs with
  | [] => Some []
  | r :: rs' =>
      match key_of (cell r), keyed key_of cell rs' with
      | Some k, Some krs => Some ((k, r) :: krs)
      | _, _ => None
      end
  end.

(** The rows whose cell is not missing, in decreasing order of the cell.
    Fewer than two rows are compared with nothing.  Numbers are ordered
    by value and strings by code point.  Python compares no number with a
    string, neither of them with a list and a dict with nothing: such a
    column raises [TypeError], as does a column of lists when two of their
    items do not compare. *)
Definition order_rows (o : oracle) (cell : Z * list json -> json)
    (present : list (Z * list json)) : outcome (list (Z * list json)) :=
  match present with
  | [] | [_] => Ok present
  | _ :: _ :: _ =>
      let p := argsort o (List.map cell present) in
      match keyed number_of cell present, keyed text_of cell present with
      | Some krs, _ => Ok (List.map snd (arrange key_leb fst p krs))
      | None, Some krs => Ok (List.map snd (arrange str_leb fst p krs))
      | None, None =>
          if forallb (fun r => is_list (cell r)) present then
            match p with
            | Some p =>
                if is_arrangement p (length present)
                then Ok (take_rows p present)
                else Raise TypeError
            | None => Raise TypeError
            end
          else Raise TypeError
      end
  end.

(** [df.sort_values(name, ascending=False)]: the rows whose cell in the
    column is not missing in decreasing order, then the rows whose cell is
    missing, in the order in which they were. *)
Definition sort_values_desc (o : oracle) (name : str) (df : frame)
  : outcome frame :=
  match index_of name (columns df) with
  | None => Raise (KeyError name)
  | Some i =>
      let cell := fun r : Z * list json => nth i (snd r) nan in
      match order_rows o cell
              (List.filter (fun r => negb (is_missing (cell r))) (rows df))
      with
      | Raise e => Raise e
      | Ok sorted =>
          Ok {| columns := columns df;
                rows := sorted
                        ++ List.filter (fun r => is_missing (cell r))
                             (rows df) |}
      end
  end.

(** A CSV file, field by field: the header line and the records. *)
Record csv_file : Type := {
  header : list str;
  records : list (list json)
}.

(** [df.to_csv(path)] with its defaults: the index is written too, as a
    first field without a name. *)
Definition to_csv (df : frame) : csv_file :=
  {| header := [] :: columns df;
     records := List.map (fun ir => JInt (fst ir) :: snd ir) (rows df) |}.

Definition bind {A B} (x : outcome A) (k : A -> outcome B) : outcome B :=
  match x with
  | Ok a => k a
  | Raise e => Raise e
  end.

Definition REPORT_COLUMNS : list str :=
  [lit "url"; lit "Confidence"; lit "manual_Type"; lit "Type";
   lit "manual_Location"; lit "Location"].

(** From [x_dict] and [df_orgs] to the CSV report. *)
Definition report (o : oracle) (x_dict : json) (df_orgs : frame)
  : outcome csv_file :=
  bind (DataFrame x_dict) (fun df =>
  bind (select [lit "organization_website"; lit "form_of_organization";
                lit "location_country"] df_orgs) (fun manual =>
  bind (merge_left (lit "url") df
          (rename [(lit "organization_website", lit "url");
                   (lit "form_of_organization", lit "manual_Type");
                   (lit "location_country", lit "manual_Location")] manual))
       (fun df_out =>
  bind (select REPORT_COLUMNS df_out) (fun chosen =>
  bind (sort_values_desc o (lit "Confidence") chosen) (fun sorted =>
  Ok (to_csv sorted)))))).

(** ** Settings and the script as a whole *)

Record Settings : Type := {
  MISTRAL_API_KEY : str;
  MISTRAL_MODEL : str;
  DISK_CACHE_DIRECTORY : str;
  INPUT_FOLDER : str;
  OUTPUT_FOLDER : str
}.

(** [load_dotenv()]: the variables of the [.env] file are added to the
    environment of the process, whose own variables win. *)
Definition load_dotenv (dotenv environ : gmap str str) : gmap str str :=
  environ ∪ dotenv.

(** [Settings()]: every field is read from the variable of its name (the
    keys of [env] are the names as the settings source resolves them); a
    field without default must be there. *)
Definition load_settings (env : gmap str str) : outcome Settings :=
  match env !! lit "MISTRAL_API_KEY" with
  | None => Raise ValidationError
  | Some key =>
      Ok {| MISTRAL_API_KEY := key;
            MISTRAL_MODEL :=
              default (lit "mistral-medium") (env !! lit "MISTRAL_MODEL");
            DISK_CACHE_DIRECTORY :=
              default (lit ".data") (env !! lit "DISK_CACHE_DIRECTORY");
            INPUT_FOLDER :=
              default (lit ".data/inputs") (env !! lit "INPUT_FOLDER");
            OUTPUT_FOLDER :=
              default (lit ".data/outputs") (env !! lit "OUTPUT_FOLDER") |}
  end.

(** [settings.ensure_folders_exist()], when each of the three folders can
    be made ([start_up] below has the case of one that cannot). *)
Definition ensure_folders_exist (s : Settings) (w : world) : world :=
  emit (Makedirs (DISK_CACHE_DIRECTORY s))
    (emit (Makedirs (OUTPUT_FOLDER s)) (emit (Makedirs (INPUT_FOLDER s)) w)).

Definition organisations_xlsx_url : str :=
  lit "https://api.getgrist.com/o/docs/api/docs/gSscJkc5Rb1Rw45gh1o1Yc/download/xlsx?viewSection=7&tableId=Organizations&activeSortSpec=%5B-156%5D&filters=%5B%7B%22colRef%22%3A124%2C%22filter%22%3A%22%7B%5C%22excluded%5C%22%3A%5B%5D%7D%22%7D%5D&linkingFilter=%7B%22filters%22%3A%7B%7D%2C%22operations%22%3A%7B%7D%7D".

(** What the script finds when it starts: the environment and the [.env]
    file, the content of the disk cache, the spreadsheet already in the
    input folder, if any, and the spreadsheet that the endpoint serves. *)
Record host : Type := {
  environ : gmap str str;
  dotenv : gmap str str;
  disk_cache : gmap str json;
  local_sheet : option frame;
  remote_sheet : frame
}.

(** The sheet that [pd.read_excel] reads: the one already on disk, or else
    the one downloaded. *)
Definition sheet_of (h : host) : frame :=
  match local_sheet h with
  | Some sheet => sheet
  | None => remote_sheet h
  end.

(** [_f_download_if_missing(url, target)] *)
Definition _f_download_if_missing (h : host) (url target : str) (w : world)
  : world :=
  match local_sheet h with
  | Some _ => w
  | None => emit (Download url target) w
  end.

(** The script from [settings.ensure_folders_exist()] to [pd.read_excel]:
    the world in which the loop over the rows starts. *)
Definition before_loop (h : host) (settings : Settings) : world :=
  let w0 := {| cache := disk_cache h; trace := [] |} in
  let w1 := ensure_folders_exist settings w0 in
  let input_file := INPUT_FOLDER settings ++ lit "/orgs.xlsx" in
  let w2 := _f_download_if_missing h organisations_xlsx_url input_file w1 in
  emit (ReadExcel input_file) w2.

(** The script, from its first statement to the CSV report, on a host on
    which the folders can be made, the client of the model can be built
    and the files can be written ([script] below has the ways in which the
    start fails). *)
Definition main (o : oracle) (h : host) : outcome csv_file * world :=
  match load_settings (load_dotenv (dotenv h) (environ h)) with
  | Raise e => (Raise e, {| cache := disk_cache h; trace := [] |})
  | Ok settings =>
      let output_file := OUTPUT_FOLDER settings ++ lit "/orgs_classified.json" in
      let output_file_csv := replace output_file (lit ".json") (lit ".csv") in
      let df_orgs := sheet_of h in
      match iterate o (columns df_orgs) (rows df_orgs)
              (before_loop h settings) with
      | (Raise e, w4) => (Raise e, w4)
      | (Ok x_out, w4) =>
          let text := json_dumps (JArr x_out) in
          let w5 := emit (WriteText output_file text) w4 in
          match json_loads text with
          | None => (Raise JSONDecodeError, w5)
          | Some x_dict =>
              match report o x_dict df_orgs with
              | Raise e => (Raise e, w5)
              | Ok csv => (Ok csv, emit (WriteCsv output_file_csv) w5)
              end
          end
      end
  end.




(** ** What the disk cache holds *)

(** A mapping with a key [url], as is every value that [_f] returns or
    stores. *)
Definition has_url (v : json) : Prop :=
  exists d, v = JObj d /\ is_Some (dict_get (lit "url") d).

(** A cached value that holds no [exception] field. *)
Definition no_exception_field (c : json) : Prop :=
  forall d, c = JObj d -> dict_get (lit "exception") d = None.

(** ** The order of the report *)


(** [desc leb key x y]: [x] may stand before [y] in decreasing order of
    keys. *)
Definition desc {K A : Type} (leb : K -> K -> bool) (key : A -> K) (x y : A)
  : Prop :=
  leb (key y) (key x) = true.

(** A cell of kind [a] may stand above a cell of kind [b]: any cell above
    a missing one, a number above a number that is not greater, a string
    above a string that is not greater.  Among lists the order is the one
    that Python makes of their items, which is left open here.  No other
    two kinds stand in one sorted column. *)
Definition kind_precedes (a b : cell_kind) : Prop :=
  match a, b with
  | _, Missing => True
  | Number x, Number y => key_leb y x = true
  | Text x, Text y => str_leb y x = true
  | Listed, Listed => True
  | _, _ => False
  end.


(** ** Texts and values that survive [json.dump] and [json.loads] *)

Definition is_surrogate (c : N) : bool := (55296 <=? c) && (c <=? 57343).

(** A text of Unicode scalar values: code points up to U+10FFFF, none of
    them a surrogate.  Decoded text (a file, the body of an HTTP answer) is
    of this kind. *)
Definition text_ok (s : str) : bool :=
  forallb (fun c => (c <=? 1114111) && negb (is_surrogate c)) s.

(** A [str] in which no high surrogate stands before a low surrogate (the
    escapes of two such characters would read back as one character). *)
Fixpoint str_ok (s : str) : bool :=
  match s with
  | [] => true
  | c :: s' =>
      (c <=? 1114111)
      && negb (is_high_surrogate c
               && match s' with
                  | c' :: _ => is_low_surrogate c'
                  | [] => false
                  end)
      && str_ok s'
  end.

(** A JSON value all of whose strings and keys are [str_ok], all of whose
    floats are in their kept form and none of whose dicts has a key twice. *)
Fixpoint json_ok (v : json) : bool :=
  match v with
  | JFloat f => float_ok f
  | JStr s => str_ok s
  | JArr l => forallb json_ok l
  | JObj d =>
      forallb (fun kv => str_ok (fst kv) && json_ok (snd kv)) d
      && bool_decide (NoDup (List.map fst d))
  | _ => true
  end.

(** The fuel that [scan_once] needs to read [json_dumps v] back. *)
Fixpoint size (v : json) : nat :=
  match v with
  | JArr l => S (list_sum (List.map (fun x => S (size x)) l))
  | JObj d => S (list_sum (List.map (fun kv => S (size (snd kv))) d))
  | _ => 1
  end.

(** The texts that come from outside are decoded texts. *)
Definition oracle_ok (o : oracle) : Prop :=
  (forall n prompt,
     match run_sync o n prompt with
     | Output text => text_ok text = true
     | HTTPError _ msg => text_ok msg = true
     | OtherError msg => text_ok msg = true
     end)
  /\ (forall s, text_ok (decode_error o s) = true).

(** The invariant of the cache, with the values well formed. *)
Definition cache_ok (m : gmap str json) : Prop :=
  forall k v, m !! k = Some v -> has_url v /\ json_ok v = true.

(** What may follow a value in a document: nothing, a comma, or the end of
    the enclosing list or object. *)
Definition stops (rest : str) : Prop :=
  match rest with
  | [] => True
  | c :: _ => c = 44 \/ c = 93 \/ c = 125
  end.

(** The text of one [key: value] pair of an object. *)
Definition member_text (kv : str * json) : str :=
  encode_string (fst kv) ++ lit ": " ++ json_dumps (snd kv).

(** The first character of a string, if any, is no low surrogate. *)
Definition head_not_low (t : str) : Prop :=
  match t with
  | c :: _ => is_low_surrogate c = false
  | [] => True
  end.

(** A well-formed [key: value] pair. *)
Definition member_ok (kv : str * json) : Prop :=
  str_ok (fst kv) = true /\ json_ok (snd kv) = true.

(** [r] is what a scanner left unread of [s], having read something. *)
Definition unread (r s : str) : Prop :=
  r `suffix_of` s /\ (length r < length s)%nat.

(** The websites of the sheet are decoded texts. *)
Definition rows_ok (cols : list str) (rs : list (Z * list json)) : Prop :=
  forall i r url,
    In (i, r) rs ->
    getitem cols r (lit "organization_website") = Ok (JStr url) ->
    text_ok url = true.

(** The events of [_f]: none of them writes a file. *)
Definition enrichment_event (e : event) : Prop :=
  match e with
  | Enrich _ | Render _ _ | ModelCall _ | Warn _ => True
  | _ => False
  end.

(** [json_dumps x] reads back as [x], whatever follows it. *)
Definition reads_back (x : json) : Prop :=
  forall rest fuel, stops rest -> (size x <= fuel)%nat ->
    scan_once fuel (json_dumps x ++ rest) = Scanned x rest.

(** ** Sample runs *)

Definition example_url : str := lit "https://example.org".

(** A fenced answer of the model. *)
Definition fenced_answer : str :=
  quoted "```json{'Type': 'Non-profit', 'Location': {'Country': 'US'}, 'Confidence': 0.91}```".

Definition example_result : json :=
  JObj [(lit "Type", JStr (lit "Non-profit"));
        (lit "Location", JObj [(lit "Country", JStr (lit "US"))]);
        (lit "Confidence", JFloat (Fdec false 91 (-2)));
        (lit "url", JStr example_url)].

Definition empty_world : world := {| cache := ∅; trace := [] |}.

Definition prompt_for (template website : str) : str :=
  lit "Describe the organisation at " ++ website.

(** A model that always gives the fenced answer. *)
Definition steady_oracle : oracle :=
  {| render_from_template := prompt_for;
     run_sync := fun _ _ => Output fenced_answer;
     decode_error := fun _ => lit "Expecting value";
     argsort := fun _ => None |}.

(** A model that is forbidden at its first call and answers afterwards. *)
Definition flaky_oracle : oracle :=
  {| render_from_template := prompt_for;
     run_sync := fun n _ =>
       match n with
       | O => HTTPError 403 (lit "status_code: 403")
       | S _ => Output fenced_answer
       end;
     decode_error := fun _ => lit "Expecting value";
     argsort := fun _ => None |}.

Definition forbidden_result : json :=
  JObj [(lit "exception", JStr (lit "status_code: 403"));
        (lit "url", JStr example_url)].

(** The world after the first, failed, call of the flaky model. *)
Definition failed_world : world := snd (_f flaky_oracle example_url empty_world).




(** A cache in which an empty mapping is stored for the URL. *)
Definition hollow_world : world :=
  {| cache := {[ example_url := JObj [] ]}; trace := [] |}.

(** A sheet of four organisations: two with an [https] website, one with
    an [http] website and one without website. *)
Definition example_sheet : frame :=
  {| columns := [lit "organization_website"; lit "form_of_organization";
                 lit "location_country"];
     rows := number_rows
       [[JStr example_url; JStr (lit "Association"); JStr (lit "US")];
        [JStr (lit "http://plain.example"); JStr (lit "Company"); nan];
        [nan; nan; JStr (lit "FR")];
        [JStr (lit "https://other.example"); nan; JStr (lit "DE")]] |}.

(** A host with an API key, an empty cache and no sheet on disk yet. *)
Definition example_host : host :=
  {| environ := {[ lit "MISTRAL_API_KEY" := lit "secret" ]};
     dotenv := ∅;
     disk_cache := ∅;
     local_sheet := None;
     remote_sheet := example_sheet |}.

(** The same host without the API key. *)
Definition keyless_host : host :=
  {| environ := ∅;
     dotenv := {[ lit "MISTRAL_MODEL" := lit "mistral-small" ]};
     disk_cache := ∅;
     local_sheet := None;
     remote_sheet := example_sheet |}.

Definition other_url : str := lit "https://other.example".

Definition other_result : json :=
  JObj [(lit "Type", JStr (lit "Non-profit"));
        (lit "Location", JObj [(lit "Country", JStr (lit "US"))]);
        (lit "Confidence", JFloat (Fdec false 91 (-2)));
        (lit "url", JStr other_url)].

(** The results of the loop over [example_sheet] with the flaky model: the
    first website fails, the second one is answered. *)
Definition example_x_out : list json := [forbidden_result; other_result].

(** The report for these results: the answered row first, the failed row,
    which has no [Confidence], last; each with its index in front. *)
Definition example_csv : csv_file :=
  {| header := [[]; lit "url"; lit "Confidence"; lit "manual_Type";
                lit "Type"; lit "manual_Location"; lit "Location"];
     records :=
       [[JInt 1; JStr other_url; JFloat (Fdec false 91 (-2)); nan;
         JStr (lit "Non-profit"); JStr (lit "DE");
         JObj [(lit "Country", JStr (lit "US"))]];
        [JInt 0; JStr example_url; nan; JStr (lit "Association"); nan;
         JStr (lit "US"); nan]] |}.

(** ** Notions for further properties of the script *)

(** [p in s]: the text [p] occurs in the text [s]. *)
Fixpoint contains (s p : str) : bool :=
  startswith s p
  || match s with
     | [] => false
     | _ :: s' => contains s' p
     end.

(** The websites on which the loop calls [_f], in the order of the rows. *)
Fixpoint websites (cols : list str) (rs : list (Z * list json)) : list str :=
  match rs with
  | [] => []
  | (_, r) :: rs' =>
      match getitem cols r (lit "organization_website") with
      | Ok (JStr url) =>
          if startswith url (lit "https://") then url :: websites cols rs'
          else websites cols rs'
      | _ => websites cols rs'
      end
  end.

(** A mapping whose [url] is the string [u]. *)
Definition url_is (u : str) (v : json) : Prop :=
  exists d, v = JObj d /\ dict_get (lit "url") d = Some (JStr u).

(** Every entry of the cache is a mapping whose [url] is its key, which is
    how [_f] stores them. *)
Definition cache_keyed (m : gmap str json) : Prop :=
  forall k v, m !! k = Some v -> url_is k v.

(** The world after [n] calls of [_f] on the same URL, one after the other,
    whatever each of them returns or raises. *)
Fixpoint calls (o : oracle) (url : str) (n : nat) (w : world) : world :=
  match n with
  | O => w
  | S n' => calls o url n' (snd (_f o url w))
  end.

(** An event that writes one of the two output files. *)
Definition writes_output (e : event) : bool :=
  match e with
  | WriteText _ _ | WriteCsv _ => true
  | _ => false
  end.

(** A cached entry that [_f] returns as it is: a mapping that is not empty
    and has no [exception] other than [null]. *)
Definition good_entry (c : json) : Prop :=
  exists d, c = JObj d /\ d <> []
            /\ (dict_get (lit "exception") d = None
                \/ dict_get (lit "exception") d = Some JNull).

(** The cell of the record [d] in the column [c] of [pd.DataFrame(records)]:
    [nan] where the record has no such key. *)
Definition cell (d : dict) (c : str) : json := default nan (dict_get c d).

(** The cell of a row [r] of the sheet [df] in the column [name]. *)
Definition sheet_cell (df : frame) (r : list json) (name : str) : json :=
  match getitem (columns df) r name with
  | Ok x => x
  | Raise _ => nan
  end.

(** The rows of the sheet whose website is the [url] of the record [d]. *)
Definition joined_rows (df_orgs : frame) (d : dict) : list (list json) :=
  List.filter
    (fun r => key_eqb (cell d (lit "url"))
                (sheet_cell df_orgs r (lit "organization_website")))
    (List.map snd (rows df_orgs)).

(** A line of the report, without its index: the four fields of a record
    and the two manual fields. *)
Definition report_line (d : dict) (manual_type manual_location : json)
  : list json :=
  [cell d (lit "url"); cell d (lit "Confidence"); manual_type;
   cell d (lit "Type"); manual_location; cell d (lit "Location")].

(** The lines that the left join makes of the record [d]: one for each row
    of the sheet with its website, or one without manual fields when there
    is no such row. *)
Definition report_lines (df_orgs : frame) (d : dict) : list (list json) :=
  match joined_rows df_orgs d with
  | [] => [report_line d nan nan]
  | rs =>
      List.map (fun r =>
        report_line d (sheet_cell df_orgs r (lit "form_of_organization"))
          (sheet_cell df_orgs r (lit "location_country"))) rs
  end.

(** The number of rows of the sheet whose website is the string [u]. *)
Definition occurrences (df_orgs : frame) (u : str) : nat :=
  length (List.filter
            (fun r => key_eqb (JStr u)
                        (sheet_cell df_orgs r (lit "organization_website")))
            (List.map snd (rows df_orgs))).

(** The index field of a record of the CSV file. *)
Definition index_field (record : list json) : json := nth 0 record nan.

(** A printable ASCII character: from the space to the tilde. *)
Definition printable (c : N) : bool := (32 <=? c) && (c <=? 126).

(** ** Further sample runs *)

(** A model that answers with a JSON list. *)
Definition list_oracle : oracle :=
  {| render_from_template := prompt_for;
     run_sync := fun _ _ => Output (quoted "['Non-profit', 'US', 0.9]");
     decode_error := fun _ => lit "Expecting value";
     argsort := fun _ => None |}.

(** An answer with a comment in it, as the model has been seen to give. *)
Definition commented_answer : str :=
  quoted "{  'Location': {    'Country': 'GLOBAL',    'Continent': 'AF'  // Primary operational focus on Africa  },  'Type': 'Non-profit',  'Confidence': 0.98}".

Definition commenting_oracle : oracle :=
  {| render_from_template := prompt_for;
     run_sync := fun _ _ => Output commented_answer;
     decode_error := fun _ => lit "Expecting ',' delimiter";
     argsort := fun _ => None |}.

(** A cache in which a bare string is stored for the URL. *)
Definition string_world : world :=
  {| cache := {[ example_url := JStr (lit "Non-profit") ]}; trace := [] |}.

(** A host on which the earlier failure of [example_url] is cached and the
    sheet is on disk. *)
Definition failed_host : host :=
  {| environ := {[ lit "MISTRAL_API_KEY" := lit "secret" ]};
     dotenv := ∅;
     disk_cache := {[ example_url := forbidden_result ]};
     local_sheet := Some example_sheet;
     remote_sheet := {| columns := []; rows := [] |} |}.

(** A host on which both websites of the sheet are cached with their
    results. *)
Definition warm_host : host :=
  {| environ := {[ lit "MISTRAL_API_KEY" := lit "secret" ]};
     dotenv := ∅;
     disk_cache := {[ example_url := example_result; other_url := other_result ]};
     local_sheet := Some example_sheet;
     remote_sheet := {| columns := []; rows := [] |} |}.




Definition example_settings : Settings :=
  {| MISTRAL_API_KEY := lit "secret";
     MISTRAL_MODEL := lit "mistral-medium";
     DISK_CACHE_DIRECTORY := lit ".data";
     INPUT_FOLDER := lit ".data/inputs";
     OUTPUT_FOLDER := lit ".data/outputs" |}.

(** A fenced answer of the model, on several lines. *)
Definition fenced_lines : str :=
  lit "```json" ++ [10]
  ++ quoted "{'Type': 'Company'," ++ [10]
  ++ quoted " 'Confidence': 0.5}" ++ [10]
  ++ lit "```".

(** A host whose output folder has [.json] in its name. *)
Definition json_folder_host : host :=
  {| environ := {[ lit "MISTRAL_API_KEY" := lit "secret";
                   lit "OUTPUT_FOLDER" := lit "runs.json.d" ]};
     dotenv := ∅;
     disk_cache := ∅;
     local_sheet := Some example_sheet;
     remote_sheet := {| columns := []; rows := [] |} |}.

(** Two results that failed: neither has a [Confidence]. *)
Definition failed_results : list dict :=
  [[(lit "exception", JStr (lit "status_code: 403"));
    (lit "url", JStr example_url)];
   [(lit "exception", JStr (lit "Expecting value"));
    (lit "url", JStr other_url)]].




(** * Properties *)

(** [chars] replaces the character and string literals of the goal by their
    code points. *)
Ltac chars :=
  unfold QUOTE, BACKSLASH in *;
  repeat match goal with
    | |- context [ch ?a] =>
        let v := eval vm_compute in (ch a) in change (ch a) with v
    | |- context [lit ?a] =>
        let v := eval vm_compute in (lit a) in change (lit a) with v
    end.

(** ** Traces and the cache *)

Lemma model_calls_app tr tr' :
  model_calls (tr ++ tr') = (model_calls tr + model_calls tr')%nat.
Proof. unfold model_calls. by rewrite List.filter_app, length_app. Qed.

Lemma cache_emit e w : cache (emit e w) = cache w.
Proof. reflexivity. Qed.

Lemma trace_emit e w : trace (emit e w) = trace w ++ [e].
Proof. reflexivity. Qed.

Lemma cache_get_emit url e w : cache_get url (emit e w) = cache_get url w.
Proof. reflexivity. Qed.

Lemma cache_add_trace url v w : trace (cache_add url v w) = trace w.
Proof. unfold cache_add. by destruct (cache w !! url). Qed.

Lemma cache_add_present url v w c :
  cache w !! url = Some c -> cache_add url v w = w.
Proof. unfold cache_add. by intros ->. Qed.

Lemma cache_add_lookup url v w k c :
  cache w !! k = Some c -> cache (cache_add url v w) !! k = Some c.
Proof.
  intros Hk. unfold cache_add.
  destruct (cache w !! url) eqn:Hu; [done|]. cbn.
  rewrite lookup_insert_ne; [done|]. congruence.
Qed.

(** The model is called exactly once on the way through [ask_model], and
    the cache is left alone. *)
Lemma ask_model_cache o url w : cache (snd (ask_model o url w)) = cache w.
Proof.
  unfold ask_model.
  destruct (run_sync o _ _) as [text|code msg|msg]; cbn.
  - by destruct (json_loads (clean text)).
  - by case_bool_decide.
  - done.
Qed.

Lemma ask_model_trace o url w :
  exists evs,
    trace (snd (ask_model o url w))
    = trace w ++ Render TEMPLATE url
        :: ModelCall (render_from_template o TEMPLATE url) :: evs
    /\ model_calls evs = 0%nat
    /\ (forall u, ~ In (Enrich u) evs).
Proof.
  unfold ask_model.
  destruct (run_sync o _ _) as [text|code msg|msg]; cbn.
  - exists []. destruct (json_loads (clean text)); cbn;
      rewrite <- !app_assoc; auto.
  - case_bool_decide; cbn.
    + eexists [_]. rewrite <- !app_assoc. repeat split.
      intros u [|[]]; discriminate.
    + exists []. rewrite <- !app_assoc; auto.
  - exists []. rewrite <- !app_assoc; auto.
Qed.

Lemma store_trace url out w : trace (snd (store url out w)) = trace w.
Proof. destruct out; cbn; try done. apply cache_add_trace. Qed.

Lemma store_lookup url out w k c :
  cache w !! k = Some c -> cache (snd (store url out w)) !! k = Some c.
Proof. destruct out; cbn; try done. apply cache_add_lookup. Qed.

Lemma recompute_trace o url w :
  exists evs,
    trace (snd (recompute o url w))
    = trace w ++ Render TEMPLATE url
        :: ModelCall (render_from_template o TEMPLATE url) :: evs
    /\ model_calls evs = 0%nat
    /\ (forall u, ~ In (Enrich u) evs).
Proof.
  unfold recompute.
  destruct (ask_model_trace o url w) as (evs & Htr & Hn & Hne).
  destruct (ask_model o url w) as [out w'].
  exists evs. by rewrite store_trace.
Qed.

Lemma recompute_model_calls o url w :
  model_calls (trace (snd (recompute o url w))) = S (model_calls (trace w)).
Proof.
  destruct (recompute_trace o url w) as (evs & -> & Hn & _).
  rewrite model_calls_app. unfold model_calls in *. cbn. rewrite Hn. lia.
Qed.

Lemma recompute_lookup o url w k c :
  cache w !! k = Some c -> cache (snd (recompute o url w)) !! k = Some c.
Proof.
  intros Hk. unfold recompute.
  pose proof (ask_model_cache o url w) as Hc.
  destruct (ask_model o url w) as [out w'].
  apply store_lookup. cbn in Hc. by rewrite Hc.
Qed.

(** The three ways through [_f]. *)
Lemma f_cases o url w :
  let w0 := emit (Enrich url) w in
  (cache_hit (cache_get url w) = Ok true
   /\ _f o url w = (Ok (cache_get url w), w0))
  \/ (cache_hit (cache_get url w) = Ok false
      /\ _f o url w = recompute o url w0)
  \/ (exists e, cache_hit (cache_get url w) = Raise e
      /\ _f o url w = (Raise e, w0)).
Proof.
  unfold _f. rewrite cache_get_emit.
  destruct (cache_hit (cache_get url w)) as [[|]|e]; eauto.
Qed.

Lemma f_model_calls o url w :
  (model_calls (trace (snd (_f o url w))) <= S (model_calls (trace w)))%nat.
Proof.
  destruct (f_cases o url w) as [[_ ->]|[[_ ->]|(e & _ & ->)]]; cbn;
    rewrite ?recompute_model_calls, ?trace_emit, model_calls_app;
    unfold model_calls; cbn; lia.
Qed.

Lemma f_lookup o url w k c :
  cache w !! k = Some c -> cache (snd (_f o url w)) !! k = Some c.
Proof.
  intros Hk.
  destruct (f_cases o url w) as [[_ ->]|[[_ ->]|(e & _ & ->)]]; cbn; try done.
  by apply recompute_lookup.
Qed.

Lemma has_url_truthy v : has_url v -> truthy v = true.
Proof. intros (d & -> & [x Hx]). by destruct d. Qed.

Lemma str_eqb_refl k : str_eqb k k = true.
Proof. unfold str_eqb. by apply bool_decide_eq_true_2. Qed.

Lemma str_eqb_ne k k' : k <> k' -> str_eqb k k' = false.
Proof. unfold str_eqb. by apply bool_decide_eq_false_2. Qed.

Lemma str_eqb_spec k k' : reflect (k = k') (str_eqb k k').
Proof. unfold str_eqb. apply bool_decide_reflect. Qed.

Lemma dict_set_get k v d : dict_get k (dict_set k v d) = Some v.
Proof.
  induction d as [|[k' v'] d IH]; cbn.
  - by rewrite str_eqb_refl.
  - destruct (str_eqb_spec k k') as [<-|Hne]; cbn.
    + by rewrite str_eqb_refl.
    + by rewrite str_eqb_ne.
Qed.

Lemma store_has_url url out w v w' :
  store url out w = (Ok v, w') -> has_url v.
Proof.
  destruct out; cbn; try discriminate. intros [= <- _].
  eexists. split; [done|]. by rewrite dict_set_get.
Qed.

Lemma f_result_truthy o url w r :
  fst (_f o url w) = Ok r -> truthy r = true /\ exists d, r = JObj d.
Proof.
  destruct (f_cases o url w) as [[Hhit ->]|[[_ ->]|(e & _ & ->)]];
    cbn [fst]; [| |done].
  - intros [= <-]. unfold cache_hit in Hhit.
    destruct (truthy (cache_get url w)); [|done].
    destruct (cache_get url w); try done. eauto.
  - unfold recompute. destruct (ask_model o url _) as [out w1].
    destruct (store url out w1) as [r' w2] eqn:Hstore. cbn [fst].
    intros ->. destruct (store_has_url _ _ _ _ _ Hstore) as (d & -> & Hu).
    split; [|eauto]. apply has_url_truthy. by exists d.
Qed.

(** C1, as stated, fails: a first call may succeed and leave an entry
    without [exception] field in the cache, and the second call still call
    the model.  Here the cache holds an empty mapping for the URL before
    the first call: the first call takes it for a miss and returns the
    answer of the model, [cache.add] leaves the entry as it is, and the
    second call takes it for a miss again. *)
Lemma C1_counterexample :
  let w1 := snd (_f steady_oracle example_url hollow_world) in
  fst (_f steady_oracle example_url hollow_world) = Ok example_result
  /\ no_exception_field example_result
  /\ cache w1 !! example_url = Some (JObj [])
  /\ no_exception_field (JObj [])
  /\ fst (_f steady_oracle example_url w1) = Ok example_result
  /\ model_calls (trace (snd (_f steady_oracle example_url w1)))
     = S (model_calls (trace w1))
  /\ model_calls (trace (snd (_f steady_oracle example_url w1)))
     = (model_calls (trace hollow_world) + 2)%nat.
Proof.
  cbv zeta. split_and!; try (vm_compute; reflexivity);
    intros d [= <-]; vm_compute; reflexivity.
Qed.

(** The entry that a successful call leaves in the cache, when the entry
    that was there before, if any, was not falsy and the entry that is
    there afterwards has no [exception] field: the result of the call. *)
Lemma f_caches_result o url w r :
  (forall c, cache w !! url = Some c -> truthy c = true) ->
  fst (_f o url w) = Ok r ->
  (forall c, cache (snd (_f o url w)) !! url = Some c ->
             no_exception_field c) ->
  cache (snd (_f o url w)) !! url = Some r.
Proof.
  intros Hold Hr Hnew.
  destruct (f_cases o url w) as [[Hhit Hf]|[[Hhit Hf]|(e & _ & Hf)]];
    rewrite Hf in *; cbn [fst snd] in *; [| |done].
  - injection Hr as <-. unfold cache_get in *.
    destruct (cache w !! url) as [c|] eqn:Hc; [done|].
    by cbn in Hhit.
  - destruct (cache w !! url) as [c|] eqn:Hc.
    + (* a truthy entry that is no hit holds an [exception]: it stays *)
      exfalso. specialize (Hold c eq_refl).
      assert (Hstay : cache (snd (recompute o url (emit (Enrich url) w)))
                      !! url = Some c) by (by apply recompute_lookup).
      specialize (Hnew c Hstay).
      unfold cache_get in Hhit. rewrite Hc in Hhit. cbn in Hhit.
      unfold cache_hit in Hhit. rewrite Hold in Hhit.
      destruct c as [| | | | | |d]; try done.
      rewrite (Hnew d eq_refl) in Hhit. done.
    + unfold recompute in *.
      pose proof (ask_model_cache o url (emit (Enrich url) w)) as Hcache.
      destruct (ask_model o url (emit (Enrich url) w)) as [out w'].
      cbn [snd] in Hcache. destruct out; cbn in Hr |- *; try done.
      injection Hr as <-. unfold cache_add.
      rewrite Hcache. cbn [cache emit]. rewrite Hc. cbn.
      apply lookup_insert_eq.
Qed.

(** C1, amended.  Idempotence of enrichment.  When the cache holds no
    falsy entry for the URL, a first call of [_f] on the URL succeeds, and
    the entry then cached for the URL has no [exception] field, that entry
    is the result of the first call; a second call on the same URL, the
    cache not being cleared, returns it and calls the model not at all;
    over the two calls the model is called at most once. *)
Theorem C1_second_call_is_cached o url w r :
  (forall c, cache w !! url = Some c -> truthy c = true) ->
  fst (_f o url w) = Ok r ->
  (forall c, cache (snd (_f o url w)) !! url = Some c ->
             no_exception_field c) ->
  let w1 := snd (_f o url w) in
  cache w1 !! url = Some r
  /\ _f o url w1 = (Ok r, emit (Enrich url) w1)
  /\ model_calls (trace (snd (_f o url w1))) = model_calls (trace w1)
  /\ (model_calls (trace (snd (_f o url w1))) <= S (model_calls (trace w)))%nat.
Proof.
  intros Hold Hr Hnew w1.
  pose proof (f_caches_result o url w r Hold Hr Hnew) as Hc.
  fold w1 in Hc, Hnew. split; [done|].
  destruct (f_result_truthy _ _ _ _ Hr) as (Ht & d & ->).
  assert (Hget : cache_get url w1 = JObj d)
    by (unfold cache_get; by rewrite Hc).
  assert (Hf : _f o url w1 = (Ok (JObj d), emit (Enrich url) w1)).
  { unfold _f. rewrite cache_get_emit, Hget. unfold cache_hit.
    by rewrite Ht, (Hnew (JObj d) Hc d eq_refl). }
  split; [done|]. rewrite Hf. cbn. rewrite model_calls_app.
  change (model_calls [Enrich url]) with 0%nat.
  split; [lia|]. pose proof (f_model_calls o url w). subst w1. lia.
Qed.

Lemma C1_witness :
  cache (snd (_f steady_oracle example_url empty_world)) !! example_url
  = Some example_result
  /\ _f steady_oracle example_url
       (snd (_f steady_oracle example_url empty_world))
     = (Ok example_result,
        emit (Enrich example_url)
          (snd (_f steady_oracle example_url empty_world)))
  /\ model_calls
       (trace (snd (_f steady_oracle example_url
                      (snd (_f steady_oracle example_url empty_world)))))
     = model_calls (trace (snd (_f steady_oracle example_url empty_world)))
  /\ (model_calls
        (trace (snd (_f steady_oracle example_url
                       (snd (_f steady_oracle example_url empty_world)))))
      <= S (model_calls (trace empty_world)))%nat.
Proof.
  apply (C1_second_call_is_cached steady_oracle example_url empty_world
           example_result).
  - intros c Hc. vm_compute in Hc. discriminate.
  - vm_compute. reflexivity.
  - intros c Hc. vm_compute in Hc. injection Hc as <-.
    intros d [= <-]. vm_compute. reflexivity.
Defined.




(** C3.  Insert-if-absent: for every URL that has a cache entry when [_f]
    is called, the entry is the same after the call, also when [_f]
    computed a new result (as it does when the entry recorded an
    exception). *)
Theorem C3_entry_not_overwritten o url w c :
  cache w !! url = Some c ->
  cache (snd (_f o url w)) !! url = Some c.
Proof. apply f_lookup. Qed.

Lemma C3_witness :
  fst (_f flaky_oracle example_url failed_world) = Ok example_result
  /\ cache (snd (_f flaky_oracle example_url failed_world)) !! example_url
     = Some forbidden_result.
Proof.
  split; [vm_compute; reflexivity|].
  apply (C3_entry_not_overwritten flaky_oracle example_url failed_world
           forbidden_result).
  vm_compute. reflexivity.
Defined.

(** C4.  Clean-up and parsing: when the model answers the prompt for
    ["https://example.org"] with the fenced text
    [```json{"Type": "Non-profit", "Location": {"Country": "US"}, "Confidence": 0.91}```]
    then [_f] returns the mapping with [Type], [Location] and [Confidence]
    (the float 0.91, that is 91 * 10^-2) as answered and the key [url]
    added last. *)
Theorem C4_fenced_answer o w :
  cache_hit (cache_get example_url w) = Ok false ->
  run_sync o (model_calls (trace w))
    (render_from_template o TEMPLATE example_url) = Output fenced_answer ->
  clean fenced_answer
  = quoted "{'Type': 'Non-profit', 'Location': {'Country': 'US'}, 'Confidence': 0.91}"
  /\ fst (_f o example_url w) = Ok example_result.
Proof.
  intros Hmiss Hrun. split; [vm_compute; reflexivity|].
  unfold _f. rewrite cache_get_emit, Hmiss.
  unfold recompute, ask_model.
  rewrite trace_emit, model_calls_app.
  change (model_calls [Enrich example_url]) with 0%nat.
  rewrite Nat.add_0_r, Hrun.
  replace (json_loads (clean fenced_answer))
    with (Some (JObj [(lit "Type", JStr (lit "Non-profit"));
                      (lit "Location", JObj [(lit "Country", JStr (lit "US"))]);
                      (lit "Confidence", JFloat (Fdec false 91 (-2)))]))
    by (vm_compute; reflexivity).
  unfold store. cbn [fst]. f_equal.
Qed.

Lemma C4_witness :
  clean fenced_answer
  = quoted "{'Type': 'Non-profit', 'Location': {'Country': 'US'}, 'Confidence': 0.91}"
  /\ fst (_f steady_oracle example_url empty_world) = Ok example_result.
Proof.
  apply (C4_fenced_answer steady_oracle empty_world); vm_compute; reflexivity.
Defined.



(** C10.  A falsy cache entry: for every URL whose cache entry has a false
    truth value (an empty mapping, for one), [_f] goes the way of a miss:
    it renders the prompt and calls the model, once, and what it returns
    is not the stored entry but what [store] makes of the new answer (for
    an answer that reads as a JSON object, that object with the URL). *)
Theorem C10_falsy_entry_is_a_miss o url w c :
  cache w !! url = Some c ->
  truthy c = false ->
  _f o url w = recompute o url (emit (Enrich url) w)
  /\ fst (_f o url w) <> Ok c
  /\ (exists evs,
        trace (snd (_f o url w))
        = trace w ++ Enrich url :: Render TEMPLATE url
            :: ModelCall (render_from_template o TEMPLATE url) :: evs
        /\ model_calls evs = 0%nat)
  /\ model_calls (trace (snd (_f o url w))) = S (model_calls (trace w))
  /\ (forall text d,
        run_sync o (model_calls (trace w))
          (render_from_template o TEMPLATE url) = Output text ->
        json_loads (clean text) = Some (JObj d) ->
        fst (_f o url w) = Ok (JObj (dict_set (lit "url") (JStr url) d))).
Proof.
  intros Hc Hfalse.
  assert (Hf : _f o url w = recompute o url (emit (Enrich url) w)).
  { unfold _f. rewrite cache_get_emit. unfold cache_get. rewrite Hc. cbn.
    unfold cache_hit. by rewrite Hfalse. }
  split; [done|]. split.
  { intros Hr. apply f_result_truthy in Hr as [Ht _]. congruence. }
  rewrite Hf. split; [|split].
  - destruct (recompute_trace o url (emit (Enrich url) w)) as (evs & -> & Hn & _).
    exists evs. split; [|done]. rewrite trace_emit. by rewrite <- app_assoc.
  - rewrite recompute_model_calls, trace_emit, model_calls_app.
    change (model_calls [Enrich url]) with 0%nat. lia.
  - intros text d Hrun Hload. unfold recompute, ask_model.
    rewrite trace_emit, model_calls_app.
    change (model_calls [Enrich url]) with 0%nat.
    by rewrite Nat.add_0_r, Hrun, Hload.
Qed.

Lemma C10_witness :
  _f steady_oracle example_url hollow_world
  = recompute steady_oracle example_url (emit (Enrich example_url) hollow_world)
  /\ fst (_f steady_oracle example_url hollow_world) <> Ok (JObj [])
  /\ (exists evs,
        trace (snd (_f steady_oracle example_url hollow_world))
        = trace hollow_world ++ Enrich example_url
            :: Render TEMPLATE example_url
            :: ModelCall (render_from_template steady_oracle TEMPLATE
                            example_url)
            :: evs
        /\ model_calls evs = 0%nat)
  /\ model_calls (trace (snd (_f steady_oracle example_url hollow_world)))
     = S (model_calls (trace hollow_world))
  /\ (forall text d,
        run_sync steady_oracle (model_calls (trace hollow_world))
          (render_from_template steady_oracle TEMPLATE example_url)
        = Output text ->
        json_loads (clean text) = Some (JObj d) ->
        fst (_f steady_oracle example_url hollow_world)
        = Ok (JObj (dict_set (lit "url") (JStr example_url) d))).
Proof.
  apply (C10_falsy_entry_is_a_miss steady_oracle example_url hollow_world
           (JObj [])).
  - vm_compute. reflexivity.
  - reflexivity.
Defined.

(** ** The loop and the script *)

Lemma f_enriches o url w u :
  In (Enrich u) (trace (snd (_f o url w))) ->
  In (Enrich u) (trace w) \/ u = url.
Proof.
  destruct (f_cases o url w) as [[_ ->]|[[_ ->]|(e & _ & ->)]]; cbn [snd].
  - rewrite trace_emit, in_app_iff. intros [?|[ [= ->] |[]]]; auto.
  - destruct (recompute_trace o url (emit (Enrich url) w))
      as (evs & -> & _ & Hne).
    rewrite trace_emit, !in_app_iff. cbn.
    intros [[?|[ [= ->] |[]]]|[?|[?|?]]]; auto; try discriminate.
    by destruct (Hne u).
  - rewrite trace_emit, in_app_iff. intros [?|[ [= ->] |[]]]; auto.
Qed.

Lemma iterate_enriches o cols rs : forall w u,
  In (Enrich u) (trace (snd (iterate o cols rs w))) ->
  In (Enrich u) (trace w)
  \/ (startswith u (lit "https://") = true
      /\ exists i r, In (i, r) rs
           /\ getitem cols r (lit "organization_website") = Ok (JStr u)).
Proof.
  induction rs as [|[i r] rs IH]; intros w u; cbn [iterate]; [by left|].
  assert (Hrest : forall w',
    In (Enrich u) (trace (snd (iterate o cols rs w'))) ->
    In (Enrich u) (trace w')
    \/ (startswith u (lit "https://") = true
        /\ exists i' r', In (i', r') ((i, r) :: rs)
             /\ getitem cols r' (lit "organization_website") = Ok (JStr u))).
  { intros w' Hin. destruct (IH w' u Hin) as [?|(? & i' & r' & ? & ?)]; [by left|].
    right. split; [done|]. exists i', r'. split; [by right|done]. }
  destruct (getitem cols r (lit "organization_website")) as [x|e] eqn:Hx;
    [|by left].
  destruct x; try apply Hrest.
  destruct (startswith s (lit "https://")) eqn:Hs; [|apply Hrest].
  destruct (_f o s w) as [[out|e] w1] eqn:Hf.
  - intros Hin.
    assert (Hin' : In (Enrich u) (trace (snd (iterate o cols rs w1)))).
    { by destruct (iterate o cols rs w1) as [[?|?] ?]. }
    destruct (Hrest w1 Hin') as [Hw1|?]; [|by right].
    replace w1 with (snd (_f o s w)) in Hw1 by (by rewrite Hf).
    destruct (f_enriches _ _ _ _ Hw1) as [?| ->]; [by left|].
    right. split; [done|]. exists i, r. split; [by left|done].
  - cbn [snd]. intros Hw1.
    replace w1 with (snd (_f o s w)) in Hw1 by (by rewrite Hf).
    destruct (f_enriches _ _ _ _ Hw1) as [?| ->]; [by left|].
    right. split; [done|]. exists i, r. split; [by left|done].
Qed.

(** C7.  The URL filter: a row whose [organization_website] is not a
    string, or is a string that does not start with ["https://"], is passed
    over (the loop goes on as if the row were not there, so that it adds
    nothing to [x_out]); and [_f] is entered, during the loop, only on
    strings that start with ["https://"] and are the website of a row. *)
Theorem C7_url_filter o cols :
  (forall i r rs w x,
     getitem cols r (lit "organization_website") = Ok x ->
     is_https x = false ->
     iterate o cols ((i, r) :: rs) w = iterate o cols rs w)
  /\ (forall rs w u,
        In (Enrich u) (trace (snd (iterate o cols rs w))) ->
        ~ In (Enrich u) (trace w) ->
        startswith u (lit "https://") = true
        /\ exists i r, In (i, r) rs
             /\ getitem cols r (lit "organization_website") = Ok (JStr u)).
Proof.
  split.
  - intros i r rs w x Hx Hno. cbn [iterate]. rewrite Hx.
    destruct x; try done. cbn in Hno. by rewrite Hno.
  - intros rs w u Hin Hnot.
    by destruct (iterate_enriches o cols rs w u Hin).
Qed.

Lemma C7_witness :
  iterate steady_oracle (columns example_sheet)
    ((1%Z, [JStr (lit "http://plain.example"); JStr (lit "Company"); nan])
       :: []) empty_world
  = iterate steady_oracle (columns example_sheet) [] empty_world.
Proof.
  apply (proj1 (C7_url_filter steady_oracle (columns example_sheet))
           1%Z [JStr (lit "http://plain.example"); JStr (lit "Company"); nan]
           [] empty_world (JStr (lit "http://plain.example"))).
  - vm_compute. reflexivity.
  - vm_compute. reflexivity.
Defined.

(** C9.  Fail fast: when neither the environment nor the [.env] file has
    [MISTRAL_API_KEY], loading the settings raises, and the script stops
    there: nothing was created, downloaded, read or enriched, and no row
    was visited (the trace is empty and the cache is as it was). *)
Theorem C9_fail_fast o h :
  environ h !! lit "MISTRAL_API_KEY" = None ->
  dotenv h !! lit "MISTRAL_API_KEY" = None ->
  load_settings (load_dotenv (dotenv h) (environ h)) = Raise ValidationError
  /\ main o h = (Raise ValidationError, {| cache := disk_cache h; trace := [] |}).
Proof.
  intros He Hd.
  assert (Hs : load_settings (load_dotenv (dotenv h) (environ h))
               = Raise ValidationError).
  { unfold load_settings, load_dotenv.
    by rewrite (proj2 (lookup_union_None _ _ _)). }
  split; [done|]. unfold main. by rewrite Hs.
Qed.

Lemma C9_witness :
  main steady_oracle keyless_host
  = (Raise ValidationError, {| cache := ∅; trace := [] |}).
Proof.
  apply (C9_fail_fast steady_oracle keyless_host); vm_compute; reflexivity.
Defined.

(** ** The report *)

Lemma key_leb_total a b : key_leb a b = false -> key_leb b a = true.
Proof.
  destruct a as [|x|], b as [|y|]; cbn; try done.
  intros Hxy. apply Qle_bool_iff, Qlt_le_weak, Qnot_le_lt.
  intros Hle. apply Qle_bool_iff in Hle. congruence.
Qed.

Lemma key_leb_trans a b c :
  key_leb a b = true -> key_leb b c = true -> key_leb a c = true.
Proof.
  destruct a as [|x|], b as [|y|], c as [|z|]; cbn; try done.
  rewrite !Qle_bool_iff. apply Qle_trans.
Qed.

Lemma str_leb_total a b : str_leb a b = false -> str_leb b a = true.
Proof.
  revert b. induction a as [|x a IH]; intros [|y b]; cbn; try done.
  destruct (N.ltb_spec x y); [done|]. destruct (N.ltb_spec y x); [done|].
  apply IH.
Qed.

Lemma str_leb_trans a b c :
  str_leb a b = true -> str_leb b c = true -> str_leb a c = true.
Proof.
  revert b c. induction a as [|x a IH]; intros [|y b] [|z c]; cbn; try done.
  destruct (N.ltb_spec x y), (N.ltb_spec y x), (N.ltb_spec y z),
    (N.ltb_spec z y), (N.ltb_spec x z), (N.ltb_spec z x);
    try done; try lia.
  apply IH.
Qed.

(** An arrangement of [n] positions is a permutation of them. *)
Lemma is_arrangement_perm p n :
  is_arrangement p n = true -> p ≡ₚ seq 0 n.
Proof.
  unfold is_arrangement.
  intros [[Hlen%Nat.eqb_eq Hlt]%andb_true_iff Hnd%bool_decide_eq_true]
    %andb_true_iff.
  apply submseteq_length_Permutation; [|by rewrite length_seq, Hlen].
  apply NoDup_submseteq; [done|]. intros i Hi. apply elem_of_seq.
  rewrite forallb_forall in Hlt. apply list_elem_of_In, Hlt in Hi.
  apply Nat.ltb_lt in Hi. lia.
Qed.

Lemma take_rows_seq {A : Type} (k l : list A) :
  take_rows (seq (length k) (length l)) (k ++ l) = l.
Proof.
  revert k. induction l as [|x l IH]; intros k; [done|].
  cbn [length seq]. unfold take_rows in *. cbn [omap list_omap].
  rewrite list_lookup_middle by done. f_equal.
  specialize (IH (k ++ [x])). rewrite length_app, <- app_assoc in IH.
  cbn in IH. by rewrite Nat.add_1_r in IH.
Qed.

Lemma take_rows_perm {A : Type} p (l : list A) :
  is_arrangement p (length l) = true -> take_rows p l ≡ₚ l.
Proof.
  intros Hp%is_arrangement_perm. unfold take_rows. rewrite Hp.
  apply (reflexive_eq (R := Permutation)), (take_rows_seq [] l).
Qed.

Section SortingFacts.
Context {K A : Type} (leb : K -> K -> bool) (key : A -> K).
Hypothesis leb_total : forall a b, leb a b = false -> leb b a = true.
Hypothesis leb_trans :
  forall a b c, leb a b = true -> leb b c = true -> leb a c = true.

Lemma insert_desc_perm x l : insert_desc leb key x l ≡ₚ x :: l.
Proof.
  induction l as [|y l IH]; cbn; [done|].
  destruct (leb (key y) (key x)); [done|].
  rewrite IH. apply Permutation_swap.
Qed.

Lemma sort_desc_perm l : sort_desc leb key l ≡ₚ l.
Proof.
  induction l as [|x l IH]; cbn; [done|].
  by rewrite insert_desc_perm, IH.
Qed.

Lemma insert_desc_sorted x l :
  StronglySorted (desc leb key) l ->
  StronglySorted (desc leb key) (insert_desc leb key x l).
Proof.
  induction l as [|y l IH]; cbn; intros Hs.
  - by repeat constructor.
  - apply StronglySorted_cons in Hs as [Hy Hs].
    destruct (leb (key y) (key x)) eqn:Hyx.
    + apply StronglySorted_cons. split; [|by apply StronglySorted_cons].
      constructor; [done|].
      eapply Forall_impl; [exact Hy|]. intros z Hz.
      unfold desc in *. by eapply leb_trans.
    + apply StronglySorted_cons. split; [|by apply IH].
      rewrite insert_desc_perm. constructor; [|done].
      by apply leb_total.
Qed.

Lemma sort_desc_sorted l : StronglySorted (desc leb key) (sort_desc leb key l).
Proof.
  induction l as [|x l IH]; cbn; [constructor|]. by apply insert_desc_sorted.
Qed.

Lemma descending_sorted l :
  descending leb key l = true -> StronglySorted (desc leb key) l.
Proof.
  induction l as [|x l IH]; [constructor|]. cbn [descending].
  intros [Hx Hl]%andb_true_iff. specialize (IH Hl).
  apply StronglySorted_cons. split; [|done].
  destruct l as [|y l]; [constructor|].
  apply StronglySorted_cons in IH as [Hy _].
  constructor; [done|].
  eapply Forall_impl; [exact Hy|]. intros z Hz.
  unfold desc in *. by eapply leb_trans.
Qed.

Lemma arrange_perm p l : arrange leb key p l ≡ₚ l.
Proof.
  unfold arrange. destruct p as [p|]; [|apply sort_desc_perm].
  destruct (is_arrangement p (length l)) eqn:Hp; [|apply sort_desc_perm].
  destruct (descending _ _ _); [|apply sort_desc_perm].
  by apply take_rows_perm.
Qed.

Lemma arrange_sorted p l : StronglySorted (desc leb key) (arrange leb key p l).
Proof.
  unfold arrange. destruct p as [p|]; [|apply sort_desc_sorted].
  destruct (is_arrangement p (length l)); [|apply sort_desc_sorted].
  destruct (descending _ _ _) eqn:Hd; [|apply sort_desc_sorted].
  by apply descending_sorted.
Qed.
End SortingFacts.

Lemma keyed_keys {K : Type} (key_of : json -> option K) cell rs krs :
  keyed key_of cell rs = Some krs ->
  List.map snd krs = rs
  /\ Forall (fun kr => key_of (cell (snd kr)) = Some (fst kr)) krs.
Proof.
  revert krs. induction rs as [|r rs IH]; cbn; intros krs.
  - intros [= <-]. by split.
  - destruct (key_of (cell r)) as [k|] eqn:Hk; [|done].
    destruct (keyed key_of cell rs) as [krs'|]; [|done].
    intros [= <-]. destruct (IH krs' eq_refl) as [Hsnd Hall].
    cbn. split; [by f_equal|]. by constructor.
Qed.



(** The rows whose cell is not missing, as [sort_values] orders them. *)
Lemma order_rows_order o cell present sorted :
  order_rows o cell present = Ok sorted ->
  sorted ≡ₚ present
  /\ StronglySorted
       (fun r1 r2 => kind_precedes (kind_of (cell r1)) (kind_of (cell r2)))
       sorted.
Proof.
  unfold order_rows.
  destruct present as [|r1 [|r2 rs]].
  { intros [= <-]. split; [done|constructor]. }
  { intros [= <-]. split; [done|]. by repeat constructor. }
  set (present := r1 :: r2 :: rs). set (p := argsort o _).
  destruct (keyed number_of cell present) as [krs|] eqn:Hnum.
  { intros [= <-]. apply keyed_keys in Hnum as [Hsnd Hkeys]. split.
    - rewrite <- Hsnd. apply Permutation_map, arrange_perm.
    - pose proof (arrange_sorted key_leb fst key_leb_total key_leb_trans
                    p krs) as Hs.
      assert (Hall : Forall (fun kr => number_of (cell (snd kr))
                                       = Some (fst kr))
                       (arrange key_leb fst p krs))
        by (by rewrite arrange_perm).
      induction Hs as [|kr l Hs IH Hkr]; cbn [List.map]; [constructor|].
      apply Forall_cons in Hall as [Hk Hall].
      apply StronglySorted_cons. split; [|by apply IH].
      apply Forall_forall.
      intros r [kr' [<- Hin%list_elem_of_In]]%list_elem_of_In%in_map_iff.
      rewrite Forall_forall in Hall, Hkr.
      specialize (Hall kr' Hin). specialize (Hkr kr' Hin).
      unfold number_of, desc in *.
      destruct (kind_of (cell (snd kr))); try done.
      destruct (kind_of (cell (snd kr'))); try done.
      by injection Hk as ->; injection Hall as ->. }
  destruct (keyed text_of cell present) as [krs|] eqn:Htext.
  { intros [= <-]. apply keyed_keys in Htext as [Hsnd Hkeys]. split.
    - rewrite <- Hsnd. apply Permutation_map, arrange_perm.
    - pose proof (arrange_sorted str_leb fst str_leb_total str_leb_trans
                    p krs) as Hs.
      assert (Hall : Forall (fun kr => text_of (cell (snd kr))
                                       = Some (fst kr))
                       (arrange str_leb fst p krs))
        by (by rewrite arrange_perm).
      induction Hs as [|kr l Hs IH Hkr]; cbn [List.map]; [constructor|].
      apply Forall_cons in Hall as [Hk Hall].
      apply StronglySorted_cons. split; [|by apply IH].
      apply Forall_forall.
      intros r [kr' [<- Hin%list_elem_of_In]]%list_elem_of_In%in_map_iff.
      rewrite Forall_forall in Hall, Hkr.
      specialize (Hall kr' Hin). specialize (Hkr kr' Hin).
      unfold text_of, desc in *.
      destruct (kind_of (cell (snd kr))); try done.
      destruct (kind_of (cell (snd kr'))); try done.
      by injection Hk as ->; injection Hall as ->. }
  destruct (forallb _ present) eqn:Hlists; [|done].
  destruct p as [p|]; [|done].
  destruct (is_arrangement p (length present)) eqn:Hp; [|done].
  intros [= <-]. pose proof (take_rows_perm _ _ Hp) as Hperm.
  split; [done|].
  assert (Hall : Forall (fun r => kind_of (cell r) = Listed)
                   (take_rows p present)).
  { rewrite Hperm. apply Forall_forall. intros r Hr%list_elem_of_In.
    rewrite forallb_forall in Hlists. specialize (Hlists r Hr).
    unfold is_list in Hlists. by destruct (kind_of (cell r)). }
  clear Hperm. induction Hall as [|r l Hr Hall IH]; [constructor|].
  apply StronglySorted_cons. split; [|done].
  eapply Forall_impl; [exact Hall|]. intros r' Hr'. by rewrite Hr, Hr'.
Qed.

Lemma filter_parts {A : Type} (f : A -> bool) (l : list A) :
  List.filter (fun x => negb (f x)) l ++ List.filter f l ≡ₚ l.
Proof.
  induction l as [|x l IH]; cbn; [done|].
  destruct (f x); cbn; [|by rewrite IH].
  by rewrite <- Permutation_middle, IH.
Qed.

(** The rows that [sort_values] returns have the columns and, in another
    order, the rows of the frame. *)
Lemma sort_values_desc_rows o name df sorted :
  sort_values_desc o name df = Ok sorted ->
  columns sorted = columns df /\ rows sorted ≡ₚ rows df.
Proof.
  unfold sort_values_desc.
  destruct (index_of name (columns df)) as [i|]; [|done].
  destruct (order_rows _ _ _) as [present|] eqn:Hord; [|done].
  intros [= <-]. cbn. split; [done|].
  apply order_rows_order in Hord as [Hperm _].
  rewrite Hperm. apply filter_parts.
Qed.








(** ** Reading back what [json.dump] wrote *)

(** *** Numbers *)

Lemma uint_of_digits_of_uint u : uint_of_digits (digits_of_uint u) = u.
Proof. induction u; cbn; by f_equal. Qed.

Lemma N_of_digits_of_N n : N_of_digits (digits_of_N n) = n.
Proof.
  unfold N_of_digits, digits_of_N. rewrite uint_of_digits_of_uint.
  apply DecimalN.Unsigned.of_to.
Qed.

Lemma digits_of_uint_digits u :
  Forall (fun c => is_digit c = true) (digits_of_uint u).
Proof. induction u; cbn; by constructor. Qed.

Lemma nzhead_not_zero u :
  match Decimal.nzhead u with Decimal.D0 _ => False | _ => True end.
Proof. induction u; cbn; done. Qed.

Lemma digits_of_N_shape n :
  digits_of_N n = [48]
  \/ exists c t, digits_of_N n = c :: t /\ c <> 48.
Proof.
  unfold digits_of_N.
  pose proof (DecimalN.Unsigned.to_of (N.to_uint n)) as Hn.
  rewrite DecimalN.Unsigned.of_to in Hn. rewrite Hn. unfold Decimal.unorm.
  pose proof (nzhead_not_zero (N.to_uint n)) as Hz.
  destruct (Decimal.nzhead (N.to_uint n)); cbn; try done;
    try (by left); right; eexists _, _; (split; [done|lia]).
Qed.

Lemma span_digits_app ds rest :
  Forall (fun c => is_digit c = true) ds ->
  match rest with [] => True | c :: _ => is_digit c = false end ->
  span_digits (ds ++ rest) = (ds, rest).
Proof.
  intros Hds Hrest. induction Hds as [|c ds Hc _ IH]; cbn.
  - destruct rest as [|c rest]; cbn in *; [done|]. by rewrite Hrest.
  - by rewrite Hc, IH.
Qed.

Lemma match_integer_digits n rest :
  match rest with [] => True | c :: _ => is_digit c = false end ->
  match_integer (digits_of_N n ++ rest) = Some (false, digits_of_N n, rest)
  /\ match_integer (45 :: digits_of_N n ++ rest)
     = Some (true, digits_of_N n, rest).
Proof.
  intros Hrest.
  pose proof (digits_of_uint_digits (N.to_uint n)) as Hds.
  fold (digits_of_N n) in Hds.
  destruct (digits_of_N_shape n) as [->|(c & t & Hct & Hc)]; [done|].
  rewrite Hct in *.
  - apply Forall_cons in Hds as [Hd Ht].
    assert (H45 : (c =? 45) = false).
    { apply N.eqb_neq. intros ->. done. }
    unfold match_integer, strip_sign, integer_digits. chars. cbn.
    rewrite H45, (proj2 (N.eqb_neq c 48) Hc), Hd, span_digits_app; done.
Qed.

Lemma digits_of_N_cons n :
  exists c t, digits_of_N n = c :: t
    /\ is_digit c = true /\ Forall (fun c => is_digit c = true) t.
Proof.
  pose proof (digits_of_uint_digits (N.to_uint n)) as Hds.
  fold (digits_of_N n) in Hds.
  destruct (digits_of_N_shape n) as [Hn|(c & t & Hn & _)];
    rewrite Hn in *; apply Forall_cons in Hds as [? ?]; eauto.
Qed.

Lemma stops_no_digit rest :
  stops rest -> match rest with [] => True | c :: _ => is_digit c = false end.
Proof. destruct rest as [|c rest]; [done|]. by intros [->|[->| ->]]. Qed.

Lemma match_frac_other c t : c <> 46 -> match_frac (c :: t) = (None, c :: t).
Proof.
  intros Hc. unfold match_frac. chars. destruct t; [done|].
  by rewrite (proj2 (N.eqb_neq c 46) Hc).
Qed.

Lemma match_frac_stops rest : stops rest -> match_frac rest = (None, rest).
Proof.
  destruct rest as [|c rest]; [done|].
  intros [->|[->| ->]]; by apply match_frac_other.
Qed.

Lemma match_exp_stops rest : stops rest -> match_exp rest = (None, rest).
Proof.
  destruct rest as [|c rest]; [done|]. by intros [->|[->| ->]].
Qed.

Lemma match_number_int z rest :
  stops rest -> match_number (repr_int z ++ rest) = Some (JInt z, rest).
Proof.
  intros Hrest. unfold match_number.
  assert (Hint : match_integer (repr_int z ++ rest)
                 = Some (bool_decide (z < 0)%Z,
                         digits_of_N (Z.to_N (Z.abs z)), rest)).
  { destruct z as [|p|p]; unfold repr_int; chars; cbn [app];
      by apply match_integer_digits, stops_no_digit. }
  rewrite Hint, match_frac_stops, match_exp_stops by done.
  rewrite N_of_digits_of_N. by destruct z.
Qed.

(** *** Floats *)

Ltac pick_digit :=
  first [ by (intros; reflexivity)
        | left; by (intros; reflexivity)
        | right; pick_digit ].

Lemma uint_digit_cases c :
  (forall u, uint_digit c u = Decimal.D0 u)
  \/ (forall u, uint_digit c u = Decimal.D1 u)
  \/ (forall u, uint_digit c u = Decimal.D2 u)
  \/ (forall u, uint_digit c u = Decimal.D3 u)
  \/ (forall u, uint_digit c u = Decimal.D4 u)
  \/ (forall u, uint_digit c u = Decimal.D5 u)
  \/ (forall u, uint_digit c u = Decimal.D6 u)
  \/ (forall u, uint_digit c u = Decimal.D7 u)
  \/ (forall u, uint_digit c u = Decimal.D8 u)
  \/ (forall u, uint_digit c u = Decimal.D9 u).
Proof.
  unfold uint_digit. destruct (c - 48) as [|p]; [pick_digit|].
  do 4 (try destruct p as [p|p|]); pick_digit.
Qed.

Lemma of_uint_acc_zero (s : str) : forall acc,
  Pos.of_uint_acc (uint_of_digits (s ++ [48])) acc
  = (10 * Pos.of_uint_acc (uint_of_digits s) acc)%positive.
Proof.
  induction s as [|c s IH]; intros acc; [reflexivity|].
  cbn [app uint_of_digits].
  destruct (uint_digit_cases c) as [H|[H|[H|[H|[H|[H|[H|[H|[H|H]]]]]]]]];
    rewrite !H; cbn [Pos.of_uint_acc]; apply IH.
Qed.

(** A digit 0 at the end multiplies by ten. *)
Lemma N_of_digits_zero (s : str) : N_of_digits (s ++ [48]) = 10 * N_of_digits s.
Proof.
  unfold N_of_digits, N.of_uint.
  induction s as [|c s IH]; [reflexivity|].
  cbn [app uint_of_digits].
  destruct (uint_digit_cases c) as [H|[H|[H|[H|[H|[H|[H|[H|[H|H]]]]]]]]];
    rewrite !H; cbn [Pos.of_uint]; try apply IH;
    by rewrite of_uint_acc_zero.
Qed.

Lemma N_of_digits_zeros (s : str) k : N_of_digits (s ++ zeros k) = N_of_digits s * 10 ^ N.of_nat k.
Proof.
  revert s. induction k as [|k IH]; intros s.
  - cbn. rewrite app_nil_r. lia.
  - change (zeros (S k)) with ([48] ++ zeros k).
    rewrite app_assoc, IH, N_of_digits_zero, Nat2N.inj_succ, N.pow_succ_r'. lia.
Qed.

(** Digits 0 at the head count for nothing. *)
Lemma N_of_zeros_digits k (s : str) : N_of_digits (zeros k ++ s) = N_of_digits s.
Proof. induction k as [|k IH]; [done|]. exact IH. Qed.

Lemma zeros_length k : length (zeros k) = k.
Proof. apply repeat_length. Qed.

Lemma zeros_digits k : Forall (fun c => is_digit c = true) (zeros k).
Proof. induction k; by constructor. Qed.

Lemma digits_of_N_digits m : Forall (fun c => is_digit c = true) (digits_of_N m).
Proof. apply digits_of_uint_digits. Qed.

(** The digits of a number other than zero begin with a digit other
    than 0. *)
Lemma digits_of_N_head m :
  m <> 0 ->
  exists c t, digits_of_N m = c :: t /\ c <> 48 /\ is_digit c = true
              /\ Forall (fun c => is_digit c = true) t.
Proof.
  intros Hm. pose proof (digits_of_N_digits m) as Hds.
  destruct (digits_of_N_shape m) as [Hz|(c & t & Hct & Hc)].
  - destruct Hm. by rewrite <- (N_of_digits_of_N m), Hz.
  - rewrite Hct in Hds. apply Forall_cons in Hds as [? ?].
    by exists c, t.
Qed.

Lemma strip_zeros_pow m k : forall fuel e,
  m mod 10 <> 0 -> (k < fuel)%nat ->
  strip_zeros fuel (m * 10 ^ N.of_nat k) e = (m, (e + Z.of_nat k)%Z).
Proof.
  induction k as [|k IH]; intros fuel e Hm Hfuel.
  - destruct fuel as [|fuel]; [lia|]. cbn [strip_zeros].
    rewrite N.pow_0_r, N.mul_1_r, (proj2 (N.eqb_neq _ _) Hm), Z.add_0_r. done.
  - destruct fuel as [|fuel]; [lia|]. cbn [strip_zeros].
    rewrite Nat2N.inj_succ, N.pow_succ_r'.
    replace (m * (10 * 10 ^ N.of_nat k)) with ((m * 10 ^ N.of_nat k) * 10) by lia.
    rewrite N.Div0.mod_mul, N.eqb_refl, N.div_mul by done.
    rewrite IH by (done || lia). f_equal. lia.
Qed.

Lemma size_pow m k : m <> 0 -> (k < N.to_nat (N.size (m * 10 ^ N.of_nat k)))%nat.
Proof.
  intros Hm.
  assert (Hle : 2 ^ N.of_nat k <= m * 10 ^ N.of_nat k).
  { transitivity (10 ^ N.of_nat k); [apply N.pow_le_mono_l; lia|].
    assert (0 < 10 ^ N.of_nat k) by (apply N.neq_0_lt_0, N.pow_nonzero; lia).
    nia. }
  pose proof (N.size_gt (m * 10 ^ N.of_nat k)) as Hgt.
  assert (Hlt : 2 ^ N.of_nat k < 2 ^ N.size (m * 10 ^ N.of_nat k)) by lia.
  apply N.pow_lt_mono_r_iff in Hlt; lia.
Qed.

Lemma canonical_pow m k e :
  m <> 0 -> m mod 10 <> 0 ->
  canonical (m * 10 ^ N.of_nat k) e = (m, (e + Z.of_nat k)%Z).
Proof.
  intros Hm Hmod. unfold canonical.
  assert (Hnz : m * 10 ^ N.of_nat k <> 0).
  { assert (10 ^ N.of_nat k <> 0) by (apply N.pow_nonzero; lia). lia. }
  rewrite (proj2 (N.eqb_neq _ _) Hnz).
  apply strip_zeros_pow; [done|]. by apply size_pow.
Qed.

Lemma float_ok_canonical neg m e :
  float_ok (Fdec neg m e) = true -> canonical m e = (m, e).
Proof.
  cbn [float_ok]. destruct (N.eqb_spec m 0) as [->|Hm].
  - intros ->%Z.eqb_eq. reflexivity.
  - intros Hmod%negb_true_iff%N.eqb_neq.
    pose proof (canonical_pow m 0 e Hm Hmod) as Hc.
    rewrite N.pow_0_r, N.mul_1_r, Z.add_0_r in Hc. done.
Qed.

Lemma strip_zeros_ok fuel : forall m e,
  m <> 0 -> m < 2 ^ N.of_nat fuel ->
  (strip_zeros fuel m e).1 <> 0 /\ (strip_zeros fuel m e).1 mod 10 <> 0.
Proof.
  induction fuel as [|fuel IH]; intros m e Hm Hfuel.
  - cbn in Hfuel. lia.
  - cbn [strip_zeros]. destruct (N.eqb_spec (m mod 10) 0) as [Hmod|Hmod];
      [|done].
    assert (Hdiv : m = 10 * (m / 10)) by (pose proof (N.div_mod' m 10); lia).
    rewrite Nat2N.inj_succ, N.pow_succ_r' in Hfuel.
    apply IH; generalize dependent (m / 10); intros q; lia.
Qed.

Lemma canonical_ok neg m e :
  float_ok (let '(m', e') := canonical m e in Fdec neg m' e') = true.
Proof.
  unfold canonical. destruct (N.eqb_spec m 0) as [->|Hm]; [done|].
  pose proof (strip_zeros_ok (N.to_nat (N.size m)) m e Hm) as Hok.
  rewrite N2Nat.id in Hok. specialize (Hok (N.size_gt m)).
  destruct (strip_zeros _ m e) as [m' e']. cbn [fst float_ok] in *.
  destruct Hok as [H0 Hmod].
  by rewrite (proj2 (N.eqb_neq _ _) H0), (proj2 (N.eqb_neq _ _) Hmod).
Qed.

Lemma make_float_ok neg m e : float_ok (make_float neg m e) = true.
Proof. apply canonical_ok. Qed.

Lemma match_integer_part (neg : bool) (ids rest : str) :
  integer_part ids -> no_digit_ahead rest ->
  match_integer ((if neg then [45] else []) ++ ids ++ rest)
  = Some (neg, ids, rest).
Proof.
  intros (c & t & -> & Hc & Ht & Hz) Hrest.
  assert (H45 : (c =? 45) = false).
  { apply N.eqb_neq. intros ->. done. }
  assert (Hint : integer_digits ((c :: t) ++ rest) = Some (c :: t, rest)).
  { unfold integer_digits. cbn [app].
    destruct (N.eqb_spec c 48) as [->|Hne].
    - destruct Hz as [?| ->]; [done|]. done.
    - by rewrite Hc, span_digits_app. }
  unfold match_integer, strip_sign.
  destruct neg; chars; cbn [app N.eqb Pos.eqb].
  - change (c :: t ++ rest) with ((c :: t) ++ rest). by rewrite Hint.
  - rewrite H45. change (c :: t ++ rest) with ((c :: t) ++ rest).
    by rewrite Hint.
Qed.

Lemma match_frac_digits c t (rest : str) :
  is_digit c = true -> Forall (fun c => is_digit c = true) t ->
  no_digit_ahead rest ->
  match_frac (46 :: (c :: t) ++ rest) = (Some (c :: t), rest).
Proof.
  intros Hc Ht Hrest. unfold match_frac. chars.
  cbn [app N.eqb Pos.eqb andb]. by rewrite Hc, span_digits_app.
Qed.

Lemma pad2_digits a :
  exists c t, pad2 (digits_of_N a) = c :: t /\ is_digit c = true
              /\ Forall (fun c => is_digit c = true) t
              /\ N_of_digits (c :: t) = a.
Proof.
  destruct (digits_of_N_cons a) as (c & t & Ha & Hc & Ht).
  pose proof (N_of_digits_of_N a) as Hv. rewrite Ha in *.
  destruct t as [|c' t]; cbn [pad2].
  - exists 48, [c]. repeat split; try done. by constructor.
  - by exists c, (c' :: t).
Qed.

Lemma match_exp_signed (sgn : bool) a (rest : str) :
  no_digit_ahead rest ->
  match_exp (101 :: (if sgn then 45 else 43) :: pad2 (digits_of_N a) ++ rest)
  = (Some (if sgn then (- Z.of_N a)%Z else Z.of_N a), rest).
Proof.
  intros Hrest. destruct (pad2_digits a) as (c & t & -> & Hc & Ht & Hv).
  unfold match_exp. chars. cbn [N.eqb Pos.eqb orb].
  destruct sgn; cbn [is_digit N.leb N.compare Pos.compare Pos.compare_cont
                     andb N.eqb Pos.eqb orb app];
    by rewrite Hc, span_digits_app, Hv.
Qed.

(** A literal with a fraction or an exponent, read by [match_number]. *)
Lemma match_number_parts (neg : bool) (ids fds : str)
    (exp : option (bool * N)) (rest : str) :
  integer_part ids ->
  Forall (fun c => is_digit c = true) fds ->
  fds <> [] \/ exp <> None ->
  stops rest ->
  match_number
    ((if neg then [45] else []) ++ ids
     ++ match fds with [] => [] | _ :: _ => 46 :: fds end
     ++ match exp with
        | Some (sgn, a) =>
            101 :: (if sgn then 45 else 43) :: pad2 (digits_of_N a)
        | None => []
        end
     ++ rest)
  = Some (JFloat (make_float neg (N_of_digits (ids ++ fds))
                    (match exp with
                     | Some (sgn, a) => if sgn then - Z.of_N a else Z.of_N a
                     | None => 0
                     end - Z.of_nat (length fds))), rest).
Proof.
  intros Hids Hfds Hsome Hrest. unfold match_number.
  assert (Hnd : no_digit_ahead rest) by (by apply stops_no_digit).
  destruct fds as [|c t].
  - destruct exp as [[sgn a]|]; [|by destruct Hsome].
    cbn [app]. rewrite match_integer_part by done.
    rewrite match_frac_other by done.
    rewrite match_exp_signed by done. reflexivity.
  - apply Forall_cons in Hfds as [Hc Ht].
    rewrite match_integer_part by done.
    destruct exp as [[sgn a]|].
    + change ((46 :: c :: t) ++ ?x) with (46 :: (c :: t) ++ x).
      rewrite match_frac_digits by done. cbn [app].
      rewrite match_exp_signed by done. reflexivity.
    + cbn [app].
      change (46 :: c :: t ++ rest) with (46 :: (c :: t) ++ rest).
      rewrite match_frac_digits by done.
      rewrite match_exp_stops by done. reflexivity.
Qed.

Lemma make_float_canonical neg m e :
  float_ok (Fdec neg m e) = true -> make_float neg m e = Fdec neg m e.
Proof. intros Hok. unfold make_float. by rewrite (float_ok_canonical neg). Qed.

Lemma integer_part_zero : integer_part [48].
Proof. exists 48, []. split_and!; [done|done|constructor|by right]. Qed.

(** A literal in fixed notation: digits, a point, digits. *)
Lemma match_number_fixed (neg : bool) (ids fds rest : str) :
  integer_part ids -> Forall (fun c => is_digit c = true) fds -> fds <> [] ->
  stops rest ->
  match_number ((if neg then [45] else []) ++ ids ++ 46 :: fds ++ rest)
  = Some (JFloat (make_float neg (N_of_digits (ids ++ fds))
                    (- Z.of_nat (length fds))), rest).
Proof.
  intros Hint Hfds Hne Hrest.
  pose proof (match_number_parts neg ids fds None rest Hint Hfds
                (or_introl Hne) Hrest) as Hparts.
  destruct fds as [|z zs]; [done|]. cbn [app] in *.
  rewrite Hparts. do 3 f_equal.
Qed.

(** A literal in exponent notation: one digit, maybe a point and digits,
    then the signed exponent. *)
Lemma match_number_exponent (neg : bool) (c : N) (t rest : str) (x : Z) :
  is_digit c = true -> c <> 48 -> Forall (fun c => is_digit c = true) t ->
  stops rest ->
  match_number ((if neg then [45] else [])
                ++ (c :: match t with [] => [] | _ :: _ => 46 :: t end
                    ++ 101 :: (if (0 <=? x)%Z then 43 else 45)
                       :: pad2 (digits_of_N (Z.abs_N x))) ++ rest)
  = Some (JFloat (make_float neg (N_of_digits (c :: t))
                    (x - Z.of_nat (length t))), rest).
Proof.
  intros Hc Hc0 Ht Hrest.
  assert (Hint : integer_part [c]).
  { exists c, []. split_and!; [done|done|constructor|by right]. }
  pose proof (match_number_parts neg [c] t
                (Some (negb (0 <=? x)%Z, Z.abs_N x)) rest Hint Ht) as Hparts.
  cbn [app] in *. rewrite <- app_assoc. cbn [app].
  replace (if (0 <=? x)%Z then 43 else 45)
    with (if negb (0 <=? x)%Z then 45 else 43) by by destruct (0 <=? x)%Z.
  rewrite Hparts; [|by right|done].
  do 4 f_equal. destruct (Z.leb_spec 0 x); cbn [negb]; lia.
Qed.

(** [repr] of a finite float reads back as that float. *)
Lemma match_number_repr neg m e rest :
  float_ok (Fdec neg m e) = true -> stops rest ->
  match_number (float_repr neg m e ++ rest) = Some (JFloat (Fdec neg m e), rest).
Proof.
  intros Hok Hrest. unfold float_repr. rewrite <- app_assoc.
  destruct (N.eqb_spec m 0) as [->|Hm].
  { cbn [float_ok N.eqb] in Hok. apply Z.eqb_eq in Hok as ->.
    chars. change ([48; 46; 48] ++ rest) with ([48] ++ 46 :: [48] ++ rest).
    rewrite match_number_fixed; try done.
    - apply integer_part_zero.
    - by repeat constructor. }
  pose proof Hok as Hmod. cbn [float_ok] in Hmod.
  rewrite (proj2 (N.eqb_neq _ _) Hm) in Hmod.
  apply negb_true_iff, N.eqb_neq in Hmod.
  destruct (digits_of_N_head m Hm) as (c & t & Hds & Hc0 & Hc & Ht).
  pose proof (N_of_digits_of_N m) as Hval.
  rewrite <- (make_float_canonical neg m e Hok).
  set (ds := digits_of_N m) in *.
  set (n := Z.of_nat (length ds)).
  set (decpt := (n + e)%Z).
  assert (Hn : (n = Z.of_nat (S (length t)))%Z) by (subst n; by rewrite Hds).
  assert (Hdigits : Forall (fun c => is_digit c = true) ds)
    by (rewrite Hds; by constructor).
  destruct ((-4 <? decpt)%Z && (decpt <=? 16)%Z) eqn:Hfixed.
  - destruct (Z.leb_spec decpt 0) as [Hle|Hgt].
    + (* 0.000ddd *)
      chars. rewrite <- !app_assoc.
      change ([48; 46] ++ zeros (Z.to_nat (- decpt)) ++ ds ++ rest)
        with ([48] ++ 46 :: zeros (Z.to_nat (- decpt)) ++ ds ++ rest).
      rewrite (app_assoc (zeros _)).
      rewrite match_number_fixed; try done.
      * f_equal. f_equal.
        change ([48] ++ zeros (Z.to_nat (- decpt)) ++ ds)
          with (zeros (S (Z.to_nat (- decpt))) ++ ds).
        rewrite N_of_zeros_digits, Hval, length_app.
        rewrite zeros_length. do 2 f_equal. subst decpt n. lia.
      * apply integer_part_zero.
      * apply Forall_app. split; [apply zeros_digits|done].
      * rewrite Hds. by destruct (zeros _).
    + destruct (Z.ltb_spec decpt n) as [Hlt|Hge].
      * (* dd.ddd *)
        rewrite <- !app_assoc. cbn [app].
        rewrite match_number_fixed; try done.
        -- rewrite take_drop, Hval, length_drop. do 3 f_equal.
           apply (f_equal (make_float neg m)). subst decpt n. lia.
        -- rewrite Hds. destruct (Z.to_nat decpt) as [|k] eqn:Hk; [lia|].
           cbn [take]. exists c, (take k t).
           split_and!; [done|done|by apply Forall_take|by left].
        -- by apply Forall_drop.
        -- intros Hnil. apply (f_equal length) in Hnil.
           rewrite length_drop in Hnil. cbn in Hnil. subst n. lia.
      * (* ddd000.0 *)
        chars. rewrite <- !app_assoc.
        change ([46; 48] ++ rest) with (46 :: [48] ++ rest).
        rewrite (app_assoc ds).
        rewrite match_number_fixed; try done.
        -- change [48] with (zeros 1). rewrite <- app_assoc.
           unfold zeros at 1 2. rewrite <- repeat_app.
           fold (zeros (Z.to_nat (decpt - n) + 1)).
           rewrite N_of_digits_zeros, Hval. unfold make_float.
           rewrite !canonical_pow by done. do 2 f_equal.
           rewrite (float_ok_canonical neg) by done. rewrite zeros_length.
           f_equal. apply (f_equal (Fdec neg m)). subst decpt. lia.
        -- rewrite Hds. exists c, (t ++ zeros (Z.to_nat (decpt - n))).
           split_and!; [done|done| |by left].
           apply Forall_app. split; [done|apply zeros_digits].
        -- by repeat constructor.
  - (* d.ddde+XX *)
    rewrite Hds. chars.
    rewrite match_number_exponent; try done.
    rewrite <- Hds, Hval. do 3 f_equal.
    apply (f_equal (make_float neg m)). subst decpt. lia.
Qed.

Lemma float_repr_head neg m e :
  exists c t, float_repr neg m e = c :: t /\ (c = 45 \/ is_digit c = true).
Proof.
  unfold float_repr. destruct neg; chars; cbn [app]; [eauto|].
  destruct (N.eqb_spec m 0) as [->|Hm]; [eauto|].
  destruct (digits_of_N_head m Hm) as (c & t & -> & _ & Hc & _).
  cbn [length]. destruct (_ && _); [|eauto].
  set (decpt := (Z.of_nat (S (length t)) + e)%Z).
  destruct (Z.leb_spec decpt 0); [eauto|].
  destruct (Z.ltb_spec decpt (Z.of_nat (S (length t)))); [|eauto].
  destruct (Z.to_nat decpt) eqn:Hk; [lia|]. cbn [take app]. eauto.
Qed.


(** *** Strings *)

Lemma hex_val_digit d : d < 16 -> hex_val (hex_digit d) = Some d.
Proof.
  intros Hd. destruct d as [|p]; [done|].
  do 4 (destruct p as [p|p|]; try done); lia.
Qed.

Lemma nibbles n :
  n < 65536 ->
  (((N.shiftr n 12 mod 16) * 16 + N.shiftr n 8 mod 16) * 16
   + N.shiftr n 4 mod 16) * 16 + n mod 16 = n.
Proof.
  intros Hn. rewrite !N.shiftr_div_pow2.
  change (2 ^ 12) with (16 * (16 * 16)). change (2 ^ 8) with (16 * 16).
  change (2 ^ 4) with 16.
  rewrite <- !N.Div0.div_div.
  pose proof (N.div_mod' n 16). pose proof (N.div_mod' (n / 16) 16).
  pose proof (N.div_mod' (n / 16 / 16) 16).
  pose proof (N.div_mod' (n / 16 / 16 / 16) 16).
  pose proof (N.mod_lt n 16). pose proof (N.mod_lt (n / 16) 16).
  pose proof (N.mod_lt (n / 16 / 16) 16).
  pose proof (N.mod_lt (n / 16 / 16 / 16) 16).
  generalize dependent (n mod 16). generalize dependent (n / 16 mod 16).
  generalize dependent (n / 16 / 16 mod 16).
  generalize dependent (n / 16 / 16 / 16 mod 16).
  generalize dependent (n / 16 / 16 / 16 / 16).
  generalize dependent (n / 16 / 16 / 16).
  generalize dependent (n / 16 / 16). generalize dependent (n / 16).
  intros. lia.
Qed.

Lemma hex4_hex4_of n :
  n < 65536 ->
  hex4 (hex_digit (N.shiftr n 12 mod 16)) (hex_digit (N.shiftr n 8 mod 16))
       (hex_digit (N.shiftr n 4 mod 16)) (hex_digit (n mod 16))
  = Some n.
Proof.
  intros Hn. unfold hex4.
  rewrite !hex_val_digit by (by apply N.mod_lt).
  by rewrite nibbles.
Qed.

Lemma lor_disjoint a b k : a mod 2 ^ k = 0 -> b < 2 ^ k -> N.lor a b = a + b.
Proof.
  intros Ha Hb.
  assert (Hland : N.land a b = 0).
  { apply N.bits_inj. intros i. rewrite N.land_spec, N.bits_0.
    destruct (N.lt_ge_cases i k) as [Hi|Hi].
    - by rewrite <- (N.mod_pow2_bits_low a k i Hi), Ha, N.bits_0.
    - rewrite <- (N.mod_small b (2 ^ k) Hb), N.mod_pow2_bits_high by done.
      apply andb_false_r. }
  by rewrite N.add_nocarry_lxor, N.lxor_lor.
Qed.

(** The two halves written for a character above the basic plane. *)
Lemma surrogate_pair c :
  65536 <= c -> c <= 1114111 ->
  let n := c - 65536 in
  let hi := N.lor 55296 (N.land (N.shiftr n 10) 1023) in
  let lo := N.lor 56320 (N.land n 1023) in
  is_high_surrogate hi = true /\ is_low_surrogate lo = true
  /\ join_surrogates hi lo = c.
Proof.
  intros Hlo Hhi n hi lo.
  assert (Hn : n < 1048576) by (subst n; lia).
  assert (Hq : n / 1024 < 1024).
  { apply N.Div0.div_lt_upper_bound. lia. }
  assert (Hr : n mod 1024 < 1024) by (by apply N.mod_lt).
  assert (Hhi' : hi = 55296 + n / 1024).
  { subst hi. change 1023 with (N.ones 10).
    rewrite N.land_ones, N.shiftr_div_pow2. change (2 ^ 10) with 1024.
    rewrite (N.mod_small (n / 1024)) by done.
    by apply (lor_disjoint 55296 _ 10). }
  assert (Hlo' : lo = 56320 + n mod 1024).
  { subst lo. change 1023 with (N.ones 10). rewrite N.land_ones.
    change (2 ^ 10) with 1024. by apply (lor_disjoint 56320 _ 10). }
  unfold is_high_surrogate, is_low_surrogate, join_surrogates.
  rewrite Hhi', Hlo'. clear Hhi' Hlo' hi lo.
  assert (Hjoin : N.lor (N.shiftl (n / 1024) 10) (n mod 1024) = n).
  { rewrite N.shiftl_mul_pow2, (lor_disjoint _ _ 10).
    - change (2 ^ 10) with 1024. rewrite (N.mul_comm _ 1024).
      symmetry. apply N.div_mod'.
    - apply N.Div0.mod_mul.
    - done. }
  generalize dependent (n / 1024). generalize dependent (n mod 1024).
  intros r Hr q Hq Hjoin.
  replace (55296 + q - 55296) with q by lia.
  replace (56320 + r - 56320) with r by lia.
  rewrite Hjoin. repeat split.
  - apply andb_true_iff. split; apply N.leb_le; lia.
  - apply andb_true_iff. split; apply N.leb_le; lia.
  - subst n. lia.
Qed.

(** How [scanstring] reads each of the forms that [escape_char] writes. *)
Lemma scanstring_short e c t :
  short_escape e = Some c -> e <> 117 ->
  scanstring (92 :: e :: t) = push c (scanstring t).
Proof.
  intros He Hne. cbn [scanstring]. chars. cbn [N.eqb Pos.eqb].
  by rewrite (proj2 (N.eqb_neq e 117) Hne), He.
Qed.

Lemma scanstring_plain c t :
  c <> 34 -> c <> 92 -> 32 <= c ->
  scanstring (c :: t) = push c (scanstring t).
Proof.
  intros H34 H92 H32. cbn [scanstring]. chars.
  rewrite (proj2 (N.eqb_neq c 34) H34), (proj2 (N.eqb_neq c 92) H92).
  by rewrite (proj2 (N.ltb_ge c 32) H32).
Qed.

Lemma low_escape_none_scan uni t :
  low_escape t = None ->
  match t with
  | b :: u :: k1 :: k2 :: k3 :: k4 :: r3 =>
      match low_escape t with
      | Some (lo, _) => push (join_surrogates uni lo) (scanstring r3)
      | None => push uni (scanstring t)
      end
  | _ => push uni (scanstring t)
  end = push uni (scanstring t).
Proof. intros ->. by do 6 (destruct t as [|? t]; try done). Qed.

Lemma scanstring_u n t :
  n < 65536 ->
  is_high_surrogate n = false \/ low_escape t = None ->
  scanstring (u_escape n ++ t) = push n (scanstring t).
Proof.
  intros Hn Hcase. unfold u_escape, hex4_of. cbn [app scanstring]. chars.
  cbn [N.eqb Pos.eqb]. rewrite hex4_hex4_of by done.
  destruct (is_high_surrogate n) eqn:Hhigh; [|done].
  destruct Hcase as [|Hlow]; [done|]. by apply low_escape_none_scan.
Qed.

Lemma scanstring_pair hi lo t :
  hi < 65536 -> lo < 65536 ->
  is_high_surrogate hi = true -> is_low_surrogate lo = true ->
  scanstring (u_escape hi ++ u_escape lo ++ t)
  = push (join_surrogates hi lo) (scanstring t).
Proof.
  intros Hhi Hlo Hh Hl. unfold u_escape, hex4_of. cbn [app scanstring]. chars.
  cbn [N.eqb Pos.eqb]. rewrite hex4_hex4_of, Hh by done.
  unfold low_escape. chars. cbn [N.eqb Pos.eqb andb].
  by rewrite hex4_hex4_of, Hl by done.
Qed.

Lemma high_not_low c : is_high_surrogate c = true -> is_low_surrogate c = false.
Proof.
  unfold is_high_surrogate, is_low_surrogate.
  intros [_ H]%andb_true_iff. apply N.leb_le in H.
  apply andb_false_iff. left. apply N.leb_gt. lia.
Qed.

(** No character is written in a way that reads as the low half of a
    pair, unless it is a low surrogate. *)
Lemma low_escape_escape_char c t :
  c <= 1114111 -> is_low_surrogate c = false ->
  low_escape (escape_char c ++ t) = None.
Proof.
  intros Hmax Hlow. unfold escape_char. chars.
  destruct (c =? 34); [by do 4 (destruct t as [|? t]; try done)|].
  destruct (c =? 92) eqn:H92; [by do 4 (destruct t as [|? t]; try done)|].
  destruct (c =? 8); [by do 4 (destruct t as [|? t]; try done)|].
  destruct (c =? 12); [by do 4 (destruct t as [|? t]; try done)|].
  destruct (c =? 10); [by do 4 (destruct t as [|? t]; try done)|].
  destruct (c =? 13); [by do 4 (destruct t as [|? t]; try done)|].
  destruct (c =? 9); [by do 4 (destruct t as [|? t]; try done)|].
  destruct ((32 <=? c) && (c <=? 126)).
  { do 5 (destruct t as [|? t]; try done).
    unfold low_escape. chars. cbn [app]. by rewrite H92. }
  destruct (c <? 65536) eqn:Hbmp.
  - apply N.ltb_lt in Hbmp. unfold u_escape, hex4_of, low_escape. chars.
    cbn [app N.eqb Pos.eqb andb]. by rewrite hex4_hex4_of, Hlow.
  - apply N.ltb_ge in Hbmp.
    destruct (surrogate_pair c Hbmp Hmax) as (Hh & Hl & _).
    pose proof (high_not_low _ Hh) as Hnl.
    unfold u_escape, hex4_of, low_escape. chars.
    cbn [app N.eqb Pos.eqb andb]. rewrite hex4_hex4_of.
    + by rewrite Hnl.
    + unfold is_high_surrogate in Hh.
      apply andb_true_iff in Hh as [_ Hh%N.leb_le]. lia.
Qed.

Lemma scanstring_escape_char c t :
  c <= 1114111 ->
  is_high_surrogate c = false \/ low_escape t = None ->
  scanstring (escape_char c ++ t) = push c (scanstring t).
Proof.
  intros Hmax Hcase. unfold escape_char. chars.
  destruct (N.eqb_spec c 34) as [->|H34]; [by apply scanstring_short|].
  destruct (N.eqb_spec c 92) as [->|H92]; [by apply scanstring_short|].
  destruct (N.eqb_spec c 8) as [->|H8]; [by apply scanstring_short|].
  destruct (N.eqb_spec c 12) as [->|H12]; [by apply scanstring_short|].
  destruct (N.eqb_spec c 10) as [->|H10]; [by apply scanstring_short|].
  destruct (N.eqb_spec c 13) as [->|H13]; [by apply scanstring_short|].
  destruct (N.eqb_spec c 9) as [->|H9]; [by apply scanstring_short|].
  destruct ((32 <=? c) && (c <=? 126)) eqn:Hprint.
  { apply andb_true_iff in Hprint as [H32%N.leb_le _].
    by apply scanstring_plain. }
  destruct (c <? 65536) eqn:Hbmp.
  - apply N.ltb_lt in Hbmp. by apply scanstring_u.
  - apply N.ltb_ge in Hbmp.
    destruct (surrogate_pair c Hbmp Hmax) as (Hh & Hl & Hjoin).
    rewrite <- app_assoc, scanstring_pair, Hjoin; try done.
    + unfold is_high_surrogate in Hh.
      apply andb_true_iff in Hh as [_ Hh%N.leb_le]. lia.
    + unfold is_low_surrogate in Hl.
      apply andb_true_iff in Hl as [_ Hl%N.leb_le]. lia.
Qed.

(** [scanstring] reads a string back from its escaped form. *)
Lemma scanstring_escape s rest :
  str_ok s = true ->
  scanstring (escape s ++ 34 :: rest) = Some (s, rest).
Proof.
  induction s as [|c s IH]; [done|].
  cbn [str_ok escape]. intros [[Hmax%N.leb_le Hpair]%andb_true_iff Hs]%andb_true_iff.
  rewrite <- app_assoc, scanstring_escape_char, IH; try done.
  apply negb_true_iff, andb_false_iff in Hpair as [Hhigh|Hnext]; [by left|].
  right. destruct s as [|c' s].
  { cbn [escape app]. by do 5 (destruct rest as [|? rest]; try done). }
  cbn [str_ok escape] in *.
  apply andb_true_iff in Hs as [[Hmax'%N.leb_le _]%andb_true_iff _].
  rewrite <- app_assoc. by apply low_escape_escape_char.
Qed.

(** *** Values *)

Lemma is_digit_range c : is_digit c = true -> 48 <= c /\ c <= 57.
Proof.
  unfold is_digit. intros [H1%N.leb_le H2%N.leb_le]%andb_true_iff. done.
Qed.

Lemma strip_prefix_app p rest : strip_prefix p (p ++ rest) = Some rest.
Proof.
  induction p as [|c p IH]; cbn; [by destruct rest|]. by rewrite N.eqb_refl.
Qed.

(** A number is scanned by [match_number]. *)
Lemma scan_once_number c t x n :
  c = 45 \/ is_digit c = true ->
  match_number (c :: t) = Some x ->
  scan_once (S n) (c :: t) = Scanned (fst x) (snd x).
Proof.
  intros Hc Hx.
  assert (c <> 34 /\ c <> 123 /\ c <> 91 /\ c <> 110 /\ c <> 116 /\ c <> 102)
    as (H1 & H2 & H3 & H4 & H5 & H6).
  { destruct Hc as [->|Hc%is_digit_range]; [done|]. lia. }
  cbn [scan_once]. chars.
  rewrite (proj2 (N.eqb_neq c 34) H1), (proj2 (N.eqb_neq c 123) H2),
    (proj2 (N.eqb_neq c 91) H3).
  unfold scan_atom, keyword. chars. cbn [strip_prefix].
  rewrite (proj2 (N.eqb_neq 110 c)), (proj2 (N.eqb_neq 116 c)),
    (proj2 (N.eqb_neq 102 c)), Hx by done.
  by destruct x.
Qed.

Lemma repr_int_head z :
  exists c t, repr_int z = c :: t /\ (c = 45 \/ is_digit c = true).
Proof.
  destruct z as [|p|p]; unfold repr_int.
  - destruct (digits_of_N_cons 0) as (c & t & -> & Hc & _). eauto.
  - destruct (digits_of_N_cons (N.pos p)) as (c & t & -> & Hc & _). eauto.
  - chars. eauto.
Qed.

Lemma floatstr_dec_head neg m e :
  exists c t, floatstr (Fdec neg m e) = c :: t /\ (c = 45 \/ is_digit c = true).
Proof.
  cbn [floatstr]. destruct (canonical m e) as [m' e'].
  apply float_repr_head.
Qed.

Lemma match_number_float neg m e rest :
  float_ok (Fdec neg m e) = true -> stops rest ->
  match_number (floatstr (Fdec neg m e) ++ rest)
  = Some (JFloat (Fdec neg m e), rest).
Proof.
  intros Hok Hrest. cbn [floatstr]. rewrite (float_ok_canonical neg) by done.
  by apply match_number_repr.
Qed.

(** The values that are no list and no dict. *)
Lemma scan_once_atom v rest n :
  match v with JArr _ | JObj _ => False | _ => True end ->
  json_ok v = true -> stops rest ->
  scan_once (S n) (json_dumps v ++ rest) = Scanned v rest.
Proof.
  intros Hatom Hok Hrest. destruct v as [|[|]|z|[|[|]|neg m e]|s|l|d];
    try done; cbn [json_dumps].
  - destruct (repr_int_head z) as (c & t & Hz & Hc).
    pose proof (match_number_int z rest Hrest) as Hnum.
    rewrite Hz in *. cbn [app] in *.
    by rewrite (scan_once_number c _ _ n Hc Hnum).
  - destruct (floatstr_dec_head neg m e) as (c & t & Hz & Hc).
    pose proof (match_number_float neg m e rest Hok Hrest) as Hnum.
    rewrite Hz in *. cbn [app] in *.
    by rewrite (scan_once_number c _ _ n Hc Hnum).
  - unfold encode_string. chars. cbn [app scan_once N.eqb Pos.eqb].
    rewrite <- app_assoc. cbn [app].
    by rewrite scanstring_escape.
Qed.

Lemma dumps_head v :
  exists c t, json_dumps v = c :: t /\ is_ws c = false /\ c <> 93.
Proof.
  assert (Hnum : forall c, c = 45 \/ is_digit c = true ->
                           is_ws c = false /\ c <> 93).
  { intros c [->|[? ?]%is_digit_range]; [done|].
    unfold is_ws. split; [|lia].
    rewrite !orb_false_iff. repeat split; apply N.eqb_neq; lia. }
  destruct v as [|[|]|z|[|[|]|neg m e]|s|l|d]; cbn [json_dumps];
    try (cbn [floatstr]; chars; by eexists _, _).
  - destruct (repr_int_head z) as (c & t & -> & Hc).
    exists c, t. split; [done|]. by apply Hnum.
  - destruct (floatstr_dec_head neg m e) as (c & t & -> & Hc).
    exists c, t. split; [done|]. by apply Hnum.
Qed.

Lemma skip_ws_head c t : is_ws c = false -> skip_ws (c :: t) = c :: t.
Proof. intros Hc. cbn. by rewrite Hc. Qed.

Lemma skip_ws_dumps v rest :
  skip_ws (json_dumps v ++ rest) = json_dumps v ++ rest.
Proof.
  destruct (dumps_head v) as (c & t & -> & Hc & _). by apply skip_ws_head.
Qed.

Lemma dict_set_fresh k v d :
  k ∉ List.map fst d -> dict_set k v d = d ++ [(k, v)].
Proof.
  induction d as [|[k' v'] d IH]; cbn; [done|].
  intros [Hne Hd]%not_elem_of_cons.
  by rewrite str_eqb_ne, IH.
Qed.

Lemma dict_of_pairs_nodup d : NoDup (List.map fst d) -> dict_of_pairs d = d.
Proof.
  unfold dict_of_pairs.
  enough (forall acc, NoDup (List.map fst (acc ++ d)) ->
            fold_left (fun d kv => dict_set (fst kv) (snd kv) d) d acc
            = acc ++ d) as H by (intros; by apply (H [])).
  induction d as [|[k v] d IH]; intros acc Hnd; cbn.
  - by rewrite app_nil_r.
  - rewrite dict_set_fresh.
    + rewrite IH; rewrite <- app_assoc; done.
    + rewrite map_app in Hnd. cbn in Hnd.
      apply NoDup_app in Hnd as (_ & Hdisj & _).
      intros Hin. apply (Hdisj k Hin). by left.
Qed.

Lemma skip_ws_join y l tl :
  skip_ws (join_comma (List.map json_dumps (y :: l)) ++ tl)
  = join_comma (List.map json_dumps (y :: l)) ++ tl.
Proof.
  destruct l; cbn [List.map join_comma]; rewrite <- ?app_assoc;
    apply skip_ws_dumps.
Qed.

Lemma fuel_cons {A} (f : A -> nat) x l :
  list_sum (List.map (fun x => S (f x)) (x :: l))
  = S (f x + list_sum (List.map (fun x => S (f x)) l)).
Proof. reflexivity. Qed.

Lemma scan_items_dumps l :
  Forall reads_back l -> l <> [] ->
  forall rest fuel,
    (list_sum (List.map (fun x => S (size x)) l) <= fuel)%nat ->
    scan_items fuel (join_comma (List.map json_dumps l) ++ 93 :: rest)
    = Scanned l rest.
Proof.
  induction l as [|x l IH]; [done|].
  intros [Hx Hl]%Forall_cons _ rest fuel Hfuel.
  rewrite fuel_cons in Hfuel. destruct fuel as [|n]; [lia|].
  cbn [scan_items]. destruct l as [|y l].
  - cbn [List.map join_comma]. rewrite Hx; [|by right; left|lia]. done.
  - change (join_comma (List.map json_dumps (x :: y :: l)))
      with (json_dumps x ++ lit ", " ++ join_comma (List.map json_dumps (y :: l))).
    chars. rewrite <- !app_assoc. cbn [app].
    rewrite Hx; [|by left|lia]. cbn [scan_bind skip_ws is_ws N.eqb Pos.eqb orb].
    chars. cbn [N.eqb Pos.eqb].
    rewrite skip_ws_join, (IH Hl) by (done || lia). done.
Qed.

Lemma join_members_head kv d :
  exists body, join_comma (List.map member_text (kv :: d)) = 34 :: body.
Proof.
  destruct d; cbn [List.map join_comma]; unfold member_text, encode_string;
    chars; cbn [app]; eauto.
Qed.

Lemma scan_members_dumps d :
  Forall (fun kv => str_ok (fst kv) = true /\ reads_back (snd kv)) d ->
  d <> [] ->
  forall rest fuel body,
    (list_sum (List.map (fun kv => S (size (snd kv))) d) <= fuel)%nat ->
    join_comma (List.map member_text d) = 34 :: body ->
    scan_members fuel (body ++ 125 :: rest) = Scanned d rest.
Proof.
  induction d as [|[k v] d IH]; [done|].
  intros [[Hk Hv] Hd]%Forall_cons _ rest fuel body Hfuel Hbody.
  rewrite (fuel_cons (fun kv => size (snd kv))) in Hfuel.
  destruct fuel as [|n]; [lia|]. cbn [fst snd] in *.
  cbn [scan_members]. destruct d as [|kv' d].
  - cbn [List.map join_comma] in Hbody. unfold member_text, encode_string in Hbody.
    revert Hbody. chars. cbn [app fst snd]. intros [= <-].
    rewrite <- !app_assoc. cbn [app].
    rewrite scanstring_escape by done.
    cbn [skip_ws is_ws N.eqb Pos.eqb orb]. chars. cbn [N.eqb Pos.eqb].
    rewrite skip_ws_dumps, Hv; [|by right; right|lia]. done.
  - change (join_comma (List.map member_text ((k, v) :: kv' :: d)))
      with (member_text (k, v) ++ lit ", "
              ++ join_comma (List.map member_text (kv' :: d))) in Hbody.
    destruct (join_members_head kv' d) as [body' Hbody'].
    rewrite Hbody' in Hbody. unfold member_text, encode_string in Hbody.
    revert Hbody. chars. cbn [app fst snd]. intros [= <-].
    rewrite <- !app_assoc. cbn [app].
    rewrite scanstring_escape by done.
    cbn [skip_ws is_ws N.eqb Pos.eqb orb]. chars. cbn [N.eqb Pos.eqb].
    rewrite skip_ws_dumps, Hv; [|by left|lia].
    cbn [scan_bind skip_ws is_ws N.eqb Pos.eqb orb]. chars. cbn [N.eqb Pos.eqb].
    rewrite (IH Hd ltac:(done) rest n body') by (done || lia). done.
Qed.

(** [json_dumps] followed by the scanner is the identity on well-formed
    values, with fuel to the measure of the value. *)
Lemma scan_once_dumps v : json_ok v = true -> reads_back v.
Proof.
  induction v as [| | | | |l IH|d IH] using json_nested_ind; intros Hok;
    try (intros rest [|n] Hrest Hfuel; [cbn in Hfuel; lia|];
         by apply scan_once_atom).
  - intros rest [|n] Hrest Hfuel; [cbn in Hfuel; lia|].
    cbn [json_dumps size] in *. chars. cbn [app scan_once]. chars.
    cbn [N.eqb Pos.eqb].
    assert (Hall : Forall reads_back l).
    { apply Forall_forall. intros x Hx. rewrite Forall_forall in IH.
      apply IH; [done|]. cbn [json_ok] in Hok.
      rewrite forallb_forall in Hok. by apply Hok, list_elem_of_In. }
    destruct l as [|x l]; [done|].
    rewrite <- app_assoc. cbn [app].
    rewrite skip_ws_join.
    destruct (dumps_head x) as (c & t & Hx & _ & Hc).
    assert (Hjoin : exists t', join_comma (List.map json_dumps (x :: l)) = c :: t').
    { destruct l; cbn [List.map join_comma]; rewrite Hx; cbn [app]; eauto. }
    destruct Hjoin as [t' Hjoin]. 
    pose proof (scan_items_dumps (x :: l) Hall ltac:(done) rest n) as Hitems.
    rewrite Hjoin in *. cbn [app] in *.
    rewrite (proj2 (N.eqb_neq c 93) Hc), Hitems by lia. done.
  - intros rest [|n] Hrest Hfuel; [cbn in Hfuel; lia|].
    cbn [json_dumps size json_ok] in *. chars. cbn [app scan_once]. chars.
    cbn [N.eqb Pos.eqb].
    apply andb_true_iff in Hok as [Hall Hnd]. apply bool_decide_eq_true in Hnd.
    assert (Hall' : Forall (fun kv => str_ok (fst kv) = true
                                      /\ reads_back (snd kv)) d).
    { apply Forall_forall. intros kv Hkv. rewrite Forall_forall in IH.
      rewrite forallb_forall in Hall.
      pose proof Hkv as [? ?]%list_elem_of_In%Hall%andb_true_iff.
      split; [done|]. by apply IH. }
    destruct d as [|kv d]; [done|].
    rewrite <- app_assoc. cbn [app].
    change (List.map _ (kv :: d)) with (List.map member_text (kv :: d)).
    destruct (join_members_head kv d) as [body Hbody]. rewrite Hbody.
    cbn [app skip_ws is_ws N.eqb Pos.eqb orb].
    rewrite (scan_members_dumps (kv :: d) Hall' ltac:(done) rest n body)
      by (done || lia).
    cbn [scan_bind]. by rewrite dict_of_pairs_nodup.
Qed.

Lemma join_comma_length {A} (f : A -> nat) (g : A -> str) l :
  Forall (fun x => (f x <= length (g x))%nat) l ->
  (list_sum (List.map (fun x => S (f x)) l)
   <= S (length (join_comma (List.map g l))))%nat.
Proof.
  induction l as [|x l IH]; [cbn; lia|].
  intros [Hx Hl]%Forall_cons. rewrite fuel_cons. specialize (IH Hl).
  destruct l as [|y l]; [cbn in *; lia|].
  change (join_comma (List.map g (x :: y :: l)))
    with (g x ++ lit ", " ++ join_comma (List.map g (y :: l))).
  rewrite !length_app. chars. cbn [length]. lia.
Qed.

(** The fuel that [json_loads] gives is enough for what [json_dumps]
    wrote. *)
Lemma size_le_dumps v : (size v <= length (json_dumps v))%nat.
Proof.
  induction v as [| | | | |l IH|d IH] using json_nested_ind;
    try match goal with
        | |- (size ?x <= _)%nat =>
            destruct (dumps_head x) as (c & t & -> & _); cbn; lia
        end.
  - cbn [size json_dumps length]. rewrite length_app. cbn [length].
    pose proof (join_comma_length size json_dumps l IH). lia.
  - cbn [size json_dumps length]. rewrite length_app. cbn [length].
    change (join_comma (List.map _ d))
      with (join_comma (List.map member_text d)).
    assert (Hd : Forall (fun kv => (size (snd kv) <= length (member_text kv))%nat) d).
    { eapply Forall_impl; [exact IH|]. intros kv Hkv. cbn beta in Hkv.
      unfold member_text. rewrite !length_app. lia. }
    pose proof (join_comma_length (fun kv => size (snd kv)) member_text d Hd).
    lia.
Qed.

(** The round trip: [json.loads(json.dumps(v)) == v]. *)
Lemma json_loads_dumps v : json_ok v = true -> json_loads (json_dumps v) = Some v.
Proof.
  intros Hok. unfold json_loads.
  destruct (dumps_head v) as (c & t & Hv & Hc & _).
  assert (Hbom : c <> 65279).
  { destruct v as [|[|]|z|[|[|]|neg m e]|s|l|d]; revert Hv;
      cbn [json_dumps floatstr]; unfold encode_string; chars;
      try (by intros [= <- _]).
    - destruct (repr_int_head z) as (c' & t' & -> & [->|[? ?]%is_digit_range]);
        intros [= <- _]; lia.
    - intros Hz. destruct (floatstr_dec_head neg m e)
        as (c' & t' & Hz' & Hc').
      unfold floatstr in Hz'. revert Hz'. chars. rewrite Hz. intros [= <- _].
      destruct Hc' as [->|[? ?]%is_digit_range]; lia. }
  pose proof (skip_ws_dumps v []) as Hskip. rewrite app_nil_r in Hskip.
  pose proof (scan_once_dumps v Hok [] (S (2 * length (json_dumps v))) I)
    as Hscan.
  rewrite app_nil_r in Hscan. pose proof (size_le_dumps v).
  rewrite Hskip, Hscan by lia.
  rewrite Hv. destruct c as [|p]; [done|].
  do 16 (destruct p as [p|p|]; try done).
Qed.

(** ** What [json.loads] returns *)

(** The step of [scanstring], with the look-ahead for the second half of a
    surrogate pair folded into [low_escape]. *)
Lemma scan_high_eq uni t :
  match t with
  | b :: u :: k1 :: k2 :: k3 :: k4 :: r3 =>
      match low_escape t with
      | Some (lo, _) => push (join_surrogates uni lo) (scanstring r3)
      | None => push uni (scanstring t)
      end
  | _ => push uni (scanstring t)
  end
  = match low_escape t with
    | Some (lo, r3) => push (join_surrogates uni lo) (scanstring r3)
    | None => push uni (scanstring t)
    end.
Proof.
  do 6 (destruct t as [|? t]; try done).
  unfold low_escape. repeat case_match; try done. congruence.
Qed.

Lemma scanstring_eq s :
  scanstring s
  = match s with
    | [] => None
    | c :: r =>
        if c =? 34 then Some ([], r)
        else if c =? 92 then
          match r with
          | [] => None
          | e :: r1 =>
              if e =? 117 then
                match r1 with
                | h1 :: h2 :: h3 :: h4 :: r2 =>
                    match hex4 h1 h2 h3 h4 with
                    | None => None
                    | Some uni =>
                        if is_high_surrogate uni then
                          match low_escape r2 with
                          | Some (lo, r3) =>
                              push (join_surrogates uni lo) (scanstring r3)
                          | None => push uni (scanstring r2)
                          end
                        else push uni (scanstring r2)
                    end
                | _ => None
                end
              else
                match short_escape e with
                | None => None
                | Some c' => push c' (scanstring r1)
                end
          end
        else if c <? 32 then None
        else push c (scanstring r)
    end.
Proof.
  destruct s as [|c r]; [done|]. cbn [scanstring]. chars.
  destruct (c =? 34); [done|]. destruct (c =? 92); [|done].
  destruct r as [|e r1]; [done|]. destruct (e =? 117); [|done].
  do 4 (destruct r1 as [|? r1]; [done|]).
  destruct (hex4 _ _ _ _) as [uni|]; [|done].
  destruct (is_high_surrogate uni); [|done]. apply scan_high_eq.
Qed.

Lemma push_some c x t rest :
  push c x = Some (t, rest) -> exists t', t = c :: t' /\ x = Some (t', rest).
Proof. destruct x as [[t' r]|]; [|done]. intros [= <- <-]. eauto. Qed.

Lemma low_escape_some t lo r3 :
  low_escape t = Some (lo, r3) ->
  is_low_surrogate lo = true /\ lo < 65536
  /\ exists p, length p = 6%nat /\ t = p ++ r3.
Proof.
  unfold low_escape. do 6 (destruct t as [|? t]; try done).
  repeat case_match; try done. intros [= <- <-].
  split; [done|]. split.
  - unfold is_low_surrogate in *.
    match goal with H : _ && _ = true |- _ =>
      apply andb_true_iff in H as [_ ?%N.leb_le] end. lia.
  - by eexists [_; _; _; _; _; _].
Qed.

Lemma hex_val_bound c v : hex_val c = Some v -> v < 16.
Proof.
  unfold hex_val, is_digit. repeat case_match; try done; intros [= <-];
    repeat match goal with
      | H : _ && _ = true |- _ => apply andb_true_iff in H as [? ?]
      | H : (_ <=? _) = true |- _ => apply N.leb_le in H
      end; lia.
Qed.

Lemma hex4_bound a b c d v : hex4 a b c d = Some v -> v < 65536.
Proof.
  unfold hex4.
  destruct (hex_val a) eqn:Ha, (hex_val b) eqn:Hb, (hex_val c) eqn:Hc,
    (hex_val d) eqn:Hd; try done.
  apply hex_val_bound in Ha, Hb, Hc, Hd. intros [= <-]. lia.
Qed.

Lemma join_surrogates_range hi lo :
  is_high_surrogate hi = true -> is_low_surrogate lo = true ->
  65536 <= join_surrogates hi lo /\ join_surrogates hi lo <= 1114111.
Proof.
  unfold is_high_surrogate, is_low_surrogate, join_surrogates.
  intros [H1%N.leb_le H2%N.leb_le]%andb_true_iff
         [H3%N.leb_le H4%N.leb_le]%andb_true_iff.
  rewrite N.shiftl_mul_pow2, (lor_disjoint _ _ 10).
  - change (2 ^ 10) with 1024. lia.
  - apply N.Div0.mod_mul.
  - change (2 ^ 10) with 1024. lia.
Qed.

Lemma str_ok_cons x t :
  x <= 1114111 ->
  is_high_surrogate x = false \/ head_not_low t ->
  str_ok t = true ->
  str_ok (x :: t) = true.
Proof.
  intros Hx Hpair Ht. cbn [str_ok]. rewrite Ht, andb_true_r.
  apply andb_true_iff. split; [by apply N.leb_le|].
  apply negb_true_iff, andb_false_iff.
  destruct Hpair as [?|Hhead]; [by left|]. right.
  by destruct t.
Qed.

Lemma text_ok_cons c s :
  text_ok (c :: s) = true ->
  (c <= 1114111 /\ is_surrogate c = false) /\ text_ok s = true.
Proof.
  cbn. intros [[?%N.leb_le ?%negb_true_iff]%andb_true_iff ?]%andb_true_iff.
  done.
Qed.

Lemma text_ok_suffix r s : r `suffix_of` s -> text_ok s = true -> text_ok r = true.
Proof.
  intros [p ->]. unfold text_ok. rewrite forallb_app.
  by intros [_ ?]%andb_true_iff.
Qed.

Lemma not_surrogate c :
  is_surrogate c = false ->
  is_high_surrogate c = false /\ is_low_surrogate c = false.
Proof.
  unfold is_surrogate, is_high_surrogate, is_low_surrogate.
  intros [H%N.leb_gt|H%N.leb_gt]%andb_false_iff; split;
    apply andb_false_iff; (by left; apply N.leb_gt; lia)
                          || (by right; apply N.leb_gt; lia).
Qed.

Lemma short_escape_small e c : short_escape e = Some c -> c < 128.
Proof.
  unfold short_escape. chars. repeat case_match; try done; by intros [= <-].
Qed.

Lemma small_not_surrogate c :
  c < 55296 -> is_high_surrogate c = false /\ is_low_surrogate c = false.
Proof.
  intros Hc. unfold is_high_surrogate, is_low_surrogate.
  split; apply andb_false_iff; left; apply N.leb_gt; lia.
Qed.

Lemma large_not_surrogate c :
  65536 <= c -> is_high_surrogate c = false /\ is_low_surrogate c = false.
Proof.
  intros Hc. unfold is_high_surrogate, is_low_surrogate.
  split; apply andb_false_iff; right; apply N.leb_gt; lia.
Qed.

(** What [scanstring] returns from a decoded text is a [str] that
    [json.dump] can write and read back; and it has read at least the
    closing quote. *)
Lemma scanstring_ok n : forall s t rest,
  (length s <= n)%nat ->
  text_ok s = true ->
  scanstring s = Some (t, rest) ->
  str_ok t = true
  /\ rest `suffix_of` s /\ (length rest < length s)%nat
  /\ (low_escape s = None -> head_not_low t).
Proof.
  induction n as [|n IH]; intros s t rest Hlen Hs Hscan;
    (destruct s as [|c r]; [done|]); [cbn in Hlen; lia|].
  rewrite scanstring_eq in Hscan. cbn [length] in *.
  apply text_ok_cons in Hs as [[Hmax Hc] Hr].
  destruct (c =? 34) eqn:H34.
  { injection Hscan as <- <-. repeat split; [by apply suffix_cons_r|lia]. }
  destruct (N.eqb_spec c 92) as [->|H92].
  - destruct r as [|e r1]; [done|].
    apply text_ok_cons in Hr as [_ Hr1]. cbn [length] in *.
    destruct (N.eqb_spec e 117) as [->|H117].
    + do 4 (destruct r1 as [|? r1]; [done|];
            apply text_ok_cons in Hr1 as [_ Hr1]).
      cbn [length] in *.
      destruct (hex4 _ _ _ _) as [uni|] eqn:Hhex; [|done].
      pose proof (hex4_bound _ _ _ _ _ Hhex) as Huni.
      destruct (is_high_surrogate uni) eqn:Hhigh.
      * destruct (low_escape r1) as [[lo r3]|] eqn:Hlow.
        -- destruct (low_escape_some _ _ _ Hlow) as (Hl & Hlo & p & Hp & ->).
           apply push_some in Hscan as (t' & -> & Hscan).
           rewrite length_app in Hlen.
           destruct (IH r3 t' rest) as (Ht' & Hsuf & Hlt & _); [lia| |done|].
           { eapply text_ok_suffix; [|exact Hr1]. by apply suffix_app_r. }
           destruct (join_surrogates_range _ _ Hhigh Hl) as [Hj1 Hj2].
           destruct (large_not_surrogate _ Hj1) as [Hjh Hjl].
           repeat split.
           ++ apply str_ok_cons; auto.
           ++ do 6 apply suffix_cons_r. etrans; [exact Hsuf|].
              by apply suffix_app_r.
           ++ rewrite length_app. lia.
           ++ done.
        -- apply push_some in Hscan as (t' & -> & Hscan).
           destruct (IH r1 t' rest) as (Ht' & Hsuf & Hlt & Hhead);
             [lia|done|done|].
           repeat split.
           ++ apply str_ok_cons; auto. lia.
           ++ by do 6 apply suffix_cons_r.
           ++ lia.
           ++ intros _. by apply high_not_low.
      * apply push_some in Hscan as (t' & -> & Hscan).
        destruct (IH r1 t' rest) as (Ht' & Hsuf & Hlt & _); [lia|done|done|].
        repeat split.
        -- apply str_ok_cons; auto. lia.
        -- by do 6 apply suffix_cons_r.
        -- lia.
        -- unfold low_escape. chars. cbn [N.eqb Pos.eqb andb]. rewrite Hhex.
           cbn [head_not_low]. by destruct (is_low_surrogate uni).
    + destruct (short_escape e) as [c'|] eqn:Hesc; [|done].
      apply short_escape_small in Hesc.
      apply push_some in Hscan as (t' & -> & Hscan).
      destruct (IH r1 t' rest) as (Ht' & Hsuf & Hlt & _); [lia|done|done|].
      destruct (small_not_surrogate c') as [? ?]; [lia|].
      repeat split.
      * apply str_ok_cons; auto. lia.
      * by do 2 apply suffix_cons_r.
      * lia.
      * done.
  - destruct (c <? 32); [done|].
    apply push_some in Hscan as (t' & -> & Hscan).
    destruct (IH r t' rest) as (Ht' & Hsuf & Hlt & _); [lia|done|done|].
    destruct (not_surrogate _ Hc) as [? ?].
    repeat split.
    + apply str_ok_cons; auto.
    + by apply suffix_cons_r.
    + lia.
    + done.
Qed.

Lemma strip_prefix_suffix p s r :
  strip_prefix p s = Some r ->
  r `suffix_of` s /\ (length r + length p = length s)%nat.
Proof.
  revert s. induction p as [|a p IH]; intros s; cbn.
  - destruct s; intros [= <-]; split; (done || lia).
  - destruct s as [|b s]; [done|]. destruct (a =? b); [|done].
    intros [Hsuf Hlen]%IH. split; [by apply suffix_cons_r|cbn; lia].
Qed.

Lemma span_digits_suffix s :
  snd (span_digits s) `suffix_of` s
  /\ (length (snd (span_digits s)) <= length s)%nat.
Proof.
  induction s as [|c s [IH1 IH2]]; cbn; [done|].
  destruct (is_digit c); [|done].
  destruct (span_digits s) as [ds r]. cbn in *.
  split; [by apply suffix_cons_r|lia].
Qed.

Lemma skip_ws_suffix s :
  skip_ws s `suffix_of` s /\ (length (skip_ws s) <= length s)%nat.
Proof.
  induction s as [|c s [IH1 IH2]]; cbn; [done|].
  destruct (is_ws c); [|done]. split; [by apply suffix_cons_r|lia].
Qed.

Lemma match_integer_suffix s neg ds r :
  match_integer s = Some (neg, ds, r) ->
  r `suffix_of` s /\ (length r < length s)%nat.
Proof.
  unfold match_integer.
  assert (Hsign : snd (strip_sign s) `suffix_of` s
                  /\ (length (snd (strip_sign s)) <= length s)%nat).
  { destruct s as [|c s']; [done|]. cbn. destruct (c =? ch "-"); cbn;
      [split; [by apply suffix_cons_r|lia]|done]. }
  destruct (strip_sign s) as [neg' r0]. cbn in Hsign. destruct Hsign as [H1 H2].
  destruct (integer_digits r0) as [[ds' r']|] eqn:Hd; [|done].
  intros [= _ _ ->].
  enough (r `suffix_of` r0 /\ (length r < length r0)%nat) as [H3 H4]
    by (split; [by etrans|lia]).
  destruct r0 as [|c r1]; [done|]. cbn in Hd. destruct (c =? 48).
  - injection Hd as _ <-. split; [by apply suffix_cons_r|cbn; lia].
  - destruct (is_digit c); [|done].
    destruct (span_digits_suffix r1) as [H3 H4].
    destruct (span_digits r1) as [ds'' r2]. injection Hd as _ <-. cbn in *.
    split; [by apply suffix_cons_r|lia].
Qed.

Lemma match_frac_suffix s :
  snd (match_frac s) `suffix_of` s
  /\ (length (snd (match_frac s)) <= length s)%nat.
Proof.
  unfold match_frac. destruct s as [|dot [|c r]]; try done.
  destruct ((dot =? ch ".") && is_digit c); [|done].
  destruct (span_digits_suffix r) as [H1 H2].
  destruct (span_digits r) as [ds r']. cbn in *.
  split; [by do 2 apply suffix_cons_r|lia].
Qed.

Lemma match_exp_suffix s :
  snd (match_exp s) `suffix_of` s
  /\ (length (snd (match_exp s)) <= length s)%nat.
Proof.
  unfold match_exp. destruct s as [|e r]; [done|].
  destruct ((e =? ch "e") || (e =? ch "E")); [|done].
  destruct r as [|c r1]; [done|]. destruct (is_digit c).
  - destruct (span_digits_suffix r1) as [H1 H2].
    destruct (span_digits r1) as [ds r']. cbn in *.
    split; [by do 2 apply suffix_cons_r|lia].
  - destruct ((c =? ch "+") || (c =? ch "-")); [|done].
    destruct r1 as [|c1 r2]; [done|]. destruct (is_digit c1); [|done].
    destruct (span_digits_suffix r2) as [H1 H2].
    destruct (span_digits r2) as [ds r']. cbn in *.
    split; [by do 3 apply suffix_cons_r|lia].
Qed.

Lemma match_number_ok s v r :
  match_number s = Some (v, r) ->
  json_ok v = true /\ r `suffix_of` s /\ (length r < length s)%nat.
Proof.
  unfold match_number.
  destruct (match_integer s) as [[[neg ids] r0]|] eqn:Hint; [|done].
  apply match_integer_suffix in Hint as [H1 H2].
  destruct (match_frac_suffix r0) as [H3 H4].
  destruct (match_frac r0) as [frac r1]. cbn in H3, H4.
  destruct (match_exp_suffix r1) as [H5 H6].
  destruct (match_exp r1) as [exp r2]. cbn in H5, H6.
  assert (r2 `suffix_of` s) by (etrans; [exact H5|]; by etrans).
  destruct frac, exp; intros [= <- <-];
    (split; [done || apply make_float_ok|]); (split; [done|lia]).
Qed.

Lemma scan_atom_ok s v r :
  scan_atom s = Scanned v r ->
  json_ok v = true /\ r `suffix_of` s /\ (length r < length s)%nat.
Proof.
  assert (Hkw : forall w x v' r',
            keyword w x s = Some (v', r') -> lit w <> [] ->
            v' = x /\ r' `suffix_of` s /\ (length r' < length s)%nat).
  { intros w x v' r'. unfold keyword.
    destruct (strip_prefix (lit w) s) as [r''|] eqn:Hp; [|done].
    intros [= <- <-] Hw. apply strip_prefix_suffix in Hp as [H1 H2].
    repeat split; [done|]. destruct (lit w); [done|]. cbn in H2. lia. }
  unfold scan_atom.
  destruct (keyword "null" _ s) as [[? ?]|] eqn:Hk1.
  { apply Hkw in Hk1 as (-> & ? & ?); [|done]. by intros [= <- <-]. }
  destruct (keyword "true" _ s) as [[? ?]|] eqn:Hk2.
  { apply Hkw in Hk2 as (-> & ? & ?); [|done]. by intros [= <- <-]. }
  destruct (keyword "false" _ s) as [[? ?]|] eqn:Hk3.
  { apply Hkw in Hk3 as (-> & ? & ?); [|done]. by intros [= <- <-]. }
  destruct (match_number s) as [[v' r']|] eqn:Hn.
  { apply match_number_ok in Hn. by intros [= <- <-]. }
  destruct (keyword "NaN" _ s) as [[? ?]|] eqn:Hk4.
  { apply Hkw in Hk4 as (-> & ? & ?); [|done]. by intros [= <- <-]. }
  destruct (keyword "Infinity" _ s) as [[? ?]|] eqn:Hk5.
  { apply Hkw in Hk5 as (-> & ? & ?); [|done]. by intros [= <- <-]. }
  destruct (keyword "-Infinity" _ s) as [[? ?]|] eqn:Hk6; [|done].
  apply Hkw in Hk6 as (-> & ? & ?); [|done]. by intros [= <- <-].
Qed.

Lemma dict_set_keys k v d :
  NoDup (List.map fst d) -> NoDup (List.map fst (dict_set k v d)).
Proof.
  induction d as [|[k' v'] d IH]; cbn.
  - intros _. apply NoDup_singleton.
  - intros [Hk' Hd]%NoDup_cons. destruct (str_eqb_spec k k') as [->|Hne]; cbn.
    + by apply NoDup_cons.
    + apply NoDup_cons. split; [|by apply IH].
      clear IH Hd. induction d as [|[k'' v''] d IHd]; cbn in *.
      * by apply not_elem_of_cons.
      * apply not_elem_of_cons in Hk' as [? ?].
        destruct (str_eqb_spec k k''); cbn; apply not_elem_of_cons; auto.
Qed.

Lemma dict_set_forall (P : str * json -> Prop) k v d :
  P (k, v) -> Forall P d -> Forall P (dict_set k v d).
Proof.
  intros Hkv. induction 1 as [|[k' v'] d Hx Hd IH]; cbn.
  - by constructor.
  - destruct (str_eqb k k'); by constructor.
Qed.

Lemma json_ok_obj d :
  Forall member_ok d -> NoDup (List.map fst d) -> json_ok (JObj d) = true.
Proof.
  intros Hall Hnd. cbn [json_ok]. apply andb_true_iff. split.
  - apply forallb_forall. intros kv Hkv%list_elem_of_In.
    rewrite Forall_forall in Hall. destruct (Hall kv Hkv) as [? ?].
    by apply andb_true_iff.
  - by apply bool_decide_eq_true.
Qed.

Lemma json_ok_obj_inv d :
  json_ok (JObj d) = true -> Forall member_ok d /\ NoDup (List.map fst d).
Proof.
  cbn [json_ok]. intros [Hall Hnd%bool_decide_eq_true]%andb_true_iff.
  split; [|done]. apply Forall_forall. intros kv Hkv%list_elem_of_In.
  rewrite forallb_forall in Hall. by apply andb_true_iff, Hall.
Qed.

Lemma dict_of_pairs_ok ps :
  Forall member_ok ps -> json_ok (JObj (dict_of_pairs ps)) = true.
Proof.
  intros Hps. unfold dict_of_pairs.
  enough (forall acc, Forall member_ok acc -> NoDup (List.map fst acc) ->
            let d := fold_left (fun d kv => dict_set (fst kv) (snd kv) d) ps acc in
            Forall member_ok d /\ NoDup (List.map fst d)) as H.
  { destruct (H [] ltac:(constructor) ltac:(constructor)).
    by apply json_ok_obj. }
  induction Hps as [|[k v] ps Hkv Hps IH]; intros acc Hacc Hnd; cbn; [done|].
  apply IH; [by apply dict_set_forall|by apply dict_set_keys].
Qed.

Lemma unread_cons r s c : r `suffix_of` s -> unread r (c :: s).
Proof.
  intros Hs. split; [by apply suffix_cons_r|].
  apply suffix_length in Hs. cbn. lia.
Qed.

Lemma unread_trans r s t : unread r s -> s `suffix_of` t -> unread r t.
Proof.
  intros [H1 H2] H3. split; [by etrans|]. apply suffix_length in H3. lia.
Qed.

Lemma suffix_unread r s t : r `suffix_of` s -> unread s t -> unread r t.
Proof.
  intros H1 [H2 H3]. split; [by etrans|]. apply suffix_length in H1. lia.
Qed.

Lemma skip_ws_is_suffix s : skip_ws s `suffix_of` s.
Proof. apply skip_ws_suffix. Qed.

Lemma scan_bind_scanned {A B} (x : scan A) (k : A -> str -> scan B) b r :
  scan_bind x k = Scanned b r ->
  exists a r', x = Scanned a r' /\ k a r' = Scanned b r.
Proof. destruct x as [a r'| |]; [|done..]. eauto. Qed.

(** Every value that the scanner returns from a decoded text is well
    formed, and the scanner has read at least one character. *)
Lemma scan_ok fuel :
  (forall s v r, text_ok s = true -> scan_once fuel s = Scanned v r ->
     json_ok v = true /\ unread r s)
  /\ (forall s ps r, text_ok s = true -> scan_members fuel s = Scanned ps r ->
        Forall member_ok ps /\ unread r s)
  /\ (forall s vs r, text_ok s = true -> scan_items fuel s = Scanned vs r ->
        Forall (fun v => json_ok v = true) vs /\ unread r s).
Proof.
  induction fuel as [|n (IHo & IHm & IHi)]; [by repeat split|].
  split; [|split].
  - (* scan_once *)
    intros s v r Hs. cbn [scan_once]. destruct s as [|c r0]; [done|].
    destruct (c =? QUOTE).
    { destruct (scanstring r0) as [[t r']|] eqn:Hscan; [|done].
      intros [= <- <-].
      apply text_ok_cons in Hs as [_ Hs].
      destruct (scanstring_ok _ r0 t r' (le_n _) Hs Hscan) as (? & ? & ? & _).
      split; [done|]. by apply unread_cons. }
    destruct (c =? ch "{").
    { pose proof (skip_ws_is_suffix r0) as Hws.
      destruct (skip_ws r0) as [|c1 r1]; [done|].
      assert (Hr1 : unread r1 (c :: r0)).
      { apply unread_cons. etrans; [|exact Hws]. by apply suffix_cons_r. }
      destruct (c1 =? ch "}"); [by intros [= <- <-]|].
      destruct (c1 =? QUOTE); [|done].
      intros (ps & r2 & Hm & [= <- <-])%scan_bind_scanned.
      apply IHm in Hm as [Hps Hr2].
      - split; [by apply dict_of_pairs_ok|].
        destruct Hr1. eapply unread_trans; [exact Hr2|done].
      - destruct Hr1. by eapply text_ok_suffix. }
    destruct (c =? ch "[").
    { pose proof (skip_ws_is_suffix r0) as Hws.
      destruct (skip_ws r0) as [|c1 r1]; [done|].
      destruct (c1 =? ch "]").
      { intros [= <- <-]. split; [done|].
        apply unread_cons. etrans; [|exact Hws]. by apply suffix_cons_r. }
      intros (vs & r2 & Hi & [= <- <-])%scan_bind_scanned.
      apply IHi in Hi as [Hvs Hr2].
      - split.
        + cbn [json_ok]. apply forallb_forall. intros x Hx%list_elem_of_In.
          rewrite Forall_forall in Hvs. by apply Hvs.
        + eapply unread_trans; [exact Hr2|]. by apply suffix_cons_r.
      - eapply text_ok_suffix; [|exact Hs]. by apply suffix_cons_r. }
    intros Hatom. by apply scan_atom_ok in Hatom as (? & ? & ?).
  - (* scan_members *)
    intros s ps r Hs. cbn [scan_members].
    destruct (scanstring s) as [[key r0]|] eqn:Hscan; [|done].
    destruct (scanstring_ok _ s key r0 (le_n _) Hs Hscan) as (Hkey & Hr0 & Hlt & _).
    pose proof (skip_ws_is_suffix r0) as Hws.
    destruct (skip_ws r0) as [|colon r1]; [done|].
    destruct (colon =? ch ":"); [|done].
    assert (Hr1 : r1 `suffix_of` s).
    { etrans; [|exact Hr0]. etrans; [|exact Hws]. by apply suffix_cons_r. }
    intros (v & r2 & Ho & Hrest)%scan_bind_scanned.
    pose proof (skip_ws_is_suffix r1) as Hws1.
    apply IHo in Ho as [Hv Hr2];
      [|eapply text_ok_suffix; [|exact Hs]; by etrans].
    assert (Hr2' : unread r2 s).
    { eapply unread_trans; [exact Hr2|]. by etrans. }
    pose proof (skip_ws_is_suffix r2) as Hws2.
    destruct (skip_ws r2) as [|c r3]; [done|].
    assert (Hr3 : unread r3 s).
    { eapply suffix_unread; [|exact Hr2'].
      etrans; [|exact Hws2]. by apply suffix_cons_r. }
    destruct (c =? ch "}").
    { injection Hrest as <- <-. split; [|done]. by repeat constructor. }
    destruct (c =? ch ","); [|done].
    pose proof (skip_ws_is_suffix r3) as Hws3.
    destruct (skip_ws r3) as [|q r4]; [done|].
    destruct (q =? QUOTE); [|done].
    apply scan_bind_scanned in Hrest as (ps' & r5 & Hm & [= <- <-]).
    assert (Hr4 : r4 `suffix_of` r3).
    { etrans; [|exact Hws3]. by apply suffix_cons_r. }
    apply IHm in Hm as [Hps Hr5].
    + split; [by constructor|].
      eapply unread_trans; [exact Hr5|]. destruct Hr3. by etrans.
    + eapply text_ok_suffix; [|exact Hs]. destruct Hr3. by etrans.
  - (* scan_items *)
    intros s vs r Hs. cbn [scan_items].
    intros (v & r0 & Ho & Hrest)%scan_bind_scanned.
    apply IHo in Ho as [Hv Hr0]; [|done].
    pose proof (skip_ws_is_suffix r0) as Hws.
    destruct (skip_ws r0) as [|c r1]; [done|].
    assert (Hr1 : unread r1 s).
    { eapply suffix_unread; [|exact Hr0].
      etrans; [|exact Hws]. by apply suffix_cons_r. }
    destruct (c =? ch "]").
    { injection Hrest as <- <-. split; [|done]. by repeat constructor. }
    destruct (c =? ch ","); [|done].
    apply scan_bind_scanned in Hrest as (vs' & r2 & Hi & [= <- <-]).
    pose proof (skip_ws_is_suffix r1) as Hws1.
    apply IHi in Hi as [Hvs Hr2].
    + split; [by constructor|].
      eapply unread_trans; [exact Hr2|]. destruct Hr1. by etrans.
    + eapply text_ok_suffix; [|exact Hs]. destruct Hr1. by etrans.
Qed.

(** *** The fuel of [json_loads] *)

Lemma scanstring_unread n : forall s t rest,
  (length s <= n)%nat -> scanstring s = Some (t, rest) -> unread rest s.
Proof.
  induction n as [|n IH]; intros s t rest Hlen Hscan;
    (destruct s as [|c r]; [done|]); [cbn in Hlen; lia|].
  rewrite scanstring_eq in Hscan. cbn [length] in Hlen.
  assert (Hpush : forall x r' k,
            (length r' + k = length r)%nat -> r' `suffix_of` r ->
            push x (scanstring r') = Some (t, rest) -> unread rest (c :: r)).
  { intros x r' k Hk Hsuf (t' & -> & Hscan')%push_some.
    apply IH in Hscan'; [|lia].
    eapply unread_trans; [exact Hscan'|]. by apply suffix_cons_r. }
  destruct (c =? 34).
  { injection Hscan as <- <-. by apply unread_cons. }
  destruct (c =? 92);
    [|destruct (c <? 32); [done|]; eapply (Hpush _ r 0%nat); [lia|done|done]].
  destruct r as [|e r1]; [done|].
  assert (Hsuf1 : r1 `suffix_of` e :: r1) by (by apply suffix_cons_r).
  destruct (e =? 117).
  - do 4 (destruct r1 as [|? r1]; [done|]).
    assert (Hsuf2 : forall a b c d, r1 `suffix_of` e :: a :: b :: c :: d :: r1)
      by (intros; by do 5 apply suffix_cons_r).
    destruct (hex4 _ _ _ _) as [uni|]; [|done].
    destruct (is_high_surrogate uni);
      [|eapply (Hpush _ r1 5%nat); [cbn; lia|apply Hsuf2|done]].
    destruct (low_escape r1) as [[lo r3]|] eqn:Hlow;
      [|eapply (Hpush _ r1 5%nat); [cbn; lia|apply Hsuf2|done]].
    destruct (low_escape_some _ _ _ Hlow) as (_ & _ & p & Hp & ->).
    eapply (Hpush _ r3 11%nat); [cbn; rewrite length_app; lia| |done].
    etrans; [|apply Hsuf2]. by apply suffix_app_r.
  - destruct (short_escape e) as [c'|]; [|done].
    eapply (Hpush _ r1 1%nat); [cbn; lia|done|done].
Qed.

Lemma scan_atom_unread s v r : scan_atom s = Scanned v r -> unread r s.
Proof. by intros (_ & ? & ?)%scan_atom_ok. Qed.

(** What the scanners leave unread is shorter than what they were given. *)
Lemma scan_unread fuel :
  (forall s v r, scan_once fuel s = Scanned v r -> unread r s)
  /\ (forall s ps r, scan_members fuel s = Scanned ps r -> unread r s)
  /\ (forall s vs r, scan_items fuel s = Scanned vs r -> unread r s).
Proof.
  induction fuel as [|n (IHo & IHm & IHi)]; [by repeat split|].
  split; [|split].
  - intros s v r. cbn [scan_once]. destruct s as [|c r0]; [done|].
    destruct (c =? QUOTE).
    { destruct (scanstring r0) as [[t r']|] eqn:Hscan; [|done].
      intros [= <- <-].
      apply (scanstring_unread _ _ _ _ (le_n _)) in Hscan as [? ?].
      by apply unread_cons. }
    pose proof (skip_ws_is_suffix r0) as Hws.
    destruct (c =? ch "{").
    { destruct (skip_ws r0) as [|c1 r1]; [done|].
      assert (Hr1 : r1 `suffix_of` r0).
      { etrans; [|exact Hws]. by apply suffix_cons_r. }
      destruct (c1 =? ch "}"); [intros [= <- <-]; by apply unread_cons|].
      destruct (c1 =? QUOTE); [|done].
      intros (ps & r2 & Hm%IHm & [= <- <-])%scan_bind_scanned.
      eapply unread_trans; [exact Hm|]. by apply suffix_cons_r. }
    destruct (c =? ch "[").
    { destruct (skip_ws r0) as [|c1 r1]; [done|].
      destruct (c1 =? ch "]").
      { intros [= <- <-]. apply unread_cons. etrans; [|exact Hws].
        by apply suffix_cons_r. }
      intros (vs & r2 & Hi%IHi & [= <- <-])%scan_bind_scanned.
      eapply unread_trans; [exact Hi|]. by apply suffix_cons_r. }
    apply scan_atom_unread.
  - intros s ps r. cbn [scan_members].
    destruct (scanstring s) as [[key r0]|] eqn:Hscan; [|done].
    apply (scanstring_unread _ _ _ _ (le_n _)) in Hscan.
    pose proof (skip_ws_is_suffix r0) as Hws.
    destruct (skip_ws r0) as [|colon r1]; [done|].
    destruct (colon =? ch ":"); [|done].
    assert (Hr1 : unread r1 s).
    { eapply suffix_unread; [|exact Hscan]. etrans; [|exact Hws].
      by apply suffix_cons_r. }
    intros (v & r2 & Ho%IHo & Hrest)%scan_bind_scanned.
    assert (Hr2 : unread r2 s).
    { eapply suffix_unread; [|exact Hr1].
      destruct Ho. etrans; [done|]. apply skip_ws_is_suffix. }
    pose proof (skip_ws_is_suffix r2) as Hws2.
    destruct (skip_ws r2) as [|c r3]; [done|].
    assert (Hr3 : unread r3 s).
    { eapply suffix_unread; [|exact Hr2]. etrans; [|exact Hws2].
      by apply suffix_cons_r. }
    destruct (c =? ch "}"); [by injection Hrest as <- <-|].
    destruct (c =? ch ","); [|done].
    pose proof (skip_ws_is_suffix r3) as Hws3.
    destruct (skip_ws r3) as [|q r4]; [done|].
    destruct (q =? QUOTE); [|done].
    apply scan_bind_scanned in Hrest as (ps' & r5 & Hm%IHm & [= <- <-]).
    eapply suffix_unread; [|exact Hr3]. destruct Hm.
    etrans; [done|]. etrans; [|exact Hws3]. by apply suffix_cons_r.
  - intros s vs r. cbn [scan_items].
    intros (v & r0 & Ho%IHo & Hrest)%scan_bind_scanned.
    pose proof (skip_ws_is_suffix r0) as Hws.
    destruct (skip_ws r0) as [|c r1]; [done|].
    assert (Hr1 : unread r1 s).
    { eapply suffix_unread; [|exact Ho]. etrans; [|exact Hws].
      by apply suffix_cons_r. }
    destruct (c =? ch "]"); [by injection Hrest as <- <-|].
    destruct (c =? ch ","); [|done].
    apply scan_bind_scanned in Hrest as (vs' & r2 & Hi%IHi & [= <- <-]).
    eapply suffix_unread; [|exact Hr1]. destruct Hi.
    etrans; [done|]. apply skip_ws_is_suffix.
Qed.

Lemma scan_bind_fuel {A B} (x : scan A) (k : A -> str -> scan B) :
  x <> Exhausted ->
  (forall a r, x = Scanned a r -> k a r <> Exhausted) ->
  scan_bind x k <> Exhausted.
Proof. destruct x; cbn; eauto. Qed.

(** Twice the length of the text is fuel enough: the scanners never stop
    for want of it. *)
Lemma scan_fuel fuel :
  (forall s, (2 * length s + 1 <= fuel)%nat -> scan_once fuel s <> Exhausted)
  /\ (forall s, (2 * length s + 1 <= fuel)%nat ->
        scan_members fuel s <> Exhausted)
  /\ (forall s, (2 * length s + 2 <= fuel)%nat ->
        scan_items fuel s <> Exhausted).
Proof.
  induction fuel as [|n (IHo & IHm & IHi)];
    [repeat split; intros s Hs; lia|].
  split; [|split].
  - intros s Hs. cbn [scan_once]. destruct s as [|c r0]; [done|].
    cbn [length] in Hs.
    destruct (c =? QUOTE); [by destruct (scanstring r0) as [[? ?]|]|].
    pose proof (proj2 (skip_ws_suffix r0)) as Hws.
    destruct (c =? ch "{").
    { destruct (skip_ws r0) as [|c1 r1]; [done|]. cbn [length] in Hws.
      destruct (c1 =? ch "}"); [done|]. destruct (c1 =? QUOTE); [|done].
      apply scan_bind_fuel; [apply IHm; lia|done]. }
    destruct (c =? ch "[").
    { destruct (skip_ws r0) as [|c1 r1] eqn:Hr; [done|].
      destruct (c1 =? ch "]"); [done|].
      apply scan_bind_fuel; [apply IHi; lia|done]. }
    assert (Hopt : forall x : option (json * str), scan_of_option x <> Exhausted)
      by (by intros [[? ?]|]).
    unfold scan_atom.
    repeat match goal with
      | |- context [match ?x with Some _ => _ | None => _ end] =>
          destruct x as [[? ?]|]
      end; apply Hopt.
  - intros s Hs. cbn [scan_members].
    destruct (scanstring s) as [[key r0]|] eqn:Hscan; [|done].
    apply (scanstring_unread _ _ _ _ (le_n _)) in Hscan as [_ Hlt].
    pose proof (proj2 (skip_ws_suffix r0)) as Hws.
    destruct (skip_ws r0) as [|colon r1]; [done|]. cbn [length] in Hws.
    destruct (colon =? ch ":"); [|done].
    pose proof (proj2 (skip_ws_suffix r1)) as Hws1.
    apply scan_bind_fuel; [apply IHo; lia|].
    intros v r2 [_ Hr2]%(proj1 (scan_unread n)).
    pose proof (proj2 (skip_ws_suffix r2)) as Hws2.
    destruct (skip_ws r2) as [|c r3]; [done|]. cbn [length] in Hws2.
    destruct (c =? ch "}"); [done|]. destruct (c =? ch ","); [|done].
    pose proof (proj2 (skip_ws_suffix r3)) as Hws3.
    destruct (skip_ws r3) as [|q r4]; [done|]. cbn [length] in Hws3.
    destruct (q =? QUOTE); [|done].
    apply scan_bind_fuel; [apply IHm; lia|done].
  - intros s Hs. cbn [scan_items].
    apply scan_bind_fuel; [apply IHo; lia|].
    intros v r [_ Hr]%(proj1 (scan_unread n)).
    pose proof (proj2 (skip_ws_suffix r)) as Hws.
    destruct (skip_ws r) as [|c r1]; [done|]. cbn [length] in Hws.
    destruct (c =? ch "]"); [done|]. destruct (c =? ch ","); [|done].
    pose proof (proj2 (skip_ws_suffix r1)) as Hws1.
    apply scan_bind_fuel; [apply IHi; lia|done].
Qed.

(** [json_loads] returns [None] only where the decoder rejects the text. *)
Lemma json_loads_fuel s :
  scan_once (S (2 * length s)) (skip_ws s) <> Exhausted.
Proof.
  apply (proj1 (scan_fuel _)). pose proof (proj2 (skip_ws_suffix s)). lia.
Qed.

Lemma json_loads_ok s v :
  text_ok s = true -> json_loads s = Some v -> json_ok v = true.
Proof.
  intros Hs. unfold json_loads.
  assert (Hscan : match scan_once (S (2 * length s)) (skip_ws s) with
                  | Scanned v' r =>
                      match skip_ws r with [] => Some v' | _ :: _ => None end
                  | _ => None
                  end = Some v -> json_ok v = true).
  { destruct (scan_once _ _) as [v' r| |] eqn:Hscan; [|done..].
    apply (proj1 (scan_ok _)) in Hscan as [Hv _].
    - destruct (skip_ws r); [|done]. by intros [= <-].
    - eapply text_ok_suffix; [apply skip_ws_is_suffix|done]. }
  destruct s as [|c s']; [done|]. destruct c as [|p]; [done|].
  do 16 (destruct p as [p|p|]; try done).
Qed.

(** ** The results of [_f] are written and read back unchanged *)

Lemma text_ok_app a b :
  text_ok a = true -> text_ok b = true -> text_ok (a ++ b) = true.
Proof. unfold text_ok. rewrite forallb_app. by intros -> ->. Qed.

Lemma replace_from_text_ok old new k s :
  text_ok new = true -> text_ok s = true ->
  text_ok (replace_from old new k s) = true.
Proof.
  intros Hnew. revert k. induction s as [|c s IH]; intros k Hs; [done|].
  pose proof Hs as [[? ?] Hs']%text_ok_cons. cbn [replace_from].
  destruct k; [|by apply IH]. destruct (startswith (c :: s) old).
  - apply text_ok_app; [done|by apply IH].
  - cbn. rewrite IH by done. cbn in Hs. by apply andb_true_iff in Hs as [-> _].
Qed.

Lemma clean_text_ok text : text_ok text = true -> text_ok (clean text) = true.
Proof.
  intros Ht. unfold clean, replace.
  repeat (apply replace_from_text_ok; [done|]). done.
Qed.

Lemma text_ok_str_ok s : text_ok s = true -> str_ok s = true.
Proof.
  induction s as [|c s IH]; [done|].
  intros [[Hmax Hc] Hs]%text_ok_cons.
  destruct (not_surrogate _ Hc). apply str_ok_cons; auto.
Qed.

Lemma exception_dict_ok msg :
  text_ok msg = true -> json_ok (exception_dict msg) = true.
Proof.
  intros Hm%text_ok_str_ok. apply json_ok_obj.
  - by repeat constructor.
  - apply NoDup_singleton.
Qed.

Lemma ask_model_ok o url w :
  oracle_ok o -> json_ok (fst (ask_model o url w)) = true.
Proof.
  intros [Hrun Herr]. unfold ask_model.
  specialize (Hrun (model_calls (trace w)) (render_from_template o TEMPLATE url)).
  destruct (run_sync o _ _) as [text|code msg|msg].
  - destruct (json_loads (clean text)) as [v|] eqn:Hv; cbn.
    + eapply json_loads_ok; [|exact Hv]. by apply clean_text_ok.
    + by apply exception_dict_ok.
  - by apply exception_dict_ok.
  - by apply exception_dict_ok.
Qed.

Lemma dict_set_ok k v d :
  str_ok k = true -> json_ok v = true -> json_ok (JObj d) = true ->
  json_ok (JObj (dict_set k v d)) = true.
Proof.
  intros Hk Hv [Hd Hnd]%json_ok_obj_inv. apply json_ok_obj.
  - by apply dict_set_forall.
  - by apply dict_set_keys.
Qed.

Lemma cache_add_ok url v w :
  cache_ok (cache w) -> has_url v -> json_ok v = true ->
  cache_ok (cache (cache_add url v w)).
Proof.
  intros Hinv Hv Hok. unfold cache_add.
  destruct (cache w !! url) eqn:Hu; cbn; [done|].
  intros k c. destruct (decide (url = k)) as [->|Hne].
  - rewrite lookup_insert_eq. by intros [= <-].
  - rewrite lookup_insert_ne by done. apply Hinv.
Qed.

Lemma store_ok url out w :
  text_ok url = true -> json_ok out = true -> cache_ok (cache w) ->
  cache_ok (cache (snd (store url out w)))
  /\ forall v, fst (store url out w) = Ok v -> json_ok v = true /\ has_url v.
Proof.
  intros Hurl%text_ok_str_ok Hout Hinv. destruct out; try done.
  cbn [store fst snd].
  assert (Hv : json_ok (JObj (dict_set (lit "url") (JStr url) d)) = true)
    by (by apply dict_set_ok).
  assert (Hu : has_url (JObj (dict_set (lit "url") (JStr url) d))).
  { eexists. split; [done|]. by rewrite dict_set_get. }
  split; [by apply cache_add_ok|]. by intros v [= <-].
Qed.

Lemma f_ok o url w :
  oracle_ok o -> cache_ok (cache w) -> text_ok url = true ->
  cache_ok (cache (snd (_f o url w)))
  /\ forall v, fst (_f o url w) = Ok v -> json_ok v = true /\ has_url v.
Proof.
  intros Ho Hinv Hurl.
  destruct (f_cases o url w) as [[Hhit ->]|[[_ ->]|(e & _ & ->)]];
    cbn [fst snd]; [| |done].
  - split; [done|]. intros v [= <-]. unfold cache_get in *.
    destruct (cache w !! url) as [c|] eqn:Hc; [|done].
    destruct (Hinv url c Hc). by split.
  - unfold recompute.
    pose proof (ask_model_ok o url (emit (Enrich url) w) Ho) as Hout.
    pose proof (ask_model_cache o url (emit (Enrich url) w)) as Hc.
    destruct (ask_model o url _) as [out w1]. cbn [fst snd] in *.
    apply store_ok; [done..|]. by rewrite Hc.
Qed.

Lemma iterate_ok o cols rs : forall w x_out w',
  oracle_ok o -> cache_ok (cache w) -> rows_ok cols rs ->
  iterate o cols rs w = (Ok x_out, w') ->
  Forall (fun v => json_ok v = true /\ has_url v) x_out
  /\ cache_ok (cache w').
Proof.
  induction rs as [|[i r] rs IH]; intros w x_out w' Ho Hinv Hrows;
    cbn [iterate].
  - by intros [= <- <-].
  - assert (Hrows' : rows_ok cols rs).
    { intros i' r' url Hin. apply (Hrows i' r' url). by right. }
    destruct (getitem cols r (lit "organization_website")) as [x|] eqn:Hx;
      [|done].
    destruct x; try (by apply IH).
    destruct (startswith s (lit "https://")); [|by apply IH].
    assert (Hs : text_ok s = true) by (apply (Hrows i r s); [by left|done]).
    destruct (f_ok o s w Ho Hinv Hs) as [Hc Hv].
    destruct (_f o s w) as [[out|] w1]; [|done]. cbn [fst snd] in *.
    destruct (iterate o cols rs w1) as [[outs|] w2] eqn:Hit; [|done].
    intros [= <- <-].
    destruct (IH w1 outs w2 Ho Hc Hrows' Hit) as [Houts Hw2].
    split; [|done]. constructor; [by apply Hv|done].
Qed.

Lemma iterate_round_trip o cols rs w x_out w' :
  oracle_ok o -> cache_ok (cache w) -> rows_ok cols rs ->
  iterate o cols rs w = (Ok x_out, w') ->
  json_loads (json_dumps (JArr x_out)) = Some (JArr x_out)
  /\ Forall has_url x_out.
Proof.
  intros Ho Hinv Hrows Hit.
  destruct (iterate_ok o cols rs w x_out w' Ho Hinv Hrows Hit) as [Hall _].
  split.
  - apply json_loads_dumps. cbn [json_ok]. apply forallb_forall.
    intros v Hv%list_elem_of_In. rewrite Forall_forall in Hall.
    by apply Hall.
  - eapply Forall_impl; [exact Hall|]. by intros v [_ ?].
Qed.

Lemma f_events o url w :
  exists evs, trace (snd (_f o url w)) = trace w ++ evs
              /\ Forall enrichment_event evs.
Proof.
  destruct (f_cases o url w) as [[_ ->]|[[_ ->]|(e & _ & ->)]]; cbn [snd].
  - exists [Enrich url]. by repeat constructor.
  - unfold recompute, ask_model.
    destruct (run_sync o _ _) as [text|code msg|msg]; cbn [snd].
    + destruct (json_loads (clean text)); rewrite store_trace; cbn;
        rewrite <- !app_assoc; eexists; (split; [done|]);
        by repeat constructor.
    + rewrite store_trace. case_bool_decide; cbn; rewrite <- !app_assoc;
        eexists; (split; [done|]); by repeat constructor.
    + rewrite store_trace. cbn. rewrite <- !app_assoc.
      eexists; (split; [done|]); by repeat constructor.
  - exists [Enrich url]. by repeat constructor.
Qed.

Lemma iterate_events o cols rs : forall w,
  exists evs, trace (snd (iterate o cols rs w)) = trace w ++ evs
              /\ Forall enrichment_event evs.
Proof.
  induction rs as [|[i r] rs IH]; intros w; cbn [iterate].
  - exists []. by rewrite app_nil_r.
  - destruct (getitem cols r (lit "organization_website")) as [x|];
      [|exists []; by rewrite app_nil_r].
    destruct x; try apply IH.
    destruct (startswith s (lit "https://")); [|apply IH].
    destruct (f_events o s w) as (evs1 & Htr1 & Hev1).
    destruct (_f o s w) as [[out|] w1]; cbn [snd] in *; [|by exists evs1].
    destruct (IH w1) as (evs2 & Htr2 & Hev2).
    exists (evs1 ++ evs2). split; [|by apply Forall_app].
    destruct (iterate o cols rs w1) as [[outs|] w2]; cbn [snd] in *;
      by rewrite Htr2, Htr1, <- app_assoc.
Qed.

Lemma cache_ok_empty : cache_ok ∅.
Proof. intros k v. by rewrite lookup_empty. Qed.

Lemma iterate_cache_ok o cols rs : forall w,
  oracle_ok o -> cache_ok (cache w) -> rows_ok cols rs ->
  cache_ok (cache (snd (iterate o cols rs w))).
Proof.
  induction rs as [|[i r] rs IH]; intros w Ho Hinv Hrows; cbn [iterate];
    [done|].
  assert (Hrows' : rows_ok cols rs).
  { intros i' r' url Hin. apply (Hrows i' r' url). by right. }
  destruct (getitem cols r (lit "organization_website")) as [x|] eqn:Hx;
    [|done].
  destruct x; try (by apply IH).
  destruct (startswith s (lit "https://")); [|by apply IH].
  assert (Hs : text_ok s = true) by (apply (Hrows i r s); [by left|done]).
  destruct (f_ok o s w Ho Hinv Hs) as [Hc _].
  destruct (_f o s w) as [[out|] w1]; [|done]. cbn [snd] in Hc.
  specialize (IH w1 Ho Hc Hrows').
  by destruct (iterate o cols rs w1) as [[outs|] w2].
Qed.

Lemma before_loop_cache_ok h settings :
  cache_ok (disk_cache h) -> cache_ok (cache (before_loop h settings)).
Proof.
  intros Hinv. unfold before_loop, _f_download_if_missing.
  by destruct (local_sheet h).
Qed.

Lemma before_loop_writes_nothing h settings path text :
  ~ In (WriteText path text) (trace (before_loop h settings)).
Proof.
  unfold before_loop, _f_download_if_missing, ensure_folders_exist.
  destruct (local_sheet h); cbn; intuition discriminate.
Qed.

(** A run of the script leaves a cache that the next run can start from:
    the hypothesis of C8 on the cache holds of every run of a sequence of
    runs that began with an empty cache. *)
Lemma main_cache_ok o h :
  oracle_ok o -> cache_ok (disk_cache h) ->
  rows_ok (columns (sheet_of h)) (rows (sheet_of h)) ->
  cache_ok (cache (snd (main o h))).
Proof.
  intros Ho Hinv Hrows. unfold main.
  destruct (load_settings _) as [settings|]; [|done].
  pose proof (iterate_cache_ok o _ _ _ Ho (before_loop_cache_ok h settings Hinv)
                Hrows) as Hc4.
  destruct (iterate _ _ _ _) as [[x_out|] w4]; cbn [snd] in *; [|done].
  destruct (json_loads _); [|done]. by destruct (report _ _ _).
Qed.




(** * Further properties of the script *)

(** ** The enrichment function and the cache *)

Lemma model_calls_enrich url w :
  model_calls (trace (emit (Enrich url) w)) = model_calls (trace w).
Proof.
  rewrite trace_emit, model_calls_app.
  change (model_calls [Enrich url]) with 0%nat. lia.
Qed.

Lemma f_miss o url w :
  cache_hit (cache_get url w) = Ok false ->
  _f o url w = recompute o url (emit (Enrich url) w).
Proof. intros Hmiss. unfold _f. by rewrite cache_get_emit, Hmiss. Qed.

Lemma ask_model_enrich o url w :
  ask_model o url (emit (Enrich url) w)
  = let prompt := render_from_template o TEMPLATE url in
    let w1 := emit (ModelCall prompt)
                (emit (Render TEMPLATE url) (emit (Enrich url) w)) in
    match run_sync o (model_calls (trace w)) prompt with
    | Output text =>
        match json_loads (clean text) with
        | Some v => (v, w1)
        | None => (exception_dict (decode_error o (clean text)), w1)
        end
    | HTTPError status_code msg =>
        (exception_dict msg,
         if bool_decide (status_code = 401%Z \/ status_code = 403%Z)
         then emit (Warn (lit "LLM model error (due to user permissions "
                            ++ msg ++ lit ")")) w1
         else w1)
    | OtherError msg => (exception_dict msg, w1)
    end.
Proof. unfold ask_model. by rewrite model_calls_enrich. Qed.

Lemma cache_get_some url w c : cache w !! url = Some c -> cache_get url w = c.
Proof. unfold cache_get. by intros ->. Qed.

Lemma cache_get_none url w : cache w !! url = None -> cache_get url w = JNull.
Proof. unfold cache_get. by intros ->. Qed.

Lemma f_hit o url w c :
  cache w !! url = Some c -> good_entry c ->
  _f o url w = (Ok c, emit (Enrich url) w).
Proof.
  intros Hc (d & -> & Hd & He). unfold _f.
  rewrite cache_get_emit, (cache_get_some _ _ _ Hc). unfold cache_hit.
  replace (truthy (JObj d)) with true by (by destruct d).
  by destruct He as [-> | ->].
Qed.

Lemma store_new url out w k v :
  cache (snd (store url out w)) !! k = Some v ->
  cache w !! k = Some v
  \/ (k = url /\ cache w !! url = None /\ url_is url v).
Proof.
  destruct out; cbn [store snd]; auto.
  unfold cache_add. destruct (cache w !! url) eqn:Hu; cbn; auto.
  destruct (decide (url = k)) as [<-|Hne].
  - rewrite lookup_insert_eq. intros [= <-]. right. split; [done|].
    split; [done|]. eexists. split; [done|]. by rewrite dict_set_get.
  - rewrite lookup_insert_ne by done. auto.
Qed.

Lemma f_new o url w k v :
  cache (snd (_f o url w)) !! k = Some v ->
  cache w !! k = Some v
  \/ (k = url /\ cache w !! url = None /\ url_is url v).
Proof.
  destruct (f_cases o url w) as [[_ ->]|[[_ ->]|(e & _ & ->)]]; cbn [snd];
    rewrite ?cache_emit; auto.
  unfold recompute.
  pose proof (ask_model_cache o url (emit (Enrich url) w)) as Hc.
  destruct (ask_model o url _) as [out w1]. cbn [snd] in Hc.
  intros Hk%store_new. by rewrite Hc in Hk.
Qed.

Lemma websites_cons cols i r rs u :
  In u (websites cols rs) -> In u (websites cols ((i, r) :: rs)).
Proof.
  intros Hin. cbn [websites].
  destruct (getitem cols r _) as [[]|]; try done.
  destruct (startswith _ _); [by right|done].
Qed.

Lemma websites_head cols i r rs url :
  getitem cols r (lit "organization_website") = Ok (JStr url) ->
  startswith url (lit "https://") = true ->
  websites cols ((i, r) :: rs) = url :: websites cols rs.
Proof. intros Hget Hs. cbn [websites]. by rewrite Hget, Hs. Qed.

Lemma iterate_lookup o cols rs : forall w k c,
  cache w !! k = Some c -> cache (snd (iterate o cols rs w)) !! k = Some c.
Proof.
  induction rs as [|[i r] rs IH]; intros w k c Hk; cbn [iterate]; [done|].
  destruct (getitem cols r _) as [x|]; [|done].
  destruct x; try (by apply IH).
  destruct (startswith s _); [|by apply IH].
  pose proof (f_lookup o s w k c Hk) as Hk1.
  destruct (_f o s w) as [[out|] w1]; cbn [snd] in *; [|done].
  specialize (IH w1 k c Hk1).
  by destruct (iterate o cols rs w1) as [[outs|] w2].
Qed.

Lemma iterate_new o cols rs : forall w k v,
  cache (snd (iterate o cols rs w)) !! k = Some v ->
  cache w !! k = Some v
  \/ (cache w !! k = None /\ In k (websites cols rs) /\ url_is k v).
Proof.
  induction rs as [|[i r] rs IH]; intros w k v; cbn [iterate]; [by left|].
  assert (Hrest : forall w',
    cache (snd (iterate o cols rs w')) !! k = Some v ->
    cache w' !! k = Some v
    \/ (cache w' !! k = None /\ In k (websites cols ((i, r) :: rs))
        /\ url_is k v)).
  { intros w' [?|(? & ? & ?)]%IH; [by left|]. right.
    split; [done|]. split; [|done]. by apply websites_cons. }
  destruct (getitem cols r (lit "organization_website")) as [x|] eqn:Hx;
    [|by left].
  destruct x; try apply Hrest.
  destruct (startswith s (lit "https://")) eqn:Hs; [|apply Hrest].
  rewrite (websites_head _ _ _ _ _ Hx Hs) in *.
  pose proof (f_new o s w k v) as Hnew.
  pose proof (f_lookup o s w k) as Hold.
  destruct (_f o s w) as [[out|] w1]; cbn [snd] in *.
  - intros Hk.
    assert (Hk1 : cache (snd (iterate o cols rs w1)) !! k = Some v)
      by (by destruct (iterate o cols rs w1) as [[?|?] ?]).
    apply IH in Hk1 as [Hk1|(Hnone & Hin & Hv)].
    + destruct (Hnew Hk1) as [?|(-> & ? & ?)]; [by left|].
      right. split; [done|]. split; [by left|done].
    + right. split; [|split; [by right|done]].
      destruct (cache w !! k) as [c|] eqn:Hc; [|done].
      by rewrite (Hold c) in Hnone.
  - intros [?|(-> & ? & ?)]%Hnew; [by left|].
    right. split; [done|]. split; [by left|done].
Qed.

Lemma before_loop_cache h settings :
  cache (before_loop h settings) = disk_cache h.
Proof.
  unfold before_loop, _f_download_if_missing. by destruct (local_sheet h).
Qed.

Lemma before_loop_model_calls h settings :
  model_calls (trace (before_loop h settings)) = 0%nat.
Proof.
  unfold before_loop, _f_download_if_missing. by destruct (local_sheet h).
Qed.

(** The cache of [main] is the cache that the loop leaves. *)
Lemma main_cache o h settings :
  load_settings (load_dotenv (dotenv h) (environ h)) = Ok settings ->
  cache (snd (main o h))
  = cache (snd (iterate o (columns (sheet_of h)) (rows (sheet_of h))
                  (before_loop h settings))).
Proof.
  intros Hs. unfold main. rewrite Hs.
  destruct (iterate _ _ _ _) as [[x_out|] w4]; cbn [snd]; [|done].
  destruct (json_loads _); [|done]. by destruct (report _ _ _).
Qed.

Lemma main_model_calls o h settings :
  load_settings (load_dotenv (dotenv h) (environ h)) = Ok settings ->
  model_calls (trace (snd (main o h)))
  = model_calls (trace (snd (iterate o (columns (sheet_of h))
                               (rows (sheet_of h)) (before_loop h settings)))).
Proof.
  intros Hs. unfold main. rewrite Hs.
  destruct (iterate _ _ _ _) as [[x_out|] w4]; cbn [snd]; [|done].
  destruct (json_loads _) as [x_dict|]; [destruct (report o x_dict _)|];
    cbn [snd];
    rewrite ?trace_emit, ?model_calls_app; unfold model_calls; cbn; lia.
Qed.

(** X1.  The first call of [_f] on a URL that has no cache entry stores
    what it returns: after the call the cache holds, for the URL, the very
    mapping that was returned, and the [url] of that mapping is the URL
    (also when the answer of the model had a [url] of its own). *)
Theorem X1_f_first_call_stores_its_result o url w r :
  cache w !! url = None ->
  fst (_f o url w) = Ok r ->
  cache (snd (_f o url w)) !! url = Some r /\ url_is url r.
Proof.
  intros Hc. rewrite f_miss by (by rewrite cache_get_none).
  unfold recompute.
  pose proof (ask_model_cache o url (emit (Enrich url) w)) as Hca.
  destruct (ask_model o url _) as [out w1]. cbn [snd] in Hca.
  destruct out; try done. cbn [store fst snd]. intros [= <-]. split.
  - unfold cache_add. rewrite Hca, cache_emit, Hc. cbn.
    by rewrite lookup_insert_eq.
  - eexists. split; [done|]. by rewrite dict_set_get.
Qed.

Lemma X1_witness :
  cache (snd (_f steady_oracle example_url empty_world)) !! example_url
  = Some example_result
  /\ url_is example_url example_result.
Proof.
  apply (X1_f_first_call_stores_its_result steady_oracle example_url empty_world
           example_result).
  - reflexivity.
  - vm_compute. reflexivity.
Defined.

(** X2.  An answer that is JSON but not an object: when [_f] reaches the
    model and the cleaned answer parses to a list, a string, a number,
    [true], [false] or [null], the assignment [out["url"] = url], which is
    outside the [try], raises [TypeError]: [_f] raises, and nothing is
    stored, the model having been called. *)
Theorem X2_f_non_object_answer_raises o url w text v :
  cache_hit (cache_get url w) = Ok false ->
  run_sync o (model_calls (trace w)) (render_from_template o TEMPLATE url)
  = Output text ->
  json_loads (clean text) = Some v ->
  (forall d, v <> JObj d) ->
  fst (_f o url w) = Raise TypeError
  /\ cache (snd (_f o url w)) = cache w
  /\ model_calls (trace (snd (_f o url w))) = S (model_calls (trace w)).
Proof.
  intros Hmiss Hrun Hv Hno. rewrite f_miss by done.
  split; [|split].
  - unfold recompute. rewrite ask_model_enrich. cbn zeta. rewrite Hrun, Hv.
    destruct v; try done. by destruct (Hno d).
  - unfold recompute. rewrite ask_model_enrich. cbn zeta. rewrite Hrun, Hv.
    destruct v; try done. by destruct (Hno d).
  - by rewrite recompute_model_calls, model_calls_enrich.
Qed.

Lemma X2_witness :
  fst (_f list_oracle example_url empty_world) = Raise TypeError
  /\ cache (snd (_f list_oracle example_url empty_world)) = cache empty_world
  /\ model_calls (trace (snd (_f list_oracle example_url empty_world)))
     = S (model_calls (trace empty_world)).
Proof.
  apply (X2_f_non_object_answer_raises list_oracle example_url empty_world
           (quoted "['Non-profit', 'US', 0.9]")
           (JArr [JStr (lit "Non-profit"); JStr (lit "US");
                  JFloat (Fdec false 9 (-1))])).
  - vm_compute. reflexivity.
  - reflexivity.
  - vm_compute. reflexivity.
  - intros d. discriminate.
Defined.

(** X3.  A cached value that is true but is no mapping (a string, a number,
    a list): [c.get] raises [AttributeError] before anything else is done;
    the model is not called and the cache is left as it is. *)
Theorem X3_f_cached_non_mapping_raises o url w c :
  cache w !! url = Some c ->
  truthy c = true ->
  (forall d, c <> JObj d) ->
  _f o url w = (Raise AttributeError, emit (Enrich url) w).
Proof.
  intros Hc Ht Hno. unfold _f.
  rewrite cache_get_emit, (cache_get_some _ _ _ Hc). unfold cache_hit.
  rewrite Ht.
  destruct c; try done. by destruct (Hno d).
Qed.

Lemma X3_witness :
  _f steady_oracle example_url string_world
  = (Raise AttributeError, emit (Enrich example_url) string_world).
Proof.
  apply (X3_f_cached_non_mapping_raises steady_oracle example_url string_world
           (JStr (lit "Non-profit"))).
  - vm_compute. reflexivity.
  - vm_compute. reflexivity.
  - intros d. discriminate.
Defined.

(** X4.  The failures that pass without a warning: when [_f] reaches the
    model and the call raises an error that is no [ModelHTTPError], or a
    [ModelHTTPError] with a status code other than 401 and 403, or the
    cleaned answer is not JSON, then [_f] returns the mapping made of
    [exception] (the text of the error) and [url], and does nothing but
    render the prompt and call the model: no warning is given. *)
Theorem X4_f_failure_without_warning o url w msg :
  cache_hit (cache_get url w) = Ok false ->
  let prompt := render_from_template o TEMPLATE url in
  let answer := run_sync o (model_calls (trace w)) prompt in
  (answer = OtherError msg
   \/ (exists status_code,
         answer = HTTPError status_code msg
         /\ status_code <> 401%Z /\ status_code <> 403%Z)
   \/ (exists text,
         answer = Output text /\ json_loads (clean text) = None
         /\ msg = decode_error o (clean text))) ->
  fst (_f o url w)
  = Ok (JObj [(lit "exception", JStr msg); (lit "url", JStr url)])
  /\ trace (snd (_f o url w))
     = trace w ++ [Enrich url; Render TEMPLATE url; ModelCall prompt].
Proof.
  intros Hmiss prompt answer Hans. rewrite f_miss by done.
  unfold recompute. rewrite ask_model_enrich. cbn zeta.
  fold prompt. fold answer.
  destruct Hans as [->|[(code & -> & H401 & H403)|(text & -> & -> & ->)]].
  - cbn [exception_dict store fst snd]. rewrite cache_add_trace. cbn.
    by rewrite <- !app_assoc.
  - rewrite bool_decide_eq_false_2 by (intros [?|?]; done).
    cbn [exception_dict store fst snd]. rewrite cache_add_trace. cbn.
    by rewrite <- !app_assoc.
  - cbn [exception_dict store fst snd]. rewrite cache_add_trace. cbn.
    by rewrite <- !app_assoc.
Qed.

Lemma X4_witness :
  fst (_f commenting_oracle example_url empty_world)
  = Ok (JObj [(lit "exception", JStr (lit "Expecting ',' delimiter"));
              (lit "url", JStr example_url)])
  /\ trace (snd (_f commenting_oracle example_url empty_world))
     = trace empty_world
       ++ [Enrich example_url; Render TEMPLATE example_url;
           ModelCall (render_from_template commenting_oracle TEMPLATE
                        example_url)].
Proof.
  apply (X4_f_failure_without_warning commenting_oracle example_url empty_world
           (lit "Expecting ',' delimiter")).
  - vm_compute. reflexivity.
  - right. right. exists commented_answer.
    split; [reflexivity|]. split; vm_compute; reflexivity.
Defined.

(** X5.  A failure that is cached is never repaired: as long as the entry
    of a URL holds an [exception] that is not [null], every call of [_f] on
    the URL calls the model again, and the entry stays what it was, also
    after a call that the model answered. *)
Theorem X5_failed_entry_is_retried_at_every_call o url d e n : forall w,
  cache w !! url = Some (JObj d) ->
  dict_get (lit "exception") d = Some e ->
  e <> JNull ->
  cache (calls o url n w) !! url = Some (JObj d)
  /\ model_calls (trace (calls o url n w)) = (n + model_calls (trace w))%nat.
Proof.
  induction n as [|n IH]; intros w Hc He Hne; cbn [calls]; [done|].
  assert (Hf : _f o url w = recompute o url (emit (Enrich url) w)).
  { apply f_miss. rewrite (cache_get_some _ _ _ Hc). unfold cache_hit.
    replace (truthy (JObj d)) with true
      by (destruct d; [discriminate|done]).
    rewrite He. by destruct e. }
  destruct (IH (snd (_f o url w))) as [Hc' Hn]; [by apply f_lookup|done..|].
  split; [done|].
  rewrite Hn, Hf, recompute_model_calls, model_calls_enrich. lia.
Qed.

Lemma X5_witness :
  cache (calls flaky_oracle example_url 3 failed_world) !! example_url
  = Some forbidden_result
  /\ model_calls (trace (calls flaky_oracle example_url 3 failed_world))
     = (3 + model_calls (trace failed_world))%nat.
Proof.
  apply (X5_failed_entry_is_retried_at_every_call flaky_oracle example_url
           [(lit "exception", JStr (lit "status_code: 403"));
            (lit "url", JStr example_url)]
           (JStr (lit "status_code: 403")) 3 failed_world).
  - vm_compute. reflexivity.
  - vm_compute. reflexivity.
  - discriminate.
Defined.

Lemma main_lookup o h k c :
  disk_cache h !! k = Some c -> cache (snd (main o h)) !! k = Some c.
Proof.
  intros Hk. unfold main.
  destruct (load_settings _) as [settings|] eqn:Hs; [|done].
  pose proof (iterate_lookup o (columns (sheet_of h)) (rows (sheet_of h))
                (before_loop h settings) k c) as Hit.
  rewrite before_loop_cache in Hit. specialize (Hit Hk).
  destruct (iterate _ _ _ _) as [[x_out|] w4]; cbn [snd] in *; [|done].
  destruct (json_loads _); [|done]. by destruct (report _ _ _).
Qed.

Lemma main_new o h k v :
  cache (snd (main o h)) !! k = Some v ->
  disk_cache h !! k = None ->
  In k (websites (columns (sheet_of h)) (rows (sheet_of h))) /\ url_is k v.
Proof.
  intros Hk Hnone.
  destruct (load_settings (load_dotenv (dotenv h) (environ h)))
    as [settings|] eqn:Hs.
  - rewrite (main_cache o h settings Hs) in Hk.
    apply iterate_new in Hk as [Hk|(_ & ? & ?)]; [|done].
    rewrite before_loop_cache in Hk. congruence.
  - unfold main in Hk. rewrite Hs in Hk. cbn in Hk. congruence.
Qed.

(** X6.  A run of the script never changes and never deletes an entry of
    the disk cache: whatever was cached when the script started is cached,
    unchanged, when it ends. *)
Theorem X6_main_keeps_cache_entries o h : disk_cache h ⊆ cache (snd (main o h)).
Proof. apply map_subseteq_spec. intros k c. apply main_lookup. Qed.

(** X7.  What a run adds to the disk cache: an entry that was not there
    when the script started is stored under a website of the sheet that
    starts with ["https://"], and is a mapping whose [url] is that
    website. *)
Theorem X7_main_adds_only_websites o h k v :
  cache (snd (main o h)) !! k = Some v ->
  disk_cache h !! k = None ->
  In k (websites (columns (sheet_of h)) (rows (sheet_of h))) /\ url_is k v.
Proof. apply main_new. Qed.

Lemma X7_witness :
  In example_url (websites (columns (sheet_of example_host))
                    (rows (sheet_of example_host)))
  /\ url_is example_url forbidden_result.
Proof.
  apply (X7_main_adds_only_websites flaky_oracle example_host).
  - vm_compute. reflexivity.
  - reflexivity.
Defined.

Lemma f_cache_keyed o url w :
  cache_keyed (cache w) -> cache_keyed (cache (snd (_f o url w))).
Proof.
  intros Hinv k v [Hk|(-> & _ & Hv)]%f_new; [by apply Hinv|done].
Qed.

Lemma iterate_cache_keyed o cols rs w :
  cache_keyed (cache w) -> cache_keyed (cache (snd (iterate o cols rs w))).
Proof.
  intros Hinv k v [Hk|(_ & _ & Hv)]%iterate_new; [by apply Hinv|done].
Qed.

(** X8.  The invariant of the cache: if every entry of the disk cache is a
    mapping whose [url] is the key under which it is stored, the same is
    true when the script ends. *)
Theorem X8_main_keeps_cache_keyed o h :
  cache_keyed (disk_cache h) -> cache_keyed (cache (snd (main o h))).
Proof.
  intros Hinv k v Hk.
  destruct (disk_cache h !! k) as [c|] eqn:Hc.
  - rewrite (main_lookup o h k c Hc) in Hk. injection Hk as <-.
    by apply Hinv.
  - by destruct (main_new o h k v Hk Hc).
Qed.

Lemma X8_witness :
  cache_keyed (cache (snd (main flaky_oracle failed_host))).
Proof.
  apply (X8_main_keeps_cache_keyed flaky_oracle failed_host).
  intros k v Hk. destruct (decide (k = example_url)) as [->|Hne].
  - vm_compute in Hk. injection Hk as <-.
    eexists. split; [reflexivity|]. vm_compute. reflexivity.
  - cbn in Hk. rewrite lookup_singleton_ne in Hk by done. discriminate.
Defined.

(** ** The loop over the rows *)

Lemma iterate_app o cols rs1 rs2 : forall w,
  iterate o cols (rs1 ++ rs2) w
  = match iterate o cols rs1 w with
    | (Ok xs, w1) =>
        match iterate o cols rs2 w1 with
        | (Ok ys, w2) => (Ok (xs ++ ys), w2)
        | (Raise e, w2) => (Raise e, w2)
        end
    | (Raise e, w1) => (Raise e, w1)
    end.
Proof.
  induction rs1 as [|[i r] rs1 IH]; intros w; cbn [iterate app].
  - by destruct (iterate o cols rs2 w) as [[ys|] w2].
  - destruct (getitem cols r _) as [x|]; [|done].
    destruct x; try apply IH.
    destruct (startswith s _); [|apply IH].
    destruct (_f o s w) as [[out|] w1]; [|done].
    rewrite IH. destruct (iterate o cols rs1 w1) as [[xs|] w2]; [|done].
    by destruct (iterate o cols rs2 w2) as [[ys|] w3].
Qed.

(** X9.  The loop has no [try] of its own: when [_f] raises on the website
    of a row, the loop ends there with that exception; the rows that follow
    are not visited, and the results of the rows before are dropped. *)
Theorem X9_iterate_stops_at_first_raise o cols rs1 i r rs2 w x_out w1 url e :
  iterate o cols rs1 w = (Ok x_out, w1) ->
  getitem cols r (lit "organization_website") = Ok (JStr url) ->
  startswith url (lit "https://") = true ->
  fst (_f o url w1) = Raise e ->
  iterate o cols (rs1 ++ (i, r) :: rs2) w = (Raise e, snd (_f o url w1)).
Proof.
  intros H1 Hget Hs Hf. rewrite iterate_app, H1. cbn [iterate].
  rewrite Hget, Hs. destruct (_f o url w1) as [[out|e'] w2]; [done|].
  cbn in Hf. by injection Hf as ->.
Qed.

Lemma X9_witness :
  iterate list_oracle (columns example_sheet)
    ([] ++ (0%Z, [JStr example_url; JStr (lit "Association"); JStr (lit "US")])
        :: [(3%Z, [JStr other_url; nan; JStr (lit "DE")])])
    empty_world
  = (Raise TypeError, snd (_f list_oracle example_url empty_world)).
Proof.
  apply (X9_iterate_stops_at_first_raise list_oracle (columns example_sheet) []
           0%Z [JStr example_url; JStr (lit "Association"); JStr (lit "US")]
           [(3%Z, [JStr other_url; nan; JStr (lit "DE")])]
           empty_world [] empty_world example_url TypeError).
  - reflexivity.
  - vm_compute. reflexivity.
  - vm_compute. reflexivity.
  - vm_compute. reflexivity.
Defined.

Lemma before_loop_writes_no_output h settings :
  Forall (fun ev => writes_output ev = false) (trace (before_loop h settings)).
Proof.
  unfold before_loop, _f_download_if_missing, ensure_folders_exist.
  destruct (local_sheet h); cbn; by repeat constructor.
Qed.

Lemma enrichment_event_no_output evs :
  Forall enrichment_event evs ->
  Forall (fun ev => writes_output ev = false) evs.
Proof. intros Hevs. eapply Forall_impl; [exact Hevs|]. by intros []. Qed.

(** X10.  When the loop over the rows raises, the script ends with that
    exception and has written neither the JSON file nor the CSV report:
    the results that the loop had collected are lost (but for what [_f]
    put in the cache). *)
Theorem X10_main_writes_nothing_when_loop_raises o h settings e :
  load_settings (load_dotenv (dotenv h) (environ h)) = Ok settings ->
  fst (iterate o (columns (sheet_of h)) (rows (sheet_of h))
         (before_loop h settings)) = Raise e ->
  fst (main o h) = Raise e
  /\ Forall (fun ev => writes_output ev = false) (trace (snd (main o h))).
Proof.
  intros Hs Hit. unfold main. rewrite Hs.
  destruct (iterate_events o (columns (sheet_of h)) (rows (sheet_of h))
              (before_loop h settings)) as (evs & Htr & Hevs).
  destruct (iterate _ _ _ _) as [[x_out|e'] w4]; [done|].
  cbn [fst snd] in *. injection Hit as ->. split; [done|].
  rewrite Htr. apply Forall_app. split.
  - apply before_loop_writes_no_output.
  - by apply enrichment_event_no_output.
Qed.

Lemma X10_witness :
  fst (main list_oracle example_host) = Raise TypeError
  /\ Forall (fun ev => writes_output ev = false)
       (trace (snd (main list_oracle example_host))).
Proof.
  apply (X10_main_writes_nothing_when_loop_raises list_oracle example_host
           example_settings TypeError).
  - vm_compute. reflexivity.
  - vm_compute. reflexivity.
Defined.

Lemma iterate_model_calls o cols rs : forall w,
  (model_calls (trace (snd (iterate o cols rs w)))
   <= model_calls (trace w) + length (websites cols rs))%nat.
Proof.
  induction rs as [|[i r] rs IH]; intros w; cbn [iterate websites];
    [cbn; lia|].
  destruct (getitem cols r _) as [x|]; [|cbn [snd]; lia].
  destruct x; try apply IH.
  destruct (startswith s _); [|apply IH].
  pose proof (f_model_calls o s w) as Hf.
  destruct (_f o s w) as [[out|] w1]; cbn [snd length] in *; [|lia].
  specialize (IH w1).
  destruct (iterate o cols rs w1) as [[outs|] w2]; cbn [snd] in *; lia.
Qed.

(** X11.  A run of the script calls the model at most once for each row of
    the sheet whose website starts with ["https://"]. *)
Theorem X11_main_calls_model_at_most_once_per_row o h :
  (model_calls (trace (snd (main o h)))
   <= length (websites (columns (sheet_of h)) (rows (sheet_of h))))%nat.
Proof.
  destruct (load_settings (load_dotenv (dotenv h) (environ h)))
    as [settings|] eqn:Hs.
  - rewrite (main_model_calls o h settings Hs).
    pose proof (iterate_model_calls o (columns (sheet_of h))
                  (rows (sheet_of h)) (before_loop h settings)) as Hle.
    by rewrite before_loop_model_calls in Hle.
  - unfold main. rewrite Hs. cbn. unfold model_calls. cbn. lia.
Qed.

Lemma iterate_warm o cols rs : forall w,
  (forall u, In u (websites cols rs) ->
             exists c, cache w !! u = Some c /\ good_entry c) ->
  cache (snd (iterate o cols rs w)) = cache w
  /\ model_calls (trace (snd (iterate o cols rs w))) = model_calls (trace w).
Proof.
  induction rs as [|[i r] rs IH]; intros w Hwarm; cbn [iterate]; [done|].
  assert (Hrest : forall u, In u (websites cols rs) ->
                    exists c, cache w !! u = Some c /\ good_entry c).
  { intros u Hu. apply Hwarm. by apply websites_cons. }
  destruct (getitem cols r (lit "organization_website")) as [x|] eqn:Hx;
    [|done].
  destruct x; try (by apply IH).
  destruct (startswith s (lit "https://")) eqn:Hs; [|by apply IH].
  destruct (Hwarm s) as (c & Hc & Hgood).
  { rewrite (websites_head _ _ _ _ _ Hx Hs). by left. }
  rewrite (f_hit o s w c Hc Hgood).
  destruct (IH (emit (Enrich s) w) Hrest) as [Hcache Hcalls].
  rewrite model_calls_enrich in Hcalls.
  by destruct (iterate o cols rs (emit (Enrich s) w)) as [[outs|] w2].
Qed.

(** X12.  A run on a warm cache: when every website of the sheet that
    starts with ["https://"] has a cache entry that is a non-empty mapping
    without [exception] (or with [exception] set to [null]), the script
    does not call the model at all and leaves the cache as it found it. *)
Theorem X12_main_on_warm_cache_calls_no_model o h :
  (forall u, In u (websites (columns (sheet_of h)) (rows (sheet_of h))) ->
             exists c, disk_cache h !! u = Some c /\ good_entry c) ->
  model_calls (trace (snd (main o h))) = 0%nat
  /\ cache (snd (main o h)) = disk_cache h.
Proof.
  intros Hwarm.
  destruct (load_settings (load_dotenv (dotenv h) (environ h)))
    as [settings|] eqn:Hs.
  - rewrite (main_model_calls o h settings Hs), (main_cache o h settings Hs).
    destruct (iterate_warm o (columns (sheet_of h)) (rows (sheet_of h))
                (before_loop h settings)) as [-> ->].
    + by rewrite before_loop_cache.
    + by rewrite before_loop_model_calls, before_loop_cache.
  - unfold main. by rewrite Hs.
Qed.

Lemma X12_witness :
  model_calls (trace (snd (main flaky_oracle warm_host))) = 0%nat
  /\ cache (snd (main flaky_oracle warm_host)) = disk_cache warm_host.
Proof.
  apply (X12_main_on_warm_cache_calls_no_model flaky_oracle warm_host).
  intros u Hu. vm_compute in Hu.
  destruct Hu as [<-|[<-|[]]].
  - exists example_result. split; [vm_compute; reflexivity|].
    eexists. split; [reflexivity|]. split; [discriminate|].
    left. vm_compute. reflexivity.
  - exists other_result. split; [vm_compute; reflexivity|].
    eexists. split; [reflexivity|]. split; [discriminate|].
    left. vm_compute. reflexivity.
Defined.

Lemma f_result_url o url w r :
  cache_keyed (cache w) -> fst (_f o url w) = Ok r -> url_is url r.
Proof.
  intros Hinv.
  destruct (f_cases o url w) as [[Hhit ->]|[[_ ->]|(e & _ & ->)]];
    cbn [fst]; [| |done].
  - intros [= <-]. unfold cache_get in *.
    destruct (cache w !! url) as [c|] eqn:Hc; [|done]. by apply Hinv.
  - unfold recompute. destruct (ask_model o url _) as [out w1].
    destruct out; try done. cbn [store fst]. intros [= <-].
    eexists. split; [done|]. by rewrite dict_set_get.
Qed.

Lemma iterate_results o cols rs : forall w x_out w',
  cache_keyed (cache w) ->
  iterate o cols rs w = (Ok x_out, w') ->
  Forall2 url_is (websites cols rs) x_out.
Proof.
  induction rs as [|[i r] rs IH]; intros w x_out w' Hinv;
    cbn [iterate websites].
  - intros [= <- _]. constructor.
  - destruct (getitem cols r _) as [x|]; [|done].
    destruct x; try (by apply IH).
    destruct (startswith s _); [|by apply IH].
    pose proof (f_result_url o s w) as Hr.
    pose proof (f_cache_keyed o s w Hinv) as Hinv1.
    destruct (_f o s w) as [[out|] w1]; [|done]. cbn [fst snd] in *.
    destruct (iterate o cols rs w1) as [[outs|] w2] eqn:Hit; [|done].
    intros [= <- <-]. constructor; [by apply Hr|]. by eapply IH.
Qed.

(** What the script has written when a [WriteText] is in its trace. *)
Lemma main_write_text o h path text :
  In (WriteText path text) (trace (snd (main o h))) ->
  exists settings x_out w4,
    load_settings (load_dotenv (dotenv h) (environ h)) = Ok settings
    /\ iterate o (columns (sheet_of h)) (rows (sheet_of h))
         (before_loop h settings) = (Ok x_out, w4)
    /\ path = OUTPUT_FOLDER settings ++ lit "/orgs_classified.json"
    /\ text = json_dumps (JArr x_out).
Proof.
  unfold main.
  destruct (load_settings _) as [settings|]; [|done].
  destruct (iterate_events o (columns (sheet_of h)) (rows (sheet_of h))
              (before_loop h settings)) as (evs & Htr & Hevs).
  assert (Hw4 : ~ In (WriteText path text)
                  (trace (snd (iterate o (columns (sheet_of h))
                                 (rows (sheet_of h))
                                 (before_loop h settings))))).
  { rewrite Htr, in_app_iff.
    intros [Hin|Hin]; [by eapply before_loop_writes_nothing|].
    rewrite Forall_forall in Hevs. by apply list_elem_of_In, Hevs in Hin. }
  destruct (iterate _ _ _ _) as [[x_out|] w4] eqn:Hit; cbn [fst snd] in *;
    [|done].
  intros Hin. exists settings, x_out, w4.
  assert (Hin' : In (WriteText path text)
                   (trace w4 ++ [WriteText
                                   (OUTPUT_FOLDER settings
                                      ++ lit "/orgs_classified.json")
                                   (json_dumps (JArr x_out))])).
  { destruct (json_loads _) as [x_dict|]; [|done].
    destruct (report o x_dict _); [|done].
    cbn [snd trace emit] in Hin. rewrite in_app_iff in Hin.
    by destruct Hin as [?|[?|[]]]. }
  rewrite in_app_iff in Hin'.
  by destruct Hin' as [?|[[= <- <-]|[]]].
Qed.

(** X13.  The JSON file lists the websites in the order of the sheet: when
    every entry of the disk cache is a mapping whose [url] is its key, the
    text that the script writes as its JSON file is the dump of a list that
    has, for each row whose website starts with ["https://"], in the order
    of the rows and with repetitions, one mapping whose [url] is that
    website. *)
Theorem X13_json_file_follows_the_sheet o h path text :
  cache_keyed (disk_cache h) ->
  In (WriteText path text) (trace (snd (main o h))) ->
  exists x_out,
    text = json_dumps (JArr x_out)
    /\ Forall2 url_is (websites (columns (sheet_of h)) (rows (sheet_of h)))
         x_out.
Proof.
  intros Hinv (settings & x_out & w4 & _ & Hit & _ & ->)%main_write_text.
  exists x_out. split; [done|].
  eapply iterate_results; [|exact Hit]. by rewrite before_loop_cache.
Qed.

Lemma X13_witness :
  exists x_out,
    json_dumps (JArr example_x_out) = json_dumps (JArr x_out)
    /\ Forall2 url_is
         (websites (columns (sheet_of example_host))
            (rows (sheet_of example_host)))
         x_out.
Proof.
  apply (X13_json_file_follows_the_sheet flaky_oracle example_host
           (lit ".data/outputs/orgs_classified.json")
           (json_dumps (JArr example_x_out))).
  - intros k v Hk. vm_compute in Hk. discriminate.
  - vm_compute. do 12 right. left. reflexivity.
Defined.




Lemma select_raises names df e :
  select names df = Raise e -> exists key, e = KeyError key.
Proof.
  unfold select.
  assert (Hsel : forall e', select_indices (columns df) names = Raise e' ->
                            exists key, e' = KeyError key).
  { induction names as [|n names IH]; cbn; intros e'; [done|].
    destruct (index_of n (columns df)); [|intros [= <-]; eauto].
    destruct (select_indices (columns df) names) as [js|e'']; [done|].
    intros [= <-]. by apply IH. }
  destruct (select_indices (columns df) names) as [js|e']; [done|].
  intros [= <-]. by apply Hsel.
Qed.



(** ** The clean-up of the answer *)

Lemma strip_prefix_some p : forall s r,
  strip_prefix p s = Some r -> s = p ++ r.
Proof.
  induction p as [|a p IH]; intros [|b s] r; cbn; try done.
  - by intros [= <-].
  - by intros [= <-].
  - destruct (N.eqb_spec a b) as [<-|]; [|done].
    intros Hr. by rewrite (IH _ _ Hr).
Qed.

Lemma startswith_app p r : startswith (p ++ r) p = true.
Proof. unfold startswith. by rewrite strip_prefix_app. Qed.

Lemma startswith_length s p : startswith s p = true -> (length p <= length s)%nat.
Proof.
  unfold startswith. destruct (strip_prefix p s) as [r|] eqn:Hr; [|done].
  intros _. rewrite (strip_prefix_some _ _ _ Hr), length_app. lia.
Qed.

Lemma contains_length s p : contains s p = true -> (length p <= length s)%nat.
Proof.
  induction s as [|c s IH]; cbn [contains].
  - rewrite orb_false_r. apply startswith_length.
  - intros [Hs|Hc]%orb_true_iff.
    + by apply startswith_length.
    + cbn [length]. specialize (IH Hc). lia.
Qed.

Lemma contains_cons c s p :
  contains (c :: s) p = false ->
  startswith (c :: s) p = false /\ contains s p = false.
Proof. cbn [contains]. by intros [? ?]%orb_false_iff. Qed.

(** A prefix of [s ++ t] that is not longer than [s] is a prefix of [s]. *)
Lemma startswith_app_long p : forall s t,
  (length p <= length s)%nat ->
  startswith (s ++ t) p = startswith s p.
Proof.
  unfold startswith.
  induction p as [|a p IH]; intros [|b s] t; cbn; try done; try lia.
  intros Hlen. destruct (a =? b); [|done]. apply IH. lia.
Qed.

(** A prefix of [s ++ c :: t] in which [c] does not occur is a prefix of
    [s]. *)
Lemma startswith_app_stop p c : forall s t,
  ~ In c p ->
  startswith (s ++ c :: t) p = startswith s p.
Proof.
  unfold startswith.
  induction p as [|a p IH]; intros [|b s] t Hc; cbn; try done.
  - destruct (N.eqb_spec a c) as [->|]; [|done]. destruct Hc. by left.
  - destruct (a =? b); [|done]. apply IH. intros Hin. apply Hc. by right.
Qed.

Lemma replace_from_in old new c : forall s k,
  In c (replace_from old new k s) -> In c s \/ In c new.
Proof.
  induction s as [|x s IH]; intros k; cbn [replace_from]; [by left|].
  destruct k as [|k].
  - destruct (startswith (x :: s) old).
    + rewrite in_app_iff. intros [?|[?|?]%IH]; auto. left. by right.
    + intros [->|[?|?]%IH]; auto; left; [by left|by right].
  - intros [?|?]%IH; auto. left. by right.
Qed.

(** [s.replace(c, '')] for a single character [c] drops every [c]. *)
Lemma replace_char c s :
  replace s [c] [] = List.filter (fun x => negb (c =? x)) s.
Proof.
  unfold replace. induction s as [|x s IH]; [done|].
  cbn [replace_from List.filter]. unfold startswith. cbn [strip_prefix].
  destruct (c =? x); cbn [negb length Nat.sub app]; by rewrite IH.
Qed.

Lemma replace_absent old new s :
  contains s old = false -> replace s old new = s.
Proof.
  unfold replace. induction s as [|c s IH]; [done|].
  intros [Hs Hc]%contains_cons. cbn [replace_from]. rewrite Hs.
  by rewrite IH.
Qed.

(** Where the first character of [old] does not occur, nothing is
    replaced. *)
Lemma replace_from_without_head a old new s t :
  ~ In a s ->
  replace_from (a :: old) new 0 (s ++ t)
  = s ++ replace_from (a :: old) new 0 t.
Proof.
  induction s as [|c s IH]; [done|]. intros Hin.
  cbn [app replace_from]. unfold startswith at 1. cbn [strip_prefix].
  destruct (N.eqb_spec a c) as [->|_]; [destruct Hin; by left|].
  rewrite IH; [done|]. intros ?. apply Hin. by right.
Qed.

(** X16.  The cleaned answer has no line feed in it. *)
Theorem X16_clean_has_no_line_feed text : ~ In 10 (clean text).
Proof.
  unfold clean, replace.
  intros [[Hin|[]]%replace_from_in|Hin]%replace_from_in.
  - change (replace_from [10] [] 0 text) with (replace text [10] []) in Hin.
    rewrite replace_char in Hin. apply filter_In in Hin as [_ Hne].
    by rewrite N.eqb_refl in Hne.
  - revert Hin. chars. cbn. intuition discriminate.
Qed.

(** X17.  An answer that is left as it is: a text without line feed,
    without [```] and without [json{] is its own cleaned text. *)
Theorem X17_clean_leaves_bare_answer text :
  contains text [10] = false ->
  contains text (lit "```") = false ->
  contains text (lit "json{") = false ->
  clean text = text.
Proof.
  intros Hlf Hfence Hmark. unfold clean.
  by rewrite (replace_absent _ _ _ Hlf), (replace_absent _ _ _ Hfence),
    (replace_absent _ _ _ Hmark).
Qed.

Lemma X17_witness :
  clean (quoted "{'Type': 'Company', 'Confidence': 0.5}")
  = quoted "{'Type': 'Company', 'Confidence': 0.5}".
Proof.
  apply (X17_clean_leaves_bare_answer
           (quoted "{'Type': 'Company', 'Confidence': 0.5}"));
    vm_compute; reflexivity.
Defined.

(** X18.  A fenced answer on several lines: for a text [answer] that
    starts with a brace and has no backquote in it, the cleaned text of
    [```json], a line feed, [answer], a line feed and [```] is [answer]
    without its line feeds, provided that this has no [json{] in it. *)
Theorem X18_clean_strips_the_fence answer :
  startswith answer (lit "{") = true ->
  ~ In 96 answer ->
  let flat := List.filter (fun c => negb (10 =? c)) answer in
  contains flat (lit "json{") = false ->
  clean (lit "```json" ++ [10] ++ answer ++ [10] ++ lit "```") = flat.
Proof.
  intros Hbrace Hquote flat Hmark. unfold clean.
  rewrite replace_char, !List.filter_app. fold flat.
  assert (Hflat : exists rest, flat = 123 :: rest
                               /\ contains rest (lit "json{") = false).
  { subst flat. unfold startswith in Hbrace.
    destruct (strip_prefix (lit "{") answer) as [r|] eqn:Hr; [|done].
    apply strip_prefix_some in Hr as ->. revert Hmark. chars.
    cbn [app List.filter N.eqb Pos.eqb negb].
    intros [_ ?]%contains_cons. eauto. }
  destruct Hflat as (rest & Hflat & Hrest).
  assert (Hq : ~ In 96 flat).
  { subst flat. by intros [? _]%filter_In. }
  chars. cbn [List.filter N.eqb Pos.eqb negb app].
  unfold replace at 2. cbn [replace_from startswith strip_prefix N.eqb Pos.eqb
                            length Nat.sub app].
  rewrite replace_from_without_head by done.
  cbn [replace_from startswith strip_prefix N.eqb Pos.eqb length Nat.sub app].
  rewrite app_nil_r, Hflat.
  unfold replace. cbn [app replace_from startswith strip_prefix N.eqb Pos.eqb
                       length Nat.sub].
  f_equal. by apply (replace_absent [106; 115; 111; 110; 123] [123]).
Qed.

Lemma X18_witness :
  clean fenced_lines = quoted "{'Type': 'Company', 'Confidence': 0.5}".
Proof.
  apply (X18_clean_strips_the_fence
           (quoted "{'Type': 'Company'," ++ [10]
            ++ quoted " 'Confidence': 0.5}")).
  - vm_compute. reflexivity.
  - vm_compute. intuition discriminate.
  - vm_compute. reflexivity.
Defined.

(** ** The path of the CSV report *)

Lemma csv_path_in_folder folder :
  contains folder (lit ".json") = false ->
  replace (folder ++ lit "/orgs_classified.json") (lit ".json") (lit ".csv")
  = folder ++ lit "/orgs_classified.csv".
Proof.
  unfold replace. induction folder as [|c folder IH].
  - intros _. vm_compute. reflexivity.
  - intros [Hs Hc]%contains_cons. cbn [app replace_from].
    change (c :: folder ++ lit "/orgs_classified.json")
      with ((c :: folder) ++ lit "/orgs_classified.json").
    replace (lit "/orgs_classified.json")
      with (47 :: lit "orgs_classified.json") by (vm_compute; reflexivity).
    rewrite startswith_app_stop, Hs.
    + replace (47 :: lit "orgs_classified.json")
        with (lit "/orgs_classified.json") by (vm_compute; reflexivity).
      by rewrite IH.
    + vm_compute. intuition discriminate.
Qed.

Lemma csv_path_out_of_folder folder tail :
  contains folder (lit ".json") = true ->
  startswith (replace (folder ++ tail) (lit ".json") (lit ".csv")) folder
  = false.
Proof.
  unfold replace. induction folder as [|c folder IH].
  - vm_compute. discriminate.
  - cbn [contains]. destruct (startswith (c :: folder) (lit ".json")) eqn:Hs.
    + intros _. unfold startswith in Hs.
      destruct (strip_prefix (lit ".json") (c :: folder)) as [r|] eqn:Hr;
        [|done].
      apply strip_prefix_some in Hr. rewrite Hr, <- app_assoc.
      chars. cbn [app replace_from startswith strip_prefix N.eqb Pos.eqb].
      reflexivity.
    + cbn [orb]. intros Hc. cbn [app replace_from].
      change (c :: folder ++ tail) with ((c :: folder) ++ tail).
      rewrite startswith_app_long, Hs.
      * unfold startswith. cbn [strip_prefix]. rewrite N.eqb_refl.
        apply IH, Hc.
      * apply contains_length in Hc. cbn [length]. lia.
Qed.

(** What the script has written when a [WriteCsv] is in its trace. *)
Lemma main_write_csv o h path :
  In (WriteCsv path) (trace (snd (main o h))) ->
  exists settings,
    load_settings (load_dotenv (dotenv h) (environ h)) = Ok settings
    /\ path = replace (OUTPUT_FOLDER settings ++ lit "/orgs_classified.json")
                (lit ".json") (lit ".csv").
Proof.
  unfold main.
  destruct (load_settings _) as [settings|]; [|done].
  destruct (iterate_events o (columns (sheet_of h)) (rows (sheet_of h))
              (before_loop h settings)) as (evs & Htr & Hevs).
  assert (Hw4 : ~ In (WriteCsv path)
                  (trace (snd (iterate o (columns (sheet_of h))
                                 (rows (sheet_of h))
                                 (before_loop h settings))))).
  { rewrite Htr, in_app_iff. intros [Hin|Hin].
    - pose proof (before_loop_writes_no_output h settings) as Hb.
      rewrite Forall_forall in Hb. by apply list_elem_of_In, Hb in Hin.
    - apply enrichment_event_no_output in Hevs.
      rewrite Forall_forall in Hevs. by apply list_elem_of_In, Hevs in Hin. }
  destruct (iterate _ _ _ _) as [[x_out|] w4]; cbn [fst snd] in *; [|done].
  destruct (json_loads _) as [x_dict|].
  - destruct (report o x_dict _); cbn [snd trace emit]; rewrite ?in_app_iff.
    + intros [[?|[?|[]]]|[[= <-]|[]]]; try done. by exists settings.
    + by intros [?|[?|[]]].
  - cbn [snd trace emit]. rewrite in_app_iff. by intros [?|[?|[]]].
Qed.

(** X19.  Where the CSV report goes: when the name of the output folder has
    no [.json] in it, the report that the script writes is
    [orgs_classified.csv] in the output folder. *)
Theorem X19_csv_report_is_in_output_folder o h settings path :
  load_settings (load_dotenv (dotenv h) (environ h)) = Ok settings ->
  contains (OUTPUT_FOLDER settings) (lit ".json") = false ->
  In (WriteCsv path) (trace (snd (main o h))) ->
  path = OUTPUT_FOLDER settings ++ lit "/orgs_classified.csv".
Proof.
  intros Hs Hno (settings' & Hs' & ->)%main_write_csv.
  rewrite Hs in Hs'. injection Hs' as <-. by apply csv_path_in_folder.
Qed.

Lemma X19_witness :
  lit ".data/outputs/orgs_classified.csv"
  = OUTPUT_FOLDER example_settings ++ lit "/orgs_classified.csv".
Proof.
  apply (X19_csv_report_is_in_output_folder steady_oracle example_host
           example_settings (lit ".data/outputs/orgs_classified.csv")).
  - vm_compute. reflexivity.
  - vm_compute. reflexivity.
  - vm_compute. do 12 right. left. reflexivity.
Defined.

(** X20.  When the name of the output folder has [.json] in it, the CSV
    report is not written into the output folder: the [.json] of the
    folder is replaced too, so that the path of the report does not start
    with the name of the folder. *)
Theorem X20_csv_report_leaves_output_folder o h settings path :
  load_settings (load_dotenv (dotenv h) (environ h)) = Ok settings ->
  contains (OUTPUT_FOLDER settings) (lit ".json") = true ->
  In (WriteCsv path) (trace (snd (main o h))) ->
  startswith path (OUTPUT_FOLDER settings) = false.
Proof.
  intros Hs Hyes (settings' & Hs' & ->)%main_write_csv.
  rewrite Hs in Hs'. injection Hs' as <-. by apply csv_path_out_of_folder.
Qed.

Lemma X20_witness :
  startswith (lit "runs.csv.d/orgs_classified.csv") (lit "runs.json.d") = false.
Proof.
  apply (X20_csv_report_leaves_output_folder steady_oracle json_folder_host
           {| MISTRAL_API_KEY := lit "secret";
              MISTRAL_MODEL := lit "mistral-medium";
              DISK_CACHE_DIRECTORY := lit ".data";
              INPUT_FOLDER := lit ".data/inputs";
              OUTPUT_FOLDER := lit "runs.json.d" |}
           (lit "runs.csv.d/orgs_classified.csv")).
  - vm_compute. reflexivity.
  - vm_compute. reflexivity.
  - vm_compute. do 11 right. left. reflexivity.
Defined.

(** ** The start of the script *)









(** ** The content of the report *)

Lemma index_of_spec name cols : forall i,
  index_of name cols = Some i ->
  (i < length cols)%nat /\ nth i cols [] = name.
Proof.
  induction cols as [|c cols IH]; intros i; cbn; [done|].
  destruct (str_eqb_spec name c) as [->|Hne].
  - intros [= <-]. split; [lia|done].
  - destruct (index_of name cols) as [j|]; [|done].
    intros [= <-]. destruct (IH j eq_refl). split; [lia|done].
Qed.

Lemma index_of_none name cols : ~ In name cols -> index_of name cols = None.
Proof.
  induction cols as [|c cols IH]; cbn; [done|]. intros Hin.
  rewrite str_eqb_ne by (intros ->; apply Hin; by left).
  rewrite IH; [done|]. intros ?. apply Hin. by right.
Qed.

Lemma index_of_map f name cols :
  (forall c, In c cols -> (f c = name <-> c = name)) ->
  index_of name (List.map f cols) = index_of name cols.
Proof.
  induction cols as [|c cols IH]; intros Hf; cbn; [done|].
  rewrite IH by (intros c' Hc'; apply Hf; by right).
  destruct (str_eqb_spec name c) as [->|Hne].
  - rewrite (proj2 (Hf c (or_introl eq_refl)) eq_refl). by rewrite str_eqb_refl.
  - rewrite str_eqb_ne; [done|]. intros Heq. apply Hne. symmetry.
    by apply (Hf c); [left|].
Qed.

Lemma index_of_app name a b :
  index_of name (a ++ b)
  = match index_of name a with
    | Some i => Some i
    | None =>
        match index_of name b with
        | Some j => Some (length a + j)%nat
        | None => None
        end
    end.
Proof.
  induction a as [|c a IH]; cbn.
  - by destruct (index_of name b).
  - destruct (str_eqb name c); [done|]. rewrite IH.
    destruct (index_of name a); [done|]. by destruct (index_of name b).
Qed.

Lemma add_key_in ks k c : In c (add_key ks k) -> In c ks \/ c = k.
Proof.
  unfold add_key. case_bool_decide; [by left|].
  rewrite in_app_iff. intros [?|[->|[]]]; auto.
Qed.

Lemma add_keys_in c : forall ks acc,
  In c (fold_left add_key ks acc) -> In c acc \/ In c ks.
Proof.
  induction ks as [|k ks IH]; intros acc; cbn; [by left|].
  intros [[?| ->]%add_key_in|?]%IH; auto.
Qed.

Lemma record_columns_in c ds :
  In c (record_columns ds) -> exists d, In d ds /\ In c (List.map fst d).
Proof.
  unfold record_columns.
  assert (Hgen : forall acc,
    In c (fold_left (fun ks d => fold_left add_key (List.map fst d) ks) ds acc) ->
    In c acc \/ exists d, In d ds /\ In c (List.map fst d)).
  { induction ds as [|d ds IH]; intros acc; cbn; [by left|].
    intros [[?|?]%add_keys_in|(d' & ? & ?)]%IH; [by left|..].
    - right. exists d. split; [by left|done].
    - right. exists d'. split; [by right|done]. }
  by intros [[]|?]%Hgen.
Qed.

Lemma dict_get_in c d : In c (List.map fst d) -> is_Some (dict_get c d).
Proof.
  induction d as [|[k v] d IH]; cbn; [done|].
  destruct (str_eqb_spec c k) as [->|Hne]; [by eauto|].
  intros [Heq|Hin]; [by destruct Hne|by apply IH].
Qed.

Lemma as_records_map l ds : as_records l = Some ds -> l = List.map JObj ds.
Proof.
  revert ds. induction l as [|v l IH]; intros ds; cbn.
  - by intros [= <-].
  - destruct v; try done. destruct (as_records l) as [ds'|]; [|done].
    intros [= <-]. cbn. by rewrite (IH ds').
Qed.

Lemma number_rows_from_map (h : list json -> list json) l : forall k,
  List.map (fun ir : Z * list json => (fst ir, h (snd ir)))
    (number_rows_from k l)
  = number_rows_from k (List.map h l).
Proof. induction l as [|x l IH]; intros k; cbn; [done|]. by rewrite IH. Qed.

Lemma number_rows_from_snd l : forall k,
  List.map snd (number_rows_from k l) = l.
Proof. induction l as [|x l IH]; intros k; cbn; [done|]. by rewrite IH. Qed.

Lemma number_rows_from_length l : forall k,
  length (number_rows_from k l) = length l.
Proof. induction l as [|x l IH]; intros k; cbn; [done|]. by rewrite IH. Qed.

Lemma number_rows_from_fst l : forall k,
  List.map fst (number_rows_from k l)
  = List.map (fun i => (k + Z.of_nat i)%Z) (seq 0 (length l)).
Proof.
  induction l as [|x l IH]; intros k; cbn [number_rows_from List.map length seq];
    [done|].
  rewrite IH, <- seq_shift, List.map_map. cbn [fst]. f_equal; [lia|].
  apply map_ext. intros i. lia.
Qed.

Lemma flat_map_number_rows {B} (g : list json -> list B) l : forall k,
  flat_map (fun ir : Z * list json => g (snd ir)) (number_rows_from k l)
  = flat_map g l.
Proof. induction l as [|x l IH]; intros k; cbn; [done|]. by rewrite IH. Qed.

Lemma flat_map_map {A B C} (f : A -> B) (g : B -> list C) l :
  flat_map g (List.map f l) = flat_map (fun x => g (f x)) l.
Proof. induction l as [|x l IH]; cbn; [done|]. by rewrite IH. Qed.

Lemma map_flat_map {A B C} (h : B -> C) (g : A -> list B) l :
  List.map h (flat_map g l) = flat_map (fun x => List.map h (g x)) l.
Proof.
  induction l as [|x l IH]; cbn; [done|]. by rewrite map_app, IH.
Qed.

Lemma filter_map_comm {A B} (f : A -> B) (p : B -> bool) l :
  List.filter p (List.map f l) = List.map f (List.filter (fun x => p (f x)) l).
Proof.
  induction l as [|x l IH]; cbn; [done|].
  destruct (p (f x)); cbn; by rewrite IH.
Qed.

(** The cell of a record in a column of the frame of the records. *)
Lemma nth_cells d name cols j extra :
  index_of name cols = Some j ->
  nth j (List.map (cell d) cols ++ extra) nan = cell d name.
Proof.
  intros [Hlt Hnth]%index_of_spec.
  rewrite app_nth1 by (by rewrite length_map).
  rewrite (nth_indep _ nan (cell d [])) by (by rewrite length_map).
  by rewrite map_nth, Hnth.
Qed.

Lemma nth_after_cells d cols j extra :
  nth (length cols + j) (List.map (cell d) cols ++ extra) nan = nth j extra nan.
Proof.
  rewrite app_nth2 by (rewrite length_map; lia).
  rewrite length_map. f_equal. lia.
Qed.

Lemma sheet_cell_nth df r name i :
  index_of name (columns df) = Some i -> sheet_cell df r name = nth i r nan.
Proof. unfold sheet_cell, getitem. by intros ->. Qed.

(** A name that does not end as a suffix does is no suffixed name. *)
Lemma suffixed_name (c sfx name : str) (x y : N) :
  last sfx = Some x -> last name = Some y -> x <> y -> c ++ sfx <> name.
Proof.
  intros Hx Hy Hne Heq. rewrite <- Heq, last_app, Hx in Hy. congruence.
Qed.

(** The columns that come from the records keep their names in the merged
    frame, however the columns that both frames have are renamed. *)
Lemma suffixed_left (name c : str) (y : N) :
  last name = Some y -> y <> 120 ->
  (bool_decide (name ∈ [lit "url"; lit "manual_Type"; lit "manual_Location"])
   && negb (str_eqb name (lit "url")) = false) ->
  suffixed [lit "url"; lit "manual_Type"; lit "manual_Location"]
    (lit "url") (lit "_x") c = name
  <-> c = name.
Proof.
  intros Hlast Hy Hname. unfold suffixed. split.
  - destruct (bool_decide (c ∈ _) && _); [|done]. intros Heq.
    by destruct (suffixed_name c (lit "_x") name 120 y).
  - intros ->. by rewrite Hname.
Qed.

Lemma index_of_merged_left (name : str) lcols rcols' j (y : N) :
  last name = Some y -> y <> 120 ->
  (bool_decide (name ∈ [lit "url"; lit "manual_Type"; lit "manual_Location"])
   && negb (str_eqb name (lit "url")) = false) ->
  ~ In name rcols' ->
  index_of name
    (List.map (suffixed [lit "url"; lit "manual_Type"; lit "manual_Location"]
                 (lit "url") (lit "_x")) lcols ++ rcols') = Some j ->
  index_of name lcols = Some j.
Proof.
  intros Hlast Hy Hname Hr. rewrite index_of_app, index_of_map.
  - destruct (index_of name lcols); [done|].
    by rewrite (index_of_none _ _ Hr).
  - intros c _. by eapply suffixed_left.
Qed.

(** The two columns that come from the sheet stand after those of the
    records. *)
Lemma right_columns_cases lcols :
  let rcols' := List.map (suffixed lcols (lit "url") (lit "_y"))
                  [lit "manual_Type"; lit "manual_Location"] in
  exists a b,
    rcols' = [a; b]
    /\ (a = lit "manual_Type" \/ a = lit "manual_Type_y")
    /\ (b = lit "manual_Location" \/ b = lit "manual_Location_y").
Proof.
  cbn [List.map]. unfold suffixed. eexists _, _. split; [reflexivity|].
  split.
  - destruct (bool_decide _); cbn; [right|left]; vm_compute; reflexivity.
  - destruct (bool_decide _); cbn; [right|left]; vm_compute; reflexivity.
Qed.

Lemma index_of_merged_right name lcols j :
  name = lit "manual_Type" \/ name = lit "manual_Location" ->
  index_of name
    (List.map (suffixed [lit "url"; lit "manual_Type"; lit "manual_Location"]
                 (lit "url") (lit "_x")) lcols
     ++ List.map (suffixed lcols (lit "url") (lit "_y"))
          [lit "manual_Type"; lit "manual_Location"]) = Some j ->
  j = (length lcols
       + (if bool_decide (name = lit "manual_Type") then 0 else 1))%nat.
Proof.
  intros Hname. rewrite index_of_app.
  rewrite index_of_none.
  2:{ intros (c & Hc & _)%in_map_iff. unfold suffixed in Hc.
      destruct (bool_decide (c ∈ _)) eqn:Hin; cbn [andb] in Hc.
      - destruct (str_eqb_spec c (lit "url")) as [->|Hne]; cbn [negb] in Hc.
        + subst name. destruct Hname; discriminate.
        + exfalso. destruct Hname as [-> | ->].
          * eapply (suffixed_name c (lit "_x") (lit "manual_Type") 120 101);
              [reflexivity|reflexivity|done|exact Hc].
          * eapply (suffixed_name c (lit "_x") (lit "manual_Location") 120 110);
              [reflexivity|reflexivity|done|exact Hc].
      - apply bool_decide_eq_false in Hin. apply Hin. subst c.
        destruct Hname as [-> | ->]; set_solver. }
  rewrite length_map.
  destruct (right_columns_cases lcols) as (a & b & -> & Ha & Hb).
  destruct Hname as [-> | ->], Ha as [-> | ->], Hb as [-> | ->];
    vm_compute index_of; intros [= <-]; try done; f_equal.
Qed.

Lemma nth_cells_only d name cols j :
  index_of name cols = Some j ->
  nth j (List.map (cell d) cols) nan = cell d name.
Proof.
  intros Hj. rewrite <- (app_nil_r (List.map (cell d) cols)).
  by apply nth_cells.
Qed.

(** The sheet with its three columns selected and renamed. *)
Lemma manual_frame df_orgs manual :
  select [lit "organization_website"; lit "form_of_organization";
          lit "location_country"] df_orgs = Ok manual ->
  exists wi fi ci,
    index_of (lit "organization_website") (columns df_orgs) = Some wi
    /\ index_of (lit "form_of_organization") (columns df_orgs) = Some fi
    /\ index_of (lit "location_country") (columns df_orgs) = Some ci
    /\ rename [(lit "organization_website", lit "url");
               (lit "form_of_organization", lit "manual_Type");
               (lit "location_country", lit "manual_Location")] manual
       = {| columns := [lit "url"; lit "manual_Type"; lit "manual_Location"];
            rows := List.map (fun ir : Z * list json =>
                      (fst ir, [nth wi (snd ir) nan; nth fi (snd ir) nan;
                                nth ci (snd ir) nan])) (rows df_orgs) |}.
Proof.
  unfold select. cbn [select_indices].
  destruct (index_of (lit "organization_website") _) as [wi|]; [|done].
  destruct (index_of (lit "form_of_organization") _) as [fi|]; [|done].
  destruct (index_of (lit "location_country") _) as [ci|]; [|done].
  intros [= <-]. by exists wi, fi, ci.
Qed.

Lemma report_lines_nth df_orgs d wi fi ci :
  index_of (lit "organization_website") (columns df_orgs) = Some wi ->
  index_of (lit "form_of_organization") (columns df_orgs) = Some fi ->
  index_of (lit "location_country") (columns df_orgs) = Some ci ->
  report_lines df_orgs d
  = match List.map snd
            (List.filter (fun ir : Z * list json =>
               key_eqb (cell d (lit "url")) (nth wi (snd ir) nan))
               (rows df_orgs)) with
    | [] => [report_line d nan nan]
    | rs => List.map (fun r => report_line d (nth fi r nan) (nth ci r nan)) rs
    end.
Proof.
  intros Hwi Hfi Hci. unfold report_lines, joined_rows.
  rewrite filter_map_comm.
  rewrite (List.filter_ext _
             (fun ir : Z * list json =>
                key_eqb (cell d (lit "url")) (nth wi (snd ir) nan))).
  2:{ intros ir. by rewrite (sheet_cell_nth _ _ _ _ Hwi). }
  destruct (List.map snd _) as [|r rs]; [done|].
  apply map_ext. intros r'.
  by rewrite (sheet_cell_nth _ _ _ _ Hfi), (sheet_cell_nth _ _ _ _ Hci).
Qed.

Lemma report_line_nth d lcols j1 j2 j4 j6 a b :
  index_of (lit "url") lcols = Some j1 ->
  index_of (lit "Confidence") lcols = Some j2 ->
  index_of (lit "Type") lcols = Some j4 ->
  index_of (lit "Location") lcols = Some j6 ->
  let row := List.map (cell d) lcols ++ [a; b] in
  [nth j1 row nan; nth j2 row nan; nth (length lcols + 0) row nan;
   nth j4 row nan; nth (length lcols + 1) row nan; nth j6 row nan]
  = report_line d a b.
Proof.
  intros H1 H2 H4 H6 row. subst row. unfold report_line.
  by rewrite !nth_after_cells, (nth_cells _ _ _ _ _ H1), (nth_cells _ _ _ _ _ H2),
    (nth_cells _ _ _ _ _ H4), (nth_cells _ _ _ _ _ H6).
Qed.

Lemma not_in_right_columns name lcols :
  name = lit "url" \/ name = lit "Confidence" \/ name = lit "Type"
  \/ name = lit "Location" ->
  ~ In name (List.map (suffixed lcols (lit "url") (lit "_y"))
               [lit "manual_Type"; lit "manual_Location"]).
Proof.
  intros Hname.
  destruct (right_columns_cases lcols) as (a & b & -> & Ha & Hb).
  intros [Heq|[Heq|[]]]; subst name;
    destruct Hname as [Hn|[Hn|[Hn|Hn]]], Ha as [-> | ->], Hb as [-> | ->];
    vm_compute in Hn; discriminate.
Qed.

(** The records of the report are, in some order, the lines of the left
    join of the results with the sheet, numbered as they were joined. *)
Lemma report_rows o l df_orgs csv :
  report o (JArr l) df_orgs = Ok csv ->
  exists ds,
    l = List.map JObj ds
    /\ records csv
       ≡ₚ List.map (fun ir : Z * list json => JInt (fst ir) :: snd ir)
            (number_rows (flat_map (report_lines df_orgs) ds)).
Proof.
  unfold report, bind. cbn [DataFrame].
  destruct (as_records l) as [ds|] eqn:Hds; [|done].
  apply as_records_map in Hds. set (lcols := record_columns ds).
  destruct (select _ df_orgs) as [manual|] eqn:Hman; [|done].
  destruct (manual_frame _ _ Hman) as (wi & fi & ci & Hwi & Hfi & Hci & ->).
  unfold merge_left. cbn [columns rows].
  destruct (index_of (lit "url") lcols) as [li|] eqn:Hli; [|done].
  change (index_of (lit "url")
            [lit "url"; lit "manual_Type"; lit "manual_Location"])
    with (Some 0%nat).
  cbn [remove_nth].
  destruct (select REPORT_COLUMNS _) as [chosen|] eqn:Hsel; [|done].
  destruct (sort_values_desc o _ chosen) as [sorted|] eqn:Hsort; [|done].
  intros [= <-]. exists ds. split; [done|].
  revert Hsel. unfold select, REPORT_COLUMNS. cbn [columns rows select_indices].
  set (rcols' := List.map (suffixed lcols _ _) _).
  set (sfx := suffixed _ _ _).
  destruct (index_of (lit "url") (List.map sfx lcols ++ rcols'))
    as [j1|] eqn:Hj1; [|done].
  destruct (index_of (lit "Confidence") (List.map sfx lcols ++ rcols'))
    as [j2|] eqn:Hj2; [|done].
  destruct (index_of (lit "manual_Type") (List.map sfx lcols ++ rcols'))
    as [j3|] eqn:Hj3; [|done].
  destruct (index_of (lit "Type") (List.map sfx lcols ++ rcols'))
    as [j4|] eqn:Hj4; [|done].
  destruct (index_of (lit "manual_Location") (List.map sfx lcols ++ rcols'))
    as [j5|] eqn:Hj5; [|done].
  destruct (index_of (lit "Location") (List.map sfx lcols ++ rcols'))
    as [j6|] eqn:Hj6; [|done].
  intros [= <-].
  apply (index_of_merged_left _ _ _ _ 108) in Hj1;
    [|reflexivity|done|vm_compute; reflexivity
     |apply not_in_right_columns; auto].
  apply (index_of_merged_left _ _ _ _ 101) in Hj2;
    [|reflexivity|done|vm_compute; reflexivity
     |apply not_in_right_columns; auto].
  apply (index_of_merged_left _ _ _ _ 101) in Hj4;
    [|reflexivity|done|vm_compute; reflexivity
     |apply not_in_right_columns; auto].
  apply (index_of_merged_left _ _ _ _ 110) in Hj6;
    [|reflexivity|done|vm_compute; reflexivity
     |apply not_in_right_columns; auto].
  apply index_of_merged_right in Hj3; [|by left].
  apply index_of_merged_right in Hj5; [|by right].
  rewrite bool_decide_eq_true_2 in Hj3 by done.
  rewrite bool_decide_eq_false_2 in Hj5 by (vm_compute; discriminate).
  subst j3 j5. clear rcols' sfx.
  apply sort_values_desc_rows in Hsort as [_ Hperm].
  cbn [rows] in Hperm. unfold to_csv. cbn [records].
  etrans; [apply Permutation_map, Hperm|]. clear Hperm.
  apply Permutation_map. unfold number_rows.
  match goal with
  | |- List.map ?H (number_rows_from 0 (flat_map ?G _)) ≡ₚ _ =>
      set (H0 := H); set (G0 := G)
  end.
  assert (Hnum : forall Y k,
            List.map H0 (number_rows_from k Y)
            = number_rows_from k (List.map (fun r => snd (H0 (0%Z, r))) Y)).
  { induction Y as [|y Y IH]; intros k; cbn [number_rows_from List.map];
      [done|]. by rewrite IH. }
  assert (Hpoint : forall k d,
            List.map (fun r => snd (H0 (0%Z, r)))
              (G0 (k, List.map (cell d) lcols))
            = report_lines df_orgs d).
  { intros k d. rewrite (report_lines_nth _ _ _ _ _ Hwi Hfi Hci).
    subst H0 G0. cbn [fst snd]. rewrite filter_map_comm. cbn [snd nth].
    rewrite (nth_cells_only _ _ _ _ Hli).
    destruct (List.filter _ (rows df_orgs)) as [|m M]; cbn [List.map snd].
    - f_equal. by apply report_line_nth.
    - f_equal; [by apply report_line_nth|].
      rewrite !List.map_map. apply map_ext. intros ir. cbn [snd].
      by apply report_line_nth. }
  assert (Hflat : forall (ds' : list dict) k,
            List.map (fun r => snd (H0 (0%Z, r)))
              (flat_map G0
                 (number_rows_from k
                    (List.map (fun d => List.map (cell d) lcols) ds')))
            = flat_map (report_lines df_orgs) ds').
  { induction ds' as [|d ds' IH]; intros k;
      cbn [List.map number_rows_from flat_map]; [done|].
    by rewrite map_app, Hpoint, IH. }
  rewrite Hnum. by rewrite <- (Hflat ds 0%Z).
Qed.

Lemma as_records_objs ds : as_records (List.map JObj ds) = Some ds.
Proof. induction ds as [|d ds IH]; cbn; [done|]. by rewrite IH. Qed.

Lemma select_indices_missing cols names name :
  In name names -> index_of name cols = None ->
  exists key, select_indices cols names = Raise (KeyError key).
Proof.
  intros Hin Hnone. induction names as [|n names IH]; [done|]. cbn.
  destruct Hin as [->|Hin].
  - rewrite Hnone. eauto.
  - destruct (index_of n cols); [|by eauto].
    destruct (IH Hin) as [key ->]. eauto.
Qed.

(** X22.  A report needs a result that was answered: when no result has a
    key [Confidence] (or no result has a key [Type], or none a key
    [Location]), as when every website failed, the merged frame lacks that
    column, the selection of the six columns raises [KeyError], and no
    report is made. *)
Theorem X22_report_needs_every_column o ds df_orgs name :
  In name [lit "Confidence"; lit "Type"; lit "Location"] ->
  Forall (fun d => dict_get name d = None) ds ->
  exists key,
    report o (JArr (List.map JObj ds)) df_orgs = Raise (KeyError key).
Proof.
  intros Hname Hnone. unfold report, bind. cbn [DataFrame].
  rewrite as_records_objs. set (lcols := record_columns ds).
  destruct (select _ df_orgs) as [manual|e] eqn:Hman;
    [|by apply select_raises in Hman as [key ->]; eauto].
  destruct (manual_frame _ _ Hman) as (wi & fi & ci & _ & _ & _ & ->).
  unfold merge_left. cbn [columns rows].
  destruct (index_of (lit "url") lcols) as [li|]; [|by eauto].
  change (index_of (lit "url")
            [lit "url"; lit "manual_Type"; lit "manual_Location"])
    with (Some 0%nat).
  cbn [remove_nth]. unfold select. cbn [columns rows].
  destruct (select_indices_missing
              (List.map (suffixed [lit "url"; lit "manual_Type";
                                   lit "manual_Location"]
                           (lit "url") (lit "_x")) lcols
               ++ List.map (suffixed lcols (lit "url") (lit "_y"))
                    [lit "manual_Type"; lit "manual_Location"])
              REPORT_COLUMNS name) as [key ->]; [| |by eauto].
  - unfold REPORT_COLUMNS. cbn in Hname. cbn. tauto.
  - assert (Hl : ~ In name lcols).
    { intros (d & Hd & Hk%dict_get_in)%record_columns_in.
      rewrite Forall_forall in Hnone.
      rewrite (Hnone d) in Hk by (by apply list_elem_of_In).
      by destruct Hk. }
    assert (Hr : ~ In name (List.map (suffixed lcols (lit "url") (lit "_y"))
                              [lit "manual_Type"; lit "manual_Location"])).
    { apply not_in_right_columns.
      destruct Hname as [<-|[<-|[<-|[]]]]; auto. }
    rewrite index_of_app, (index_of_none _ _ Hr), index_of_map.
    + by rewrite (index_of_none _ _ Hl).
    + intros c _. destruct Hname as [<-|[<-|[<-|[]]]].
      * by apply (suffixed_left _ _ 101).
      * by apply (suffixed_left _ _ 101).
      * by apply (suffixed_left _ _ 110).
Qed.

Lemma X22_witness :
  exists key,
    report steady_oracle (JArr (List.map JObj failed_results)) example_sheet
    = Raise (KeyError key).
Proof.
  apply (X22_report_needs_every_column steady_oracle failed_results
           example_sheet
           (lit "Confidence")).
  - by left.
  - repeat constructor.
Defined.

Lemma number_rows_from_in (x : list json) l : forall k,
  In x l -> exists i, In (i, x) (number_rows_from k l).
Proof.
  induction l as [|y l IH]; intros k; [done|]. cbn.
  intros [->|Hin]; [by eauto|].
  destruct (IH (k + 1)%Z Hin) as [i Hi]. eauto.
Qed.

Lemma report_lines_inv df_orgs d line :
  In line (report_lines df_orgs d) ->
  (joined_rows df_orgs d = [] /\ line = report_line d nan nan)
  \/ exists r,
       In r (joined_rows df_orgs d)
       /\ line = report_line d
                   (sheet_cell df_orgs r (lit "form_of_organization"))
                   (sheet_cell df_orgs r (lit "location_country")).
Proof.
  unfold report_lines. destruct (joined_rows df_orgs d) as [|r rs].
  - intros [<-|[]]. by left.
  - intros (r' & <- & Hr')%in_map_iff. right. by exists r'.
Qed.

Lemma report_lines_head df_orgs d :
  exists manual_type manual_location,
    In (report_line d manual_type manual_location) (report_lines df_orgs d).
Proof.
  unfold report_lines. destruct (joined_rows df_orgs d) as [|r rs].
  - exists nan, nan. by left.
  - eexists _, _. by left.
Qed.

(** X23.  The left join loses no result: when a report is made, every
    mapping of the list of results has a line in it, with the [url], the
    [Confidence], the [Type] and the [Location] of that mapping ([nan]
    where it has none). *)
Theorem X23_report_has_every_result o l df_orgs csv d :
  report o (JArr l) df_orgs = Ok csv ->
  In (JObj d) l ->
  exists i manual_type manual_location,
    In (JInt i :: report_line d manual_type manual_location) (records csv).
Proof.
  intros (ds & -> & Hperm)%report_rows (d' & [= <-] & Hd)%in_map_iff.
  destruct (report_lines_head df_orgs d') as (a & b & Hline).
  destruct (number_rows_from_in (report_line d' a b)
              (flat_map (report_lines df_orgs) ds) 0%Z) as [i Hi].
  { apply in_flat_map. eauto. }
  exists i, a, b. apply list_elem_of_In. rewrite Hperm.
  apply list_elem_of_In, in_map_iff. by exists (i, report_line d' a b).
Qed.

Lemma X23_witness :
  exists i manual_type manual_location,
    In (JInt i :: report_line
                    [(lit "exception", JStr (lit "status_code: 403"));
                     (lit "url", JStr example_url)]
                    manual_type manual_location)
      (records example_csv).
Proof.
  apply (X23_report_has_every_result flaky_oracle example_x_out example_sheet
           example_csv).
  - vm_compute. reflexivity.
  - by left.
Defined.

Lemma key_eqb_str u x : key_eqb (JStr u) x = true <-> x = JStr u.
Proof.
  destruct x; cbn; try (split; [discriminate|congruence]).
  destruct (str_eqb_spec u s) as [->|Hne]; split; congruence.
Qed.

Lemma url_is_cell u d : url_is u (JObj d) -> cell d (lit "url") = JStr u.
Proof. intros (d' & [= <-] & Hu). unfold cell. by rewrite Hu. Qed.

(** X24.  Where the lines of the report come from: when the [url] of every
    result is a string, every record of the report is the line of one of
    the results, and its two manual fields are those of a row of the sheet
    that has the [url] of the result as its website, or are both [nan]
    when the sheet has no such row. *)
Theorem X24_report_record_origin o l df_orgs csv record :
  Forall (fun v => exists u, url_is u v) l ->
  report o (JArr l) df_orgs = Ok csv ->
  In record (records csv) ->
  exists i d u,
    In (JObj d) l /\ url_is u (JObj d)
    /\ ((occurrences df_orgs u = 0%nat
         /\ record = JInt i :: report_line d nan nan)
        \/ exists r,
             In r (List.map snd (rows df_orgs))
             /\ sheet_cell df_orgs r (lit "organization_website") = JStr u
             /\ record
                = JInt i
                  :: report_line d
                       (sheet_cell df_orgs r (lit "form_of_organization"))
                       (sheet_cell df_orgs r (lit "location_country"))).
Proof.
  intros Hurls (ds & -> & Hperm)%report_rows Hrec.
  apply list_elem_of_In in Hrec. rewrite Hperm in Hrec.
  apply list_elem_of_In, in_map_iff in Hrec as ([i line] & <- & Hin).
  assert (Hline : In line (flat_map (report_lines df_orgs) ds)).
  { apply (in_map snd) in Hin. unfold number_rows in Hin.
    by rewrite number_rows_from_snd in Hin. }
  apply in_flat_map in Hline as (d & Hd & Hline).
  assert (HdI : In (JObj d) (List.map JObj ds)) by (by apply in_map).
  rewrite Forall_forall in Hurls.
  destruct (Hurls (JObj d)) as [u Hu]; [by apply list_elem_of_In|].
  exists i, d, u. split; [done|]. split; [done|].
  pose proof (url_is_cell _ _ Hu) as Hcell.
  apply report_lines_inv in Hline as [[Hnone ->]|(r & Hr & ->)].
  - left. split; [|done]. unfold occurrences.
    unfold joined_rows in Hnone. rewrite Hcell in Hnone. by rewrite Hnone.
  - right. exists r. unfold joined_rows in Hr. rewrite Hcell in Hr.
    apply filter_In in Hr as [Hr Hkey%key_eqb_str]. done.
Qed.

Lemma X24_witness :
  exists i d u,
    In (JObj d) example_x_out /\ url_is u (JObj d)
    /\ ((occurrences example_sheet u = 0%nat
         /\ [JInt 1; JStr other_url; JFloat (Fdec false 91 (-2)); nan;
             JStr (lit "Non-profit"); JStr (lit "DE");
             JObj [(lit "Country", JStr (lit "US"))]]
            = JInt i :: report_line d nan nan)
        \/ exists r,
             In r (List.map snd (rows example_sheet))
             /\ sheet_cell example_sheet r (lit "organization_website")
                = JStr u
             /\ [JInt 1; JStr other_url; JFloat (Fdec false 91 (-2)); nan;
                 JStr (lit "Non-profit"); JStr (lit "DE");
                 JObj [(lit "Country", JStr (lit "US"))]]
                = JInt i
                  :: report_line d
                       (sheet_cell example_sheet r (lit "form_of_organization"))
                       (sheet_cell example_sheet r (lit "location_country"))).
Proof.
  apply (X24_report_record_origin flaky_oracle example_x_out example_sheet
           example_csv).
  - repeat constructor.
    + exists example_url. eexists. split; [reflexivity|].
      vm_compute. reflexivity.
    + exists other_url. eexists. split; [reflexivity|].
      vm_compute. reflexivity.
  - vm_compute. reflexivity.
  - by left.
Defined.

Lemma report_lines_length df_orgs d u :
  url_is u (JObj d) ->
  length (report_lines df_orgs d) = Nat.max 1 (occurrences df_orgs u).
Proof.
  intros Hu%url_is_cell. unfold report_lines, occurrences, joined_rows.
  rewrite Hu. destruct (List.filter _ _) as [|r rs]; [done|].
  rewrite length_map. cbn [length]. lia.
Qed.

Lemma report_rows_length o us l df_orgs csv :
  Forall2 url_is us l ->
  report o (JArr l) df_orgs = Ok csv ->
  length (records csv)
  = list_sum (List.map (fun u => Nat.max 1 (occurrences df_orgs u)) us).
Proof.
  intros Hus (ds & -> & Hperm)%report_rows.
  rewrite Hperm, length_map. unfold number_rows.
  rewrite number_rows_from_length, length_flat_map. f_equal.
  clear Hperm. revert us Hus.
  induction ds as [|d ds IH]; intros us Hus.
  - by apply Forall2_nil_inv_r in Hus as ->.
  - apply Forall2_cons_inv_r in Hus as (u & us' & Hu & Hus' & ->).
    cbn [List.map]. by rewrite (IH us' Hus'), (report_lines_length _ _ u).
Qed.

(** X25.  The number of lines of the report: when the [url] of every result
    is a string, each result gives as many lines as the sheet has rows
    with that website, and one line when it has none. *)
Theorem X25_report_line_count o us l df_orgs csv :
  Forall2 url_is us l ->
  report o (JArr l) df_orgs = Ok csv ->
  length (records csv)
  = list_sum (List.map (fun u => Nat.max 1 (occurrences df_orgs u)) us).
Proof. apply report_rows_length. Qed.

Lemma X25_witness :
  length (records example_csv)
  = list_sum (List.map (fun u => Nat.max 1 (occurrences example_sheet u))
                [example_url; other_url]).
Proof.
  apply (X25_report_line_count flaky_oracle [example_url; other_url]
           example_x_out example_sheet example_csv).
  - repeat constructor; (eexists; split; [reflexivity|]);
      vm_compute; reflexivity.
  - vm_compute. reflexivity.
Defined.

(** X26.  The index field of the report: the first, nameless, field of
    the records holds the numbers from 0 to the number of records less one,
    each once: the place of each line before the lines were sorted. *)
Theorem X26_report_index_fields o l df_orgs csv :
  report o (JArr l) df_orgs = Ok csv ->
  List.map index_field (records csv)
  ≡ₚ List.map (fun i => JInt (Z.of_nat i)) (seq 0 (length (records csv))).
Proof.
  intros (ds & -> & Hperm)%report_rows.
  rewrite (Permutation_length Hperm), length_map.
  etrans; [apply Permutation_map, Hperm|].
  rewrite List.map_map. unfold number_rows.
  rewrite number_rows_from_length.
  set (Y := flat_map (report_lines df_orgs) ds).
  change (List.map (fun x : Z * list json => index_field (JInt (fst x) :: snd x))
            (number_rows_from 0 Y))
    with (List.map (fun x : Z * list json => JInt (fst x))
            (number_rows_from 0 Y)).
  rewrite <- (List.map_map fst JInt), number_rows_from_fst, List.map_map.
  done.
Qed.

Lemma X26_witness :
  List.map index_field (records example_csv)
  ≡ₚ List.map (fun i => JInt (Z.of_nat i))
       (seq 0 (length (records example_csv))).
Proof.
  apply (X26_report_index_fields flaky_oracle example_x_out example_sheet
           example_csv).
  vm_compute. reflexivity.
Defined.

(** ** From the sheet to the report *)

(** The report of a run is the report of the results of its loop. *)
Lemma main_report o h csv :
  oracle_ok o -> cache_ok (disk_cache h) ->
  rows_ok (columns (sheet_of h)) (rows (sheet_of h)) ->
  fst (main o h) = Ok csv ->
  exists settings x_out w4,
    iterate o (columns (sheet_of h)) (rows (sheet_of h))
      (before_loop h settings) = (Ok x_out, w4)
    /\ report o (JArr x_out) (sheet_of h) = Ok csv.
Proof.
  intros Ho Hinv Hrows. unfold main.
  destruct (load_settings _) as [settings|]; [|done].
  destruct (iterate _ _ _ _) as [[x_out|] w4] eqn:Hit; [|done].
  destruct (iterate_round_trip _ _ _ _ _ _ Ho
              (before_loop_cache_ok h settings Hinv) Hrows Hit) as [-> _].
  destruct (report _ _ _) as [csv'|] eqn:Hrep; [|done].
  cbn [fst]. intros [= <-]. by exists settings, x_out, w4.
Qed.

Lemma websites_occur cols rs u :
  In u (websites cols rs) ->
  exists i r, In (i, r) rs
              /\ getitem cols r (lit "organization_website") = Ok (JStr u).
Proof.
  induction rs as [|[i r] rs IH]; cbn [websites]; [done|].
  assert (Hrest : In u (websites cols rs) ->
            exists i' r', In (i', r') ((i, r) :: rs)
              /\ getitem cols r' (lit "organization_website") = Ok (JStr u)).
  { intros (i' & r' & ? & ?)%IH. exists i', r'. split; [by right|done]. }
  destruct (getitem cols r _) as [x|] eqn:Hx; [|done].
  destruct x; try done.
  destruct (startswith s _); [|done].
  intros [->|Hin]; [|by apply Hrest]. exists i, r. split; [by left|done].
Qed.

Lemma occurrences_positive df u :
  In u (websites (columns df) (rows df)) -> (1 <= occurrences df u)%nat.
Proof.
  intros (i & r & Hin & Hget)%websites_occur. unfold occurrences.
  assert (Hr : In r (List.filter
                       (fun r => key_eqb (JStr u)
                                   (sheet_cell df r (lit "organization_website")))
                       (List.map snd (rows df)))).
  { apply filter_In. split.
    - apply in_map_iff. by exists (i, r).
    - unfold sheet_cell. rewrite Hget. cbn. apply str_eqb_refl. }
  destruct (List.filter _ _); [done|]. cbn. lia.
Qed.

Lemma Forall2_in_l {A B} (P : A -> B -> Prop) l1 l2 x :
  Forall2 P l1 l2 -> In x l1 -> exists y, In y l2 /\ P x y.
Proof.
  induction 1 as [|a b l1 l2 Hab _ IH]; [done|].
  intros [->|Hin].
  - exists b. split; [by left|done].
  - destruct (IH Hin) as (y & ? & ?). exists y. split; [by right|done].
Qed.

(** X27.  From the sheet to the report: let the cache hold only well-formed
    mappings stored under their [url], and let the texts from outside be
    decoded texts.  Then, when the script writes a report, every website of
    the sheet that starts with ["https://"] has a line in it, with the
    website in its [url] field. *)
Theorem X27_main_report_has_every_website o h csv u :
  oracle_ok o -> cache_ok (disk_cache h) -> cache_keyed (disk_cache h) ->
  rows_ok (columns (sheet_of h)) (rows (sheet_of h)) ->
  fst (main o h) = Ok csv ->
  In u (websites (columns (sheet_of h)) (rows (sheet_of h))) ->
  exists record, In record (records csv) /\ nth 1 record nan = JStr u.
Proof.
  intros Ho Hinv Hkeyed Hrows Hmain Hu.
  destruct (main_report o h csv Ho Hinv Hrows Hmain)
    as (settings & x_out & w4 & Hit & Hrep).
  assert (Hres : Forall2 url_is
                   (websites (columns (sheet_of h)) (rows (sheet_of h))) x_out).
  { eapply iterate_results; [|exact Hit]. by rewrite before_loop_cache. }
  destruct (Forall2_in_l _ _ _ _ Hres Hu) as (v & Hv & Hurl).
  pose proof Hurl as (d & -> & Hd).
  apply report_rows in Hrep as (ds & -> & Hperm).
  apply in_map_iff in Hv as (d' & [= <-] & Hd').
  destruct (report_lines_head (sheet_of h) d') as (a & b & Hline).
  destruct (number_rows_from_in (report_line d' a b)
              (flat_map (report_lines (sheet_of h)) ds) 0%Z) as [i Hi].
  { apply in_flat_map. eauto. }
  exists (JInt i :: report_line d' a b). split.
  - apply list_elem_of_In. rewrite Hperm.
    apply list_elem_of_In, in_map_iff. by exists (i, report_line d' a b).
  - cbn. unfold cell. by rewrite Hd.
Qed.

Lemma X27_witness :
  exists record,
    In record (records example_csv) /\ nth 1 record nan = JStr other_url.
Proof.
  apply (X27_main_report_has_every_website flaky_oracle example_host example_csv
           other_url).
  - split; [intros [|n] prompt|intros s]; vm_compute; reflexivity.
  - intros k v Hk. vm_compute in Hk. discriminate.
  - intros k v Hk. vm_compute in Hk. discriminate.
  - intros i r url Hin Hget.
    repeat (destruct Hin as [Heq|Hin];
            [injection Heq as <- <-; vm_compute in Hget;
             first [discriminate | injection Hget as <-; reflexivity]|]).
    destruct Hin.
  - vm_compute. reflexivity.
  - vm_compute. right. left. reflexivity.
Defined.

(** X28.  The number of lines of the report of a run, under the same
    conditions: each row of the sheet whose website starts with
    ["https://"] gives as many lines as the sheet has rows with that
    website.  A website that stands in [k] rows of the sheet fills [k * k]
    lines of the report; only when no website stands in two rows has the
    report one line for each of these rows. *)
Theorem X28_run_report_line_count o h csv :
  oracle_ok o -> cache_ok (disk_cache h) -> cache_keyed (disk_cache h) ->
  rows_ok (columns (sheet_of h)) (rows (sheet_of h)) ->
  fst (main o h) = Ok csv ->
  length (records csv)
  = list_sum (List.map (occurrences (sheet_of h))
                (websites (columns (sheet_of h)) (rows (sheet_of h)))).
Proof.
  intros Ho Hinv Hkeyed Hrows Hmain.
  destruct (main_report o h csv Ho Hinv Hrows Hmain)
    as (settings & x_out & w4 & Hit & Hrep).
  assert (Hres : Forall2 url_is
                   (websites (columns (sheet_of h)) (rows (sheet_of h))) x_out).
  { eapply iterate_results; [|exact Hit]. by rewrite before_loop_cache. }
  rewrite (report_rows_length _ _ _ _ _ Hres Hrep). f_equal.
  apply map_ext_in. intros u Hu%occurrences_positive. lia.
Qed.

Lemma X28_witness :
  length (records example_csv)
  = list_sum (List.map (occurrences (sheet_of example_host))
                (websites (columns (sheet_of example_host))
                   (rows (sheet_of example_host)))).
Proof.
  apply (X28_run_report_line_count flaky_oracle example_host example_csv).
  - split; [intros [|n] prompt|intros s]; vm_compute; reflexivity.
  - intros k v Hk. vm_compute in Hk. discriminate.
  - intros k v Hk. vm_compute in Hk. discriminate.
  - intros i r url Hin Hget.
    repeat (destruct Hin as [Heq|Hin];
            [injection Heq as <- <-; vm_compute in Hget;
             first [discriminate | injection Hget as <-; reflexivity]|]).
    destruct Hin.
  - vm_compute. reflexivity.
Defined.

(** ** The text of the JSON file *)

Lemma printable_spec c : printable c = true <-> 32 <= c <= 126.
Proof. unfold printable. rewrite andb_true_iff, !N.leb_le. tauto. Qed.

Lemma printable_lit s :
  forallb printable (lit s) = true ->
  Forall (fun c => printable c = true) (lit s).
Proof.
  intros H. apply Forall_forall. intros c Hc%list_elem_of_In.
  by apply (proj1 (forallb_forall _ _) H).
Qed.

Lemma hex_digit_printable n : n < 16 -> printable (hex_digit n) = true.
Proof.
  intros Hn. apply printable_spec. unfold hex_digit.
  destruct (N.ltb_spec n 10); lia.
Qed.

Lemma u_escape_printable n :
  Forall (fun c => printable c = true) (u_escape n).
Proof.
  unfold u_escape, hex4_of. chars.
  repeat constructor; apply hex_digit_printable, N.mod_lt; lia.
Qed.

Lemma escape_char_printable c :
  Forall (fun c => printable c = true) (escape_char c).
Proof.
  unfold escape_char. chars.
  repeat (destruct (_ =? _); [by repeat constructor|]).
  destruct (_ && _) eqn:Hp; [by repeat constructor|].
  destruct (_ <? _); [apply u_escape_printable|].
  apply Forall_app. split; apply u_escape_printable.
Qed.

Lemma encode_string_printable s :
  Forall (fun c => printable c = true) (encode_string s).
Proof.
  unfold encode_string. chars. constructor; [done|].
  apply Forall_app. split; [|by repeat constructor].
  induction s as [|c s IH]; cbn [escape]; [constructor|].
  apply Forall_app. split; [apply escape_char_printable|done].
Qed.

Lemma digits_printable n :
  Forall (fun c => printable c = true) (digits_of_N n).
Proof.
  eapply Forall_impl; [apply digits_of_uint_digits|].
  intros c Hc. apply is_digit_range in Hc. apply printable_spec. lia.
Qed.

Lemma repr_int_printable z :
  Forall (fun c => printable c = true) (repr_int z).
Proof.
  destruct z; cbn [repr_int]; try apply digits_printable.
  constructor; [done|apply digits_printable].
Qed.

Lemma zeros_printable k : Forall (fun c => printable c = true) (zeros k).
Proof. induction k; by constructor. Qed.

Lemma pad2_printable ds :
  Forall (fun c => printable c = true) ds ->
  Forall (fun c => printable c = true) (pad2 ds).
Proof.
  intros Hds. destruct ds as [|d [|d' ds]]; cbn [pad2]; try done.
  by constructor.
Qed.

Lemma float_repr_printable neg m e :
  Forall (fun c => printable c = true) (float_repr neg m e).
Proof.
  pose proof (digits_printable m) as Hds.
  unfold float_repr. apply Forall_app.
  split; [destruct neg; by repeat constructor|].
  destruct (m =? 0); [by apply printable_lit|].
  destruct (_ && _).
  - destruct (_ <=? 0)%Z.
    { apply Forall_app. split; [by apply printable_lit|].
      apply Forall_app. split; [apply zeros_printable|done]. }
    destruct (_ <? _)%Z.
    { apply Forall_app. split; [by apply Forall_take|].
      constructor; [done|by apply Forall_drop]. }
    apply Forall_app. split; [done|].
    apply Forall_app. split; [apply zeros_printable|by apply printable_lit].
  - destruct Hds as [|d t Hd Ht]; [constructor|].
    constructor; [done|]. apply Forall_app. split.
    + destruct Ht; [constructor|]. constructor; [done|by constructor].
    + constructor; [done|]. constructor; [by destruct (_ <=? _)%Z|].
      apply pad2_printable, digits_printable.
Qed.

Lemma floatstr_printable f :
  Forall (fun c => printable c = true) (floatstr f).
Proof.
  destruct f as [|[]|neg m e]; cbn [floatstr];
    try (by apply printable_lit).
  destruct (canonical m e) as [m' e']. apply float_repr_printable.
Qed.

Lemma join_comma_printable xs :
  Forall (Forall (fun c => printable c = true)) xs ->
  Forall (fun c => printable c = true) (join_comma xs).
Proof.
  induction 1 as [|x xs Hx Hxs IH]; [constructor|].
  cbn [join_comma]. destruct xs as [|y xs]; [done|].
  apply Forall_app. split; [done|].
  apply Forall_app. split; [by apply printable_lit|done].
Qed.

Lemma json_dumps_printable v :
  Forall (fun c => printable c = true) (json_dumps v).
Proof.
  induction v as [|[]|z|f|s|l IH|d IH] using json_nested_ind;
    cbn [json_dumps]; try (by apply printable_lit).
  - apply repr_int_printable.
  - apply floatstr_printable.
  - apply encode_string_printable.
  - constructor; [done|]. apply Forall_app. split; [|by repeat constructor].
    apply join_comma_printable. by apply Forall_map.
  - constructor; [done|]. apply Forall_app. split; [|by repeat constructor].
    apply join_comma_printable. apply Forall_map.
    eapply Forall_impl; [exact IH|]. intros [k x] Hx. cbn [fst snd] in *.
    apply Forall_app. split; [apply encode_string_printable|].
    apply Forall_app. split; [by apply printable_lit|done].
Qed.

(** X29.  The JSON file is one line of printable ASCII: every character of
    the text that the script writes as its JSON file lies between the
    space and the tilde, whatever the websites, the cache and the model
    hold ([json.dump] escapes every other character of a string, and puts
    no line feed between the values). *)
Theorem X29_json_file_is_printable_ascii o h path text :
  In (WriteText path text) (trace (snd (main o h))) ->
  Forall (fun c => printable c = true) text.
Proof.
  intros (settings & x_out & w4 & _ & _ & _ & ->)%main_write_text.
  apply json_dumps_printable.
Qed.

Lemma X29_witness :
  Forall (fun c => printable c = true) (json_dumps (JArr example_x_out)).
Proof.
  apply (X29_json_file_is_printable_ascii flaky_oracle example_host
           (lit ".data/outputs/orgs_classified.json")
           (json_dumps (JArr example_x_out))).
  vm_compute. do 12 right. left. reflexivity.
Defined.
